(** * Elastigroup task of the Spotinst cloud-up tasks (kops)

    A shallow embedding of [upup/pkg/fi/cloudup/spotinsttasks/elastigroup.go]:
    the task record, the provider group it reads and writes, the direct-apply
    renderer ([create], [update]), the discovery ([find], [Find]), the
    precondition check ([CheckChanges]) and the Terraform renderer. *)

From Stdlib Require Import String Ascii ZArith List QArith Bool Permutation Lia.
Import ListNotations.
Open Scope string_scope.
Set Warnings "-register-all".

(* ------------------------------------------------------------------ *)
(** ** Provider structures

    The provider SDK structs ([aws.Group] and its nested [Capacity],
    [Strategy], [Compute], [LaunchSpecification], ...) are structs of
    optional pointers serialised to JSON.  They are modelled as a sparse
    tree keyed by the Go field names: a field is absent until a setter or a
    [new(...)] puts it there, and [SetX(nil)] stores an explicit [VNull]
    (the SDK records such fields as null fields). *)

Inductive Value : Type :=
  | VNull
  | VStr (s : string)
  | VInt (z : Z)
  | VBool (b : bool)
  | VFloat (q : Q)
  | VList (l : list Value)
  | VObj (fs : list (string * Value)).

Fixpoint assoc {A} (k : string) (l : list (string * A)) : option A :=
  match l with
  | [] => None
  | (k', v) :: l' => if String.eqb k k' then Some v else assoc k l'
  end.

Fixpoint assoc_set {A} (k : string) (v : A) (l : list (string * A))
  : list (string * A) :=
  match l with
  | [] => [(k, v)]
  | (k', v') :: l' =>
      if String.eqb k k' then (k, v) :: l' else (k', v') :: assoc_set k v l'
  end.

Definition obj_fields (t : Value) : list (string * Value) :=
  match t with VObj fs => fs | _ => [] end.

(** [get_path p t]: reading [t.P1.P2...] where every intermediate struct
    is present. *)
Fixpoint get_path (p : list string) (t : Value) : option Value :=
  match p with
  | [] => Some t
  | k :: p' =>
      match t with
      | VObj fs => match assoc k fs with
                   | Some t' => get_path p' t'
                   | None => None
                   end
      | _ => None
      end
  end.

(** [set_path p v t]: [t.P1...Pn = v], allocating each missing intermediate
    struct as the code does with [if x.P == nil { x.P = new(...) }]. *)
Fixpoint set_path (p : list string) (v : Value) (t : Value) : Value :=
  match p with
  | [] => v
  | k :: p' =>
      let fs := obj_fields t in
      let sub := match assoc k fs with Some s => s | None => VObj [] end in
      VObj (assoc_set k (set_path p' v sub) fs)
  end.

Definition emptyObj : Value := VObj [].

(** Pointers to scalars, as passed to the SDK setters. *)
Definition vstr (o : option string) : Value :=
  match o with Some s => VStr s | None => VNull end.
Definition vint (o : option Z) : Value :=
  match o with Some z => VInt z | None => VNull end.
Definition vbool (o : option bool) : Value :=
  match o with Some b => VBool b | None => VNull end.
Definition vfloat (o : option Q) : Value :=
  match o with Some q => VFloat q | None => VNull end.
Definition vstrs (o : option (list string)) : Value :=
  match o with Some l => VList (map VStr l) | None => VNull end.

(** Reading back a pointer field of a provider struct. *)
Definition as_str (o : option Value) : option string :=
  match o with Some (VStr s) => Some s | _ => None end.
Definition as_int (o : option Value) : option Z :=
  match o with Some (VInt z) => Some z | _ => None end.
Definition as_bool (o : option Value) : option bool :=
  match o with Some (VBool b) => Some b | _ => None end.
Definition as_float (o : option Value) : option Q :=
  match o with Some (VFloat q) => Some q | _ => None end.
Definition as_list (o : option Value) : option (list Value) :=
  match o with Some (VList l) => Some l | _ => None end.

(** [fi.StringValue], [fi.IntValue], [fi.BoolValue]: nil reads as zero. *)
Definition StringValue (o : option string) : string :=
  match o with Some s => s | None => "" end.
Definition IntValue (o : option Z) : Z :=
  match o with Some z => z | None => 0%Z end.
Definition BoolValue (o : option bool) : bool :=
  match o with Some b => b | None => false end.

(* ------------------------------------------------------------------ *)
(** ** Errors

    Go's [error] results.  [ErrPanic] stands for a nil-pointer dereference
    (a runtime panic, which aborts the pass). *)

Inductive GoError : Type :=
  | ErrRequiredField (field : string)     (* fi.RequiredField *)
  | ErrMsg (msg : string)                 (* fmt.Errorf(...) *)
  | ErrProvider (e : string)              (* an error returned as is *)
  | ErrPanic (what : string)
  | ErrWrap (msg : string) (inner : GoError).   (* fmt.Errorf("...: %v", err) *)

Inductive Result (A : Type) : Type :=
  | Ok (a : A)
  | Error (e : GoError).
Arguments Ok {A} a.
Arguments Error {A} e.

Definition rbind {A B} (r : Result A) (k : A -> Result B) : Result B :=
  match r with Ok a => k a | Error e => Error e end.

Notation "x <-? r ;; k" := (rbind r (fun x => k))
  (at level 61, r at next level, right associativity).

(* ------------------------------------------------------------------ *)
(** ** The task and its nested option groups *)

(** [fi.Resource]: read with [fi.ResourceAsString], which may fail. *)
Inductive Resource : Type :=
  | ResourceString (contents : string)      (* fi.NewStringResource *)
  | ResourceFailing (err : string).

Definition ResourceAsString (r : Resource) : Result string :=
  match r with
  | ResourceString s => Ok s
  | ResourceFailing e => Error (ErrProvider e)
  end.

(** Referenced tasks of the aws tasks package, with the fields used here. *)
Record Subnet := { subnet_Name : option string; subnet_ID : option string }.
Record SecurityGroup := { sg_Name : option string; sg_ID : option string }.
Record IAMInstanceProfile := { iam_Name : option string }.
Record ClassicLoadBalancer := { lb_Name : option string }.
Record SSHKey := { key_Name : option string }.

(** [corev1.Taint] *)
Record Taint := { taint_Key : string; taint_Value : string; taint_Effect : string }.

(** A Go [map[string]string]: [None] is the nil map, [Some kvs] a map whose
    keys are pairwise distinct.  Ranging over it visits its entries in an
    order chosen by the runtime (see [MapOrder] below). *)
Definition StringMap := option (list (string * string)).

Record RootVolumeOpts := {
  rv_Type : option string;
  rv_Size : option Z;
  rv_IOPS : option Z;
  rv_Throughput : option Z;
  rv_Optimization : option bool }.

Record AutoScalerHeadroomOpts := {
  hr_CPUPerUnit : option Z;
  hr_GPUPerUnit : option Z;
  hr_MemPerUnit : option Z;
  hr_NumOfUnits : option Z }.

Record AutoScalerDownOpts := {
  down_MaxPercentage : option Q;
  down_EvaluationPeriods : option Z }.

Record AutoScalerResourceLimitsOpts := {
  rl_MaxVCPU : option Z;
  rl_MaxMemory : option Z }.

Record AutoScalerOpts := {
  as_Enabled : option bool;
  as_AutoConfig : option bool;
  as_AutoHeadroomPercentage : option Z;
  as_ClusterID : option string;
  as_Cooldown : option Z;
  as_Labels : StringMap;
  as_Taints : option (list Taint);
  as_Headroom : option AutoScalerHeadroomOpts;
  as_Down : option AutoScalerDownOpts;
  as_ResourceLimits : option AutoScalerResourceLimitsOpts }.

(** [fi.Lifecycle] is a string enumeration. *)
Definition Lifecycle := string.

(** The task; the same type is used for the desired value [e], the actual
    value [a] and the [changes] value. *)
Record Elastigroup := {
  Name : option string;
  Lifecycle_ : option Lifecycle;
  ID : option string;
  Region : option string;
  MinSize : option Z;
  MaxSize : option Z;
  SpotPercentage : option Q;
  UtilizeReservedInstances : option bool;
  FallbackToOnDemand : option bool;
  DrainingTimeout : option Z;
  HealthCheckType : option string;
  Product : option string;
  Orientation : option string;
  Tags : StringMap;
  UserData : option Resource;
  ImageID : option string;
  OnDemandInstanceType : option string;
  SpotInstanceTypes : option (list string);
  IAMInstanceProfile_ : option IAMInstanceProfile;
  LoadBalancer : option ClassicLoadBalancer;
  SSHKey_ : option SSHKey;
  Subnets : option (list Subnet);
  SecurityGroups : option (list SecurityGroup);
  Monitoring : option bool;
  AssociatePublicIP : option bool;
  Tenancy : option string;
  RootVolumeOpts_ : option RootVolumeOpts;
  AutoScalerOpts_ : option AutoScalerOpts }.

(** [&Elastigroup{}] *)
Definition emptyElastigroup : Elastigroup :=
  {| Name := None; Lifecycle_ := None; ID := None; Region := None;
     MinSize := None; MaxSize := None; SpotPercentage := None;
     UtilizeReservedInstances := None; FallbackToOnDemand := None;
     DrainingTimeout := None; HealthCheckType := None; Product := None;
     Orientation := None; Tags := None; UserData := None; ImageID := None;
     OnDemandInstanceType := None; SpotInstanceTypes := None;
     IAMInstanceProfile_ := None; LoadBalancer := None; SSHKey_ := None;
     Subnets := None; SecurityGroups := None; Monitoring := None;
     AssociatePublicIP := None; Tenancy := None; RootVolumeOpts_ := None;
     AutoScalerOpts_ := None |}.

(** The fields of the task, to name those [update] clears in [changes]. *)
Inductive field : Type :=
  | FName | FLifecycle | FID | FRegion | FMinSize | FMaxSize
  | FSpotPercentage | FUtilizeReservedInstances | FFallbackToOnDemand
  | FDrainingTimeout | FHealthCheckType | FProduct | FOrientation | FTags
  | FUserData | FImageID | FOnDemandInstanceType | FSpotInstanceTypes
  | FIAMInstanceProfile | FLoadBalancer | FSSHKey | FSubnets
  | FSecurityGroups | FMonitoring | FAssociatePublicIP | FTenancy
  | FRootVolumeOpts | FAutoScalerOpts.

Definition all_fields : list field :=
  [FName; FLifecycle; FID; FRegion; FMinSize; FMaxSize; FSpotPercentage;
   FUtilizeReservedInstances; FFallbackToOnDemand; FDrainingTimeout;
   FHealthCheckType; FProduct; FOrientation; FTags; FUserData; FImageID;
   FOnDemandInstanceType; FSpotInstanceTypes; FIAMInstanceProfile;
   FLoadBalancer; FSSHKey; FSubnets; FSecurityGroups; FMonitoring;
   FAssociatePublicIP; FTenancy; FRootVolumeOpts; FAutoScalerOpts].

Definition field_eqb (f g : field) : bool :=
  match f, g with
  | FName, FName | FLifecycle, FLifecycle | FID, FID | FRegion, FRegion
  | FMinSize, FMinSize | FMaxSize, FMaxSize
  | FSpotPercentage, FSpotPercentage
  | FUtilizeReservedInstances, FUtilizeReservedInstances
  | FFallbackToOnDemand, FFallbackToOnDemand
  | FDrainingTimeout, FDrainingTimeout | FHealthCheckType, FHealthCheckType
  | FProduct, FProduct | FOrientation, FOrientation | FTags, FTags
  | FUserData, FUserData | FImageID, FImageID
  | FOnDemandInstanceType, FOnDemandInstanceType
  | FSpotInstanceTypes, FSpotInstanceTypes
  | FIAMInstanceProfile, FIAMInstanceProfile
  | FLoadBalancer, FLoadBalancer | FSSHKey, FSSHKey | FSubnets, FSubnets
  | FSecurityGroups, FSecurityGroups | FMonitoring, FMonitoring
  | FAssociatePublicIP, FAssociatePublicIP | FTenancy, FTenancy
  | FRootVolumeOpts, FRootVolumeOpts | FAutoScalerOpts, FAutoScalerOpts => true
  | _, _ => false
  end.

Definition is_set {A} (o : option A) : bool :=
  match o with Some _ => true | None => false end.

(** Whether a field of a task value is non-nil. *)
Definition populated (x : Elastigroup) (f : field) : bool :=
  match f with
  | FName => is_set (Name x) | FLifecycle => is_set (Lifecycle_ x)
  | FID => is_set (ID x) | FRegion => is_set (Region x)
  | FMinSize => is_set (MinSize x) | FMaxSize => is_set (MaxSize x)
  | FSpotPercentage => is_set (SpotPercentage x)
  | FUtilizeReservedInstances => is_set (UtilizeReservedInstances x)
  | FFallbackToOnDemand => is_set (FallbackToOnDemand x)
  | FDrainingTimeout => is_set (DrainingTimeout x)
  | FHealthCheckType => is_set (HealthCheckType x)
  | FProduct => is_set (Product x) | FOrientation => is_set (Orientation x)
  | FTags => is_set (Tags x) | FUserData => is_set (UserData x)
  | FImageID => is_set (ImageID x)
  | FOnDemandInstanceType => is_set (OnDemandInstanceType x)
  | FSpotInstanceTypes => is_set (SpotInstanceTypes x)
  | FIAMInstanceProfile => is_set (IAMInstanceProfile_ x)
  | FLoadBalancer => is_set (LoadBalancer x) | FSSHKey => is_set (SSHKey_ x)
  | FSubnets => is_set (Subnets x)
  | FSecurityGroups => is_set (SecurityGroups x)
  | FMonitoring => is_set (Monitoring x)
  | FAssociatePublicIP => is_set (AssociatePublicIP x)
  | FTenancy => is_set (Tenancy x)
  | FRootVolumeOpts => is_set (RootVolumeOpts_ x)
  | FAutoScalerOpts => is_set (AutoScalerOpts_ x)
  end.

(* ------------------------------------------------------------------ *)
(** ** Environment: the cloud and the Go runtime *)

(** [ec2.Image], [elb.LoadBalancerDescription] / [elbv2.LoadBalancer] (the
    name is all that is read of either) and an ephemeral device of a
    machine type. *)
Record Image := { img_ImageId : option string; img_RootDeviceName : option string }.
Record LoadBalancerDesc := { lbd_LoadBalancerName : option string }.
Record EphemeralDevice := { ed_DeviceName : string; ed_VirtualName : string }.

(** One answer of the provider's [Create] call: the new group's id, a
    [client.Errors] collection (the messages of its sub-errors), or any
    other [error]. *)
Inductive CreateResponse : Type :=
  | CreateOk (id : string)
  | CreateClientErrors (messages : list string)
  | CreateOtherError (msg : string).

(** The [awsup.AWSCloud] calls the task makes.  [Create] is answered by
    [cloud_Create n] on the [n]-th call (numbered from 1); [Update] returns
    an optional error. *)
Record Cloud := {
  cloud_List : Result (list Value);
  cloud_ResolveImage : string -> Result (option Image);
  cloud_FindELBByNameTag : string -> Result (option LoadBalancerDesc);
  cloud_FindELBV2ByNameTag : string -> Result (option LoadBalancerDesc);
  cloud_GetMachineTypeInfo : string -> Result (list EphemeralDevice);
  cloud_NewElastigroup : Value -> Result Value;
  cloud_Create : nat -> CreateResponse;
  cloud_Update : Value -> option string }.

(** Ranging over a Go map visits its entries in an order the runtime picks
    afresh at each [range] statement.  [MapOrder n m] is the order used by
    the [range] statement number [n] on map [m]; a legal choice is any
    permutation of the entries. *)
Definition MapOrder := nat -> list (string * string) -> list (string * string).

Definition MapOrder_ok (ord : MapOrder) : Prop :=
  forall n m, Permutation (ord n m) m.

(** The [range] statements over maps, numbered. *)
Definition RangeRoleTags : nat := 0.
Definition RangeTerraformLabels : nat := 1.
Definition RangeBuildTags : nat := 2.
Definition RangeBuildAutoScaleLabels : nat := 3.

Definition range_map (ord : MapOrder) (n : nat) (m : StringMap)
  : list (string * string) :=
  match m with None => [] | Some kvs => ord n kvs end.

(* ------------------------------------------------------------------ *)
(** ** Helpers of elastigroup.go *)

Definition OrientationBalanced : string := "balanced".
Definition OrientationCost : string := "costOriented".
Definition OrientationAvailability : string := "availabilityOriented".
Definition OrientationEqualZoneDistribution : string := "equalAzDistribution".

Definition normalizeOrientation (orientation : option string) : string :=
  match orientation with
  | None => OrientationBalanced
  | Some o =>
      if String.eqb o "cost" then OrientationCost
      else if String.eqb o "availability" then OrientationAvailability
      else if String.eqb o "equal-distribution"
           then OrientationEqualZoneDistribution
      else OrientationBalanced
  end.

Definition applyDefaults (e : Elastigroup) : Elastigroup :=
  {| Name := Name e; Lifecycle_ := Lifecycle_ e; ID := ID e;
     Region := Region e; MinSize := MinSize e; MaxSize := MaxSize e;
     SpotPercentage := SpotPercentage e;
     UtilizeReservedInstances :=
       match UtilizeReservedInstances e with
       | None => Some true | v => v end;
     FallbackToOnDemand :=
       match FallbackToOnDemand e with None => Some true | v => v end;
     DrainingTimeout := DrainingTimeout e;
     HealthCheckType :=
       match HealthCheckType e with None => Some "K8S_NODE" | v => v end;
     Product :=
       match Product e with
       | None => Some "Linux/UNIX"
       | Some p => if String.eqb p "" then Some "Linux/UNIX" else Some p
       end;
     Orientation :=
       match Orientation e with
       | None => Some "balanced"
       | Some o => if String.eqb o "" then Some "balanced" else Some o
       end;
     Tags := Tags e; UserData := UserData e; ImageID := ImageID e;
     OnDemandInstanceType := OnDemandInstanceType e;
     SpotInstanceTypes := SpotInstanceTypes e;
     IAMInstanceProfile_ := IAMInstanceProfile_ e;
     LoadBalancer := LoadBalancer e; SSHKey_ := SSHKey_ e;
     Subnets := Subnets e; SecurityGroups := SecurityGroups e;
     Monitoring := match Monitoring e with None => Some false | v => v end;
     AssociatePublicIP := AssociatePublicIP e; Tenancy := Tenancy e;
     RootVolumeOpts_ := RootVolumeOpts_ e;
     AutoScalerOpts_ := AutoScalerOpts_ e |}.

(** [buildTags]: an [aws.Tag] per entry, in the map's iteration order. *)
Definition buildTags (ord : MapOrder) (e : Elastigroup)
  : list (string * string) :=
  map (fun '(k, v) => (k, v)) (range_map ord RangeBuildTags (Tags e)).

Definition buildAutoScaleLabels (ord : MapOrder) (labelsMap : StringMap)
  : list (string * string) :=
  map (fun '(k, v) => (k, v)) (range_map ord RangeBuildAutoScaleLabels labelsMap).

(** A struct literal: the nil fields of a literal are not serialised. *)
Definition lit (fs : list (string * option Value)) : Value :=
  VObj (flat_map (fun '(k, o) => match o with Some v => [(k, v)] | None => [] end) fs).

Definition kvValue (kv : string * string) : Value :=
  lit [("Key", Some (VStr (fst kv))); ("Value", Some (VStr (snd kv)))].

Definition resolveImage (cloud : Cloud) (name : string) : Result Image :=
  match cloud_ResolveImage cloud name with
  | Error err => Error (ErrWrap ("spotinst: unable to resolve image " ++ name) err)
  | Ok None => Error (ErrMsg ("spotinst: unable to resolve image " ++ name ++ ": not found"))
  | Ok (Some img) => Ok img
  end.

(** [awstasks.BlockDeviceMapping], with the fields set here. *)
Record BlockDeviceMapping := {
  bdm_DeviceName : option string;
  bdm_VirtualName : option string;
  bdm_EbsDeleteOnTermination : option bool;
  bdm_EbsVolumeSize : option Z;
  bdm_EbsVolumeType : option string;
  bdm_EbsVolumeIops : option Z;
  bdm_EbsVolumeThroughput : option Z }.

Definition buildEphemeralDevices (cloud : Cloud) (machineType : option string)
  : Result (list BlockDeviceMapping) :=
  info <-? cloud_GetMachineTypeInfo cloud (StringValue machineType) ;;
  Ok (map (fun ed =>
        {| bdm_DeviceName := Some (ed_DeviceName ed);
           bdm_VirtualName := Some (ed_VirtualName ed);
           bdm_EbsDeleteOnTermination := None; bdm_EbsVolumeSize := None;
           bdm_EbsVolumeType := None; bdm_EbsVolumeIops := None;
           bdm_EbsVolumeThroughput := None |}) info).

(** [buildRootDevice]; [volumeOpts] is a pointer, dereferenced unguarded. *)
Definition buildRootDevice (cloud : Cloud) (volumeOpts : option RootVolumeOpts)
  (imageID : option string) : Result BlockDeviceMapping :=
  img <-? resolveImage cloud (StringValue imageID) ;;
  match volumeOpts with
  | None => Error (ErrPanic "nil pointer dereference: volumeOpts")
  | Some vo =>
      Ok {| bdm_DeviceName := img_RootDeviceName img;
            bdm_VirtualName := None;
            bdm_EbsDeleteOnTermination := Some true;
            bdm_EbsVolumeSize := rv_Size vo;
            bdm_EbsVolumeType := rv_Type vo;
            (* IOPS is not supported for gp2 volumes. *)
            bdm_EbsVolumeIops :=
              if is_set (rv_IOPS vo) && negb (String.eqb (StringValue (rv_Type vo)) "gp2")
              then rv_IOPS vo else None;
            (* Throughput is only supported for gp3 volumes. *)
            bdm_EbsVolumeThroughput :=
              if is_set (rv_Throughput vo) && String.eqb (StringValue (rv_Type vo)) "gp3"
              then rv_Throughput vo else None |}
  end.

(** [convertBlockDeviceMapping]: an [aws.BlockDeviceMapping] literal. *)
Definition convertBlockDeviceMapping (i : BlockDeviceMapping) : Value :=
  let ebs :=
    if is_set (bdm_EbsDeleteOnTermination i) || is_set (bdm_EbsVolumeSize i)
       || is_set (bdm_EbsVolumeType i)
    then Some (lit
      [("VolumeType", option_map VStr (bdm_EbsVolumeType i));
       ("VolumeSize", Some (VInt (IntValue (bdm_EbsVolumeSize i))));
       ("DeleteOnTermination", option_map VBool (bdm_EbsDeleteOnTermination i));
       (* IOPS is not valid for gp2 volumes. *)
       ("IOPS",
         if is_set (bdm_EbsVolumeIops i)
            && negb (String.eqb (StringValue (bdm_EbsVolumeType i)) "gp2")
         then Some (VInt (IntValue (bdm_EbsVolumeIops i))) else None);
       (* Throughput is only valid for gp3 volumes. *)
       ("Throughput",
         if is_set (bdm_EbsVolumeThroughput i)
            && String.eqb (StringValue (bdm_EbsVolumeType i)) "gp3"
         then Some (VInt (IntValue (bdm_EbsVolumeThroughput i))) else None)])
    else None in
  lit [("DeviceName", option_map VStr (bdm_DeviceName i));
       ("VirtualName", option_map VStr (bdm_VirtualName i));
       ("EBS", ebs)].

(** [CheckChanges] *)
Definition CheckChanges (a : option Elastigroup) (e : Elastigroup)
  (changes : option Elastigroup) : Result unit :=
  match Name e with
  | None => Error (ErrRequiredField "Name")
  | Some _ => Ok tt
  end.

(* ------------------------------------------------------------------ *)
(** ** Discovery: [find], [Find], [CheckExisting] *)

(** The Go standard library functions the task calls on strings. *)
Record GoRuntime := {
  rt_order : MapOrder;
  rt_base64Decode : string -> option string;   (* None: decoding error *)
  rt_base64Encode : string -> string }.

(** [strings.ToLower] on ASCII text. *)
Definition lower_ascii (c : ascii) : ascii :=
  let n := nat_of_ascii c in
  if (65 <=? n)%nat && (n <=? 90)%nat then ascii_of_nat (n + 32) else c.

Fixpoint ToLower (s : string) : string :=
  match s with
  | EmptyString => EmptyString
  | String c s' => String (lower_ascii c) (ToLower s')
  end.

(** The double quote character. *)
Definition dq : string := String "034"%char EmptyString.

(** [group.Name()] of the wrapped provider group. *)
Definition group_name (g : Value) : string := StringValue (as_str (get_path ["Name"] g)).

Definition find (cloud : Cloud) (name : string) : Result Value :=
  match cloud_List cloud with
  | Error err => Error (ErrWrap ("spotinst: failed to find elastigroup " ++ name) err)
  | Ok groups =>
      match List.find (fun g => String.eqb (group_name g) name) groups with
      | Some g => Ok g
      | None => Error (ErrMsg ("spotinst: failed to find elastigroup " ++ dq ++ name ++ dq))
      end
  end.

(** A pointer field of a struct. *)
Definition fld (s : Value) (k : string) : option Value :=
  match s with VObj fs => assoc k fs | _ => None end.

(** [x.K] used as a struct: a nil pointer there is dereferenced. *)
Definition deref (s : Value) (k : string) : Result Value :=
  match fld s k with
  | None | Some VNull => Error (ErrPanic ("nil pointer dereference: " ++ k))
  | Some v => Ok v
  end.

(** [x.K != nil] for a pointer, slice or map field. *)
Definition non_nil (s : Value) (k : string) : bool :=
  match fld s k with None | Some VNull => false | Some _ => true end.

Definition list_fld (s : Value) (k : string) : list Value :=
  match as_list (fld s k) with Some l => l | None => [] end.

Definition strs_of (o : option Value) : option (list string) :=
  match o with
  | Some (VList l) => Some (map (fun v => StringValue (as_str (Some v))) l)
  | _ => None
  end.

(** Multiset equality of two string lists. *)
Definition count_str (x : string) (l : list string) : nat :=
  length (filter (String.eqb x) l).

(** Modelled from the spec: [utils.StringSlicesEqualIgnoreOrder] (package
    utils, not among the sources): the two ID lists are equal ignoring order,
    the set equality the spec gives for subnet membership. *)
Definition StringSlicesEqualIgnoreOrder (l r : list string) : bool :=
  (length l =? length r)%nat
  && forallb (fun x => (count_str x l =? count_str x r)%nat) (l ++ r).

Definition subnetSlicesEqualIgnoreOrder (l r : option (list Subnet)) : bool :=
  let lIDs := map (fun s => StringValue (subnet_ID s)) (match l with Some l => l | None => [] end) in
  let rs := match r with Some r => r | None => [] end in
  if existsb (fun s => negb (is_set (subnet_ID s))) rs then false
  else StringSlicesEqualIgnoreOrder lIDs (map (fun s => StringValue (subnet_ID s)) rs).

(** Building a map from key/value structs, later keys overriding. *)
Definition map_of_kvs (kvs : list Value) : list (string * string) :=
  fold_left (fun m kv => assoc_set (StringValue (as_str (fld kv "Key")))
                                   (StringValue (as_str (fld kv "Value"))) m) kvs [].

(** [Find]'s loop over the block device mappings: the EBS mapping without a
    snapshot is the root volume. *)
Definition root_opts_of_bdms (bdms : list Value) (acc : option RootVolumeOpts)
  : option RootVolumeOpts :=
  fold_left (fun acc b =>
    match fld b "EBS" with
    | None | Some VNull => acc
    | Some ebs =>
        if non_nil ebs "SnapshotID" then acc
        else
          let r := match acc with
                   | Some r => r
                   | None => {| rv_Type := None; rv_Size := None; rv_IOPS := None;
                                rv_Throughput := None; rv_Optimization := None |}
                   end in
          Some {| rv_Type := match as_str (fld ebs "VolumeType") with
                             | Some t => Some (ToLower t) | None => rv_Type r end;
                  rv_Size := match as_int (fld ebs "VolumeSize") with
                             | Some z => Some z | None => rv_Size r end;
                  rv_IOPS := match as_int (fld ebs "IOPS") with
                             | Some z => Some z | None => rv_IOPS r end;
                  rv_Throughput := match as_int (fld ebs "Throughput") with
                                   | Some z => Some z | None => rv_Throughput r end;
                  rv_Optimization := rv_Optimization r |}
    end) bdms acc.

(** [if v := fi.IntValue(x); v > 0 { ... = x }] *)
Definition positive_only (o : option Z) : option Z :=
  if (0 <? IntValue o)%Z then o else None.

Definition rootVolumeOptsEmpty : RootVolumeOpts :=
  {| rv_Type := None; rv_Size := None; rv_IOPS := None; rv_Throughput := None;
     rv_Optimization := None |}.

(** The load balancer section of [Find]: [name] is the name of the first
    load balancer attached to the live group. *)
Definition find_load_balancer (cloud : Cloud) (e : Elastigroup) (lc : Value)
  : Result (option ClassicLoadBalancer) :=
  match fld lc "LoadBalancersConfig" with
  | None | Some VNull => Ok None
  | Some cfg =>
      match list_fld cfg "LoadBalancers" with
      | [] => Ok None
      | lb0 :: _ =>
          let name := as_str (fld lb0 "Name") in
          let actualLB := Some {| lb_Name := name |} in
          match LoadBalancer e with
          | Some eLB =>
              if negb (String.eqb (StringValue name) (StringValue (lb_Name eLB))) then
                nlb <-? cloud_FindELBV2ByNameTag cloud (StringValue (lb_Name eLB)) ;;
                let actualLB :=
                  match nlb with
                  | Some n => if String.eqb (StringValue (lbd_LoadBalancerName n))
                                            (StringValue name)
                              then LoadBalancer e else actualLB
                  | None => actualLB
                  end in
                elb <-? cloud_FindELBByNameTag cloud (StringValue (lb_Name eLB)) ;;
                match elb, nlb with
                | Some l, Some n =>
                    Error (ErrMsg ("spotinst: found both aws/elb ("
                                   ++ StringValue (lbd_LoadBalancerName l)
                                   ++ ") and aws/nlb ("
                                   ++ StringValue (lbd_LoadBalancerName n) ++ ")"))
                | Some l, None =>
                    Ok (if String.eqb (StringValue (lbd_LoadBalancerName l)) (StringValue name)
                        then LoadBalancer e else actualLB)
                | None, _ => Ok actualLB
                end
              else Ok actualLB
          | None => Ok actualLB
          end
      end
  end.

(** The auto scaler section of [Find]. *)
Definition find_auto_scaler (group : Value) : option AutoScalerOpts :=
  match fld group "Integration" with
  | None | Some VNull => None
  | Some integ =>
      match fld integ "Kubernetes" with
      | None | Some VNull => None
      | Some k8s =>
          let clusterID := as_str (fld k8s "ClusterIdentifier") in
          match fld k8s "AutoScale" with
          | None | Some VNull =>
              Some {| as_Enabled := None; as_AutoConfig := None;
                      as_AutoHeadroomPercentage := None; as_ClusterID := clusterID;
                      as_Cooldown := None; as_Labels := None; as_Taints := None;
                      as_Headroom := None; as_Down := None; as_ResourceLimits := None |}
          | Some au =>
              Some {| as_Enabled := as_bool (fld au "IsEnabled");
                      as_AutoConfig := None;
                      as_AutoHeadroomPercentage := None;
                      as_ClusterID := clusterID;
                      as_Cooldown := as_int (fld au "Cooldown");
                      as_Labels :=
                        match fld au "Labels" with
                        | Some (VList l) => Some (map_of_kvs l)
                        | _ => None
                        end;
                      as_Taints := None;
                      as_Headroom :=
                        match fld au "Headroom" with
                        | None | Some VNull => None
                        | Some h =>
                            Some {| hr_CPUPerUnit := positive_only (as_int (fld h "CPUPerUnit"));
                                    hr_GPUPerUnit := positive_only (as_int (fld h "GPUPerUnit"));
                                    hr_MemPerUnit := positive_only (as_int (fld h "MemoryPerUnit"));
                                    hr_NumOfUnits := positive_only (as_int (fld h "NumOfUnits")) |}
                        end;
                      as_Down :=
                        match fld au "Down" with
                        | None | Some VNull => None
                        | Some d =>
                            Some {| down_MaxPercentage := as_float (fld d "MaxScaleDownPercentage");
                                    down_EvaluationPeriods := as_int (fld d "EvaluationPeriods") |}
                        end;
                      as_ResourceLimits := None |}
          end
      end
  end.

(** [Find]: the actual state of the group named [e.Name]. *)
Definition Find (rt : GoRuntime) (cloud : Cloud) (e : Elastigroup)
  : Result Elastigroup :=
  match Name e with
  | None => Error (ErrPanic "nil pointer dereference: e.Name")
  | Some name =>
  group <-? find cloud name ;;
  capacity <-? deref group "Capacity" ;;
  strategy <-? deref group "Strategy" ;;
  compute <-? deref group "Compute" ;;
  instanceTypes <-? deref compute "InstanceTypes" ;;
  (* Subnets. *)
  let subnets :=
    match list_fld compute "SubnetIDs" with
    | [] => None
    | ids => Some (map (fun v => {| subnet_Name := None;
                                    subnet_ID := Some (StringValue (as_str (Some v))) |}) ids)
    end in
  let subnets := if subnetSlicesEqualIgnoreOrder subnets (Subnets e)
                 then Subnets e else subnets in
  lc <-? deref compute "LaunchSpecification" ;;
  (* Image. *)
  let lcImage := as_str (fld lc "ImageID") in
  imageID <-?
    (match ImageID e, lcImage with
     | Some ei, Some ai =>
         if negb (String.eqb ai ei) then
           image <-? resolveImage cloud ei ;;
           Ok (if String.eqb (StringValue (img_ImageId image)) ai
               then ImageID e else lcImage)
         else Ok lcImage
     | _, _ => Ok lcImage
     end) ;;
  (* Root volume options. *)
  let root := root_opts_of_bdms (list_fld lc "BlockDeviceMappings") None in
  let root :=
    if BoolValue (as_bool (fld lc "EBSOptimized")) then
      let r := match root with Some r => r | None => rootVolumeOptsEmpty end in
      Some {| rv_Type := rv_Type r; rv_Size := rv_Size r; rv_IOPS := rv_IOPS r;
              rv_Throughput := rv_Throughput r;
              rv_Optimization := as_bool (fld lc "EBSOptimized") |}
    else root in
  (* User data. *)
  userData <-?
    (match as_str (fld lc "UserData") with
     | None => Ok ""
     | Some u => match rt_base64Decode rt u with
                 | Some d => Ok d
                 | None => Error (ErrProvider "illegal base64 data")
                 end
     end) ;;
  (* Load balancer. *)
  loadBalancer <-? find_load_balancer cloud e lc ;;
  Ok {| Name := as_str (fld group "Name");
        Lifecycle_ := Lifecycle_ e;      (* Avoid spurious changes *)
        ID := as_str (fld group "ID");
        Region := as_str (fld group "Region");
        MinSize := Some (IntValue (as_int (fld capacity "Minimum")));
        MaxSize := Some (IntValue (as_int (fld capacity "Maximum")));
        SpotPercentage := as_float (fld strategy "Risk");
        UtilizeReservedInstances := as_bool (fld strategy "UtilizeReservedInstances");
        FallbackToOnDemand := as_bool (fld strategy "FallbackToOnDemand");
        DrainingTimeout := as_int (fld strategy "DrainingTimeout");
        HealthCheckType := as_str (fld lc "HealthCheckType");
        Product := as_str (fld compute "Product");
        Orientation := as_str (fld strategy "AvailabilityVsCost");
        Tags := match list_fld lc "Tags" with
                | [] => None
                | ts => Some (map_of_kvs ts)
                end;
        UserData := Some (ResourceString userData);
        ImageID := imageID;
        OnDemandInstanceType := as_str (fld instanceTypes "OnDemand");
        SpotInstanceTypes := strs_of (fld instanceTypes "Spot");
        IAMInstanceProfile_ :=
          match fld lc "IAMInstanceProfile" with
          | None | Some VNull => None
          | Some p => Some {| iam_Name := as_str (fld p "Name") |}
          end;
        LoadBalancer := loadBalancer;
        SSHKey_ := match as_str (fld lc "KeyPair") with
                   | Some k => Some {| key_Name := Some k |}
                   | None => None
                   end;
        Subnets := subnets;
        SecurityGroups :=
          match list_fld lc "SecurityGroupIDs" with
          | [] => None
          | ids => Some (map (fun v => {| sg_Name := None;
                                          sg_ID := Some (StringValue (as_str (Some v))) |}) ids)
          end;
        Monitoring := as_bool (fld lc "Monitoring");
        AssociatePublicIP :=
          Some (existsb (fun i => BoolValue (as_bool (fld i "AssociatePublicIPAddress")))
                        (list_fld lc "NetworkInterfaces"));
        Tenancy := as_str (fld lc "Tenancy");
        RootVolumeOpts_ := root;
        AutoScalerOpts_ := find_auto_scaler group |}
  end.

Definition CheckExisting (cloud : Cloud) (e : Elastigroup) : Result bool :=
  match Name e with
  | None => Error (ErrPanic "nil pointer dereference: e.Name")
  | Some name => match find cloud name with Ok _ => Ok true | Error _ => Ok false end
  end.

(* ------------------------------------------------------------------ *)
(** ** Direct apply: [create] *)

(** [strings.Contains] *)
Definition Contains (s substr : string) : bool :=
  match String.index 0 substr s with Some _ => true | None => false end.

(** [sg.ID] and [subnet.ID] dereferenced into a [[]string]. *)
Fixpoint sg_ids (sgs : list SecurityGroup) : Result (list Value) :=
  match sgs with
  | [] => Ok []
  | sg :: sgs' =>
      match sg_ID sg with
      | None => Error (ErrPanic "nil pointer dereference: sg.ID")
      | Some id => rest <-? sg_ids sgs' ;; Ok (VStr id :: rest)
      end
  end.

Definition subnet_ids (subnets : option (list Subnet)) : Value :=
  VList (map (fun s => VStr (StringValue (subnet_ID s)))
             (match subnets with Some l => l | None => [] end)).

Definition LS (k : string) : list string := ["Compute"; "LaunchSpecification"; k].

(** The network interface the task attaches. *)
Definition eth0 (associatePublicIP : option bool) : Value :=
  lit [("Description", Some (VStr "eth0")); ("DeviceIndex", Some (VInt 0));
       ("DeleteOnTermination", Some (VBool true));
       ("AssociatePublicIPAddress", option_map VBool associatePublicIP)].

(** [cfg.SetLoadBalancers([]*aws.LoadBalancer{lb})] *)
Definition lbConfig (name : option string) (typ : string) : Value :=
  VObj [("LoadBalancers", VList [VObj [("Name", vstr name); ("Type", VStr typ)]])].

(** The block device mappings of the launch specification. *)
Definition block_device_mappings (cloud : Cloud) (opts : option RootVolumeOpts)
  (e : Elastigroup) : Result Value :=
  rootDevice <-? buildRootDevice cloud opts (ImageID e) ;;
  ephemeralDevices <-? buildEphemeralDevices cloud (OnDemandInstanceType e) ;;
  Ok (VList (map convertBlockDeviceMapping (rootDevice :: ephemeralDevices))).

(** The load balancer section of [create]. *)
Definition create_load_balancer (cloud : Cloud) (e : Elastigroup) (group : Value)
  : Result Value :=
  match LoadBalancer e with
  | None => Ok group
  | Some eLB =>
      elb <-? cloud_FindELBByNameTag cloud (StringValue (lb_Name eLB)) ;;
      let group :=
        match elb with
        | Some l => set_path (LS "LoadBalancersConfig")
                             (lbConfig (lbd_LoadBalancerName l) "CLASSIC") group
        | None => group
        end in
      nlb <-? cloud_FindELBV2ByNameTag cloud (StringValue (lb_Name eLB)) ;;
      match elb, nlb with
      | Some _, Some _ => Error (ErrMsg "found both elb and nlb:")
      | _, Some n => Ok (set_path (LS "LoadBalancersConfig")
                                  (lbConfig (lbd_LoadBalancerName n) "NETWORK") group)
      | _, None => Ok group
      end
  end.

(** The auto scaler section of [create]. *)
Definition create_integration (ord : MapOrder) (opts : AutoScalerOpts) : Value :=
  let k8s := VObj [("IntegrationMode", VStr "pod");
                   ("ClusterIdentifier", vstr (as_ClusterID opts))] in
  let k8s :=
    match as_Enabled opts with
    | None => k8s
    | Some _ =>
        let autoConfig := match as_Headroom opts with
                          | Some _ => false | None => true end in
        let autoScaler := lit
          [("IsEnabled", option_map VBool (as_Enabled opts));
           ("IsAutoConfig", Some (VBool autoConfig));
           ("Cooldown", option_map VInt (as_Cooldown opts));
           ("Headroom",
              option_map (fun h => lit
                [("CPUPerUnit", option_map VInt (hr_CPUPerUnit h));
                 ("GPUPerUnit", option_map VInt (hr_GPUPerUnit h));
                 ("MemoryPerUnit", option_map VInt (hr_MemPerUnit h));
                 ("NumOfUnits", option_map VInt (hr_NumOfUnits h))]) (as_Headroom opts));
           ("Down",
              option_map (fun d => lit
                [("MaxScaleDownPercentage", option_map VFloat (down_MaxPercentage d));
                 ("EvaluationPeriods", option_map VInt (down_EvaluationPeriods d))])
                (as_Down opts));
           ("Labels",
              option_map (fun _ => VList (map kvValue (buildAutoScaleLabels ord (as_Labels opts))))
                (as_Labels opts))] in
        set_path ["AutoScale"] autoScaler k8s
    end in
  VObj [("Kubernetes", k8s)].

(** The sections of [create], each filling in part of the group. *)
Definition create_general (e : Elastigroup) (group : Value) : Result Value :=
  let group := set_path ["Name"] (vstr (Name e)) group in
  let group := set_path ["Description"] (vstr (Name e)) group in
  Ok (set_path ["Region"] (vstr (Region e)) group).

Definition create_capacity (e : Elastigroup) (group : Value) : Result Value :=
  minSize <-? (match MinSize e with
               | Some m => Ok m
               | None => Error (ErrPanic "nil pointer dereference: e.MinSize") end) ;;
  let group := set_path ["Capacity"; "Target"] (VInt minSize) group in
  let group := set_path ["Capacity"; "Minimum"] (VInt minSize) group in
  maxSize <-? (match MaxSize e with
               | Some m => Ok m
               | None => Error (ErrPanic "nil pointer dereference: e.MaxSize") end) ;;
  Ok (set_path ["Capacity"; "Maximum"] (VInt maxSize) group).

Definition create_strategy (e : Elastigroup) (group : Value) : Result Value :=
  let group := set_path ["Strategy"; "Risk"] (vfloat (SpotPercentage e)) group in
  let group := set_path ["Strategy"; "AvailabilityVsCost"]
                        (VStr (normalizeOrientation (Orientation e))) group in
  let group := set_path ["Strategy"; "FallbackToOnDemand"] (vbool (FallbackToOnDemand e)) group in
  let group := set_path ["Strategy"; "UtilizeReservedInstances"]
                        (vbool (UtilizeReservedInstances e)) group in
  Ok (match DrainingTimeout e with
      | Some d => set_path ["Strategy"; "DrainingTimeout"] (VInt d) group
      | None => group end).

Definition create_compute (e : Elastigroup) (group : Value) : Result Value :=
  let group := set_path ["Compute"; "Product"] (vstr (Product e)) group in
  let group := set_path ["Compute"; "InstanceTypes"; "OnDemand"]
                        (vstr (OnDemandInstanceType e)) group in
  let group := set_path ["Compute"; "InstanceTypes"; "Spot"] (vstrs (SpotInstanceTypes e)) group in
  Ok (set_path ["Compute"; "SubnetIDs"] (subnet_ids (Subnets e)) group).

Definition create_launch_spec (e : Elastigroup) (group : Value) : Result Value :=
  let group := set_path (LS "Monitoring") (vbool (Monitoring e)) group in
  keyName <-? (match SSHKey_ e with
               | Some k => Ok (key_Name k)
               | None => Error (ErrPanic "nil pointer dereference: e.SSHKey") end) ;;
  let group := set_path (LS "KeyPair") (vstr keyName) group in
  Ok (match Tenancy e with
      | Some t => set_path (LS "Tenancy") (VStr t) group
      | None => group end).

Definition create_block_devices (cloud : Cloud) (e : Elastigroup) (group : Value)
  : Result Value :=
  mappings <-? block_device_mappings cloud (RootVolumeOpts_ e) e ;;
  Ok (set_path (LS "BlockDeviceMappings") mappings group).

Definition create_image (cloud : Cloud) (e : Elastigroup) (group : Value) : Result Value :=
  image <-? resolveImage cloud (StringValue (ImageID e)) ;;
  Ok (set_path (LS "ImageID") (vstr (img_ImageId image)) group).

Definition create_user_data (rt : GoRuntime) (e : Elastigroup) (group : Value)
  : Result Value :=
  match UserData e with
  | None => Ok group
  | Some r =>
      userData <-? ResourceAsString r ;;
      Ok (if (0 <? String.length userData)%nat
          then set_path (LS "UserData") (VStr (rt_base64Encode rt userData)) group
          else group)
  end.

Definition create_iam (e : Elastigroup) (group : Value) : Result Value :=
  Ok (match IAMInstanceProfile_ e with
      | Some p => set_path (LS "IAMInstanceProfile") (VObj [("Name", vstr (iam_Name p))]) group
      | None => group end).

Definition create_security_groups (e : Elastigroup) (group : Value) : Result Value :=
  match SecurityGroups e with
  | None => Ok group
  | Some sgs => ids <-? sg_ids sgs ;;
                Ok (set_path (LS "SecurityGroupIDs") (VList ids) group)
  end.

Definition create_public_ip (e : Elastigroup) (group : Value) : Result Value :=
  Ok (match AssociatePublicIP e with
      | Some _ => set_path (LS "NetworkInterfaces") (VList [eth0 (AssociatePublicIP e)]) group
      | None => group end).

Definition create_tags (rt : GoRuntime) (e : Elastigroup) (group : Value) : Result Value :=
  Ok (match Tags e with
      | Some _ => set_path (LS "Tags") (VList (map kvValue (buildTags (rt_order rt) e))) group
      | None => group end).

Definition create_health_check (e : Elastigroup) (group : Value) : Result Value :=
  Ok (match HealthCheckType e with
      | Some h => set_path (LS "HealthCheckType") (VStr h) group
      | None => group end).

Definition create_auto_scaler (rt : GoRuntime) (e : Elastigroup) (group : Value)
  : Result Value :=
  Ok (match AutoScalerOpts_ e with
      | Some opts => set_path ["Integration"] (create_integration (rt_order rt) opts) group
      | None => group end).

(** The group [create] submits, built from the task after [applyDefaults]. *)
Definition create_group (rt : GoRuntime) (cloud : Cloud) (e : Elastigroup)
  : Result Value :=
  let group := VObj [("Capacity", emptyObj); ("Strategy", emptyObj);
                     ("Compute", VObj [("LaunchSpecification", emptyObj);
                                       ("InstanceTypes", emptyObj)])] in
  group <-? create_general e group ;;
  group <-? create_capacity e group ;;
  group <-? create_strategy e group ;;
  group <-? create_compute e group ;;
  (* Launch specification. *)
  group <-? create_launch_spec e group ;;
  group <-? create_block_devices cloud e group ;;
  group <-? create_image cloud e group ;;
  group <-? create_user_data rt e group ;;
  group <-? create_iam e group ;;
  group <-? create_security_groups e group ;;
  group <-? create_public_ip e group ;;
  group <-? create_load_balancer cloud e group ;;
  group <-? create_tags rt e group ;;
  group <-? create_health_check e group ;;
  create_auto_scaler rt e group.

(** The transient error of a not yet propagated instance profile. *)
Definition transientIAMMessage : string := "Invalid IAM Instance Profile name".

(** What the loop does observably: the sleeps and the [Create] calls. *)
Inductive Event : Type :=
  | Sleep (seconds : nat)
  | CreateCall (attempt : nat).

(** How the [readyLoop] ends: returning (an id or an error), or still
    looping when the fuel runs out (no return within that many
    iterations). *)
Inductive LoopOutcome : Type :=
  | Returned (r : Result string)
  | StillLooping.

(** [readyLoop] of [create]: [attempt] is the value of the counter before the
    iteration; [fuel] bounds the number of iterations modelled. *)
Fixpoint readyLoop (cloud : Cloud) (e : Elastigroup) (group : Value)
  (maxAttempts : nat) (fuel attempt : nat) : LoopOutcome * list Event :=
  match fuel with
  | O => (StillLooping, [])
  | S fuel' =>
      let attempt := S attempt in
      (* Wait for IAM instance profile to be ready. *)
      let ev := [Sleep 10] in
      match cloud_NewElastigroup cloud group with
      | Error err => (Returned (Error err), ev)
      | Ok eg =>
          let ev := app ev [CreateCall attempt] in
          match cloud_Create cloud attempt with
          | CreateOk id => (Returned (Ok id), ev)
          | CreateClientErrors msgs =>
              match List.find (fun m => Contains m transientIAMMessage) msgs with
              | Some m =>
                  if (maxAttempts <? attempt)%nat then
                    (Returned (Error (ErrWrap "IAM instance profile not yet created/propagated"
                                              (ErrProvider m))), ev)
                  else
                    match IAMInstanceProfile_ e with
                    | None => (Returned (Error (ErrPanic "nil pointer dereference: e.IAMInstanceProfile")), ev)
                    | Some _ =>
                        (* goto readyLoop *)
                        let '(out, ev') := readyLoop cloud e group maxAttempts fuel' attempt in
                        (out, app ev ev')
                    end
              | None =>
                  (Returned (Error (ErrWrap "spotinst: failed to create elastigroup"
                                            (ErrProvider (String.concat "; " msgs)))), ev)
              end
          | CreateOtherError _ =>
              (* not a client.Errors: the for loop goes round again *)
              let '(out, ev') := readyLoop cloud e group maxAttempts fuel' attempt in
              (out, app ev ev')
          end
      end
  end.

Definition maxAttempts : nat := 10.

(** [create]: the task after it (its [ID] set on success), how the loop
    ended and its events.  [fuel] bounds the loop iterations modelled. *)
Definition create (rt : GoRuntime) (cloud : Cloud) (fuel : nat)
  (a : option Elastigroup) (e : Elastigroup) (changes : option Elastigroup)
  : Elastigroup * LoopOutcome * list Event :=
  match Name e with
  | None => (e, Returned (Error (ErrPanic "nil pointer dereference: e.Name")), [])
  | Some _ =>
      let e := applyDefaults e in
      match create_group rt cloud e with
      | Error err => (e, Returned (Error err), [])
      | Ok group =>
          let '(out, ev) := readyLoop cloud e group maxAttempts fuel 0 in
          let e := match out with
                   | Returned (Ok id) =>
                       {| Name := Name e; Lifecycle_ := Lifecycle_ e; ID := Some id;
                          Region := Region e; MinSize := MinSize e; MaxSize := MaxSize e;
                          SpotPercentage := SpotPercentage e;
                          UtilizeReservedInstances := UtilizeReservedInstances e;
                          FallbackToOnDemand := FallbackToOnDemand e;
                          DrainingTimeout := DrainingTimeout e;
                          HealthCheckType := HealthCheckType e; Product := Product e;
                          Orientation := Orientation e; Tags := Tags e;
                          UserData := UserData e; ImageID := ImageID e;
                          OnDemandInstanceType := OnDemandInstanceType e;
                          SpotInstanceTypes := SpotInstanceTypes e;
                          IAMInstanceProfile_ := IAMInstanceProfile_ e;
                          LoadBalancer := LoadBalancer e; SSHKey_ := SSHKey_ e;
                          Subnets := Subnets e; SecurityGroups := SecurityGroups e;
                          Monitoring := Monitoring e;
                          AssociatePublicIP := AssociatePublicIP e; Tenancy := Tenancy e;
                          RootVolumeOpts_ := RootVolumeOpts_ e;
                          AutoScalerOpts_ := AutoScalerOpts_ e |}
                   | _ => e
                   end in
          (e, out, ev)
      end
  end.

(* ------------------------------------------------------------------ *)
(** ** Direct apply: [update]

    [update] threads the group it builds, the [changes] value it clears
    field by field ([changes.X = nil]) and the [changed] flag; it ends with
    the coverage warning and, when something changed, the provider's
    [Update] call.  The state keeps the cleared fields of [changes] (the
    current value of [changes] is the initial one with those fields nil),
    the warnings logged and the [Update] calls made. *)

Record UpdState := {
  us_group : Value;
  us_cleared : list field;
  us_changed : bool;
  us_warnings : list (list field);
  us_updates : list Value }.

Definition M (A : Type) := UpdState -> Result A * UpdState.

Definition ret {A} (a : A) : M A := fun s => (Ok a, s).

Definition bind {A B} (m : M A) (k : A -> M B) : M B :=
  fun s => match m s with
           | (Ok a, s') => k a s'
           | (Error err, s') => (Error err, s')
           end.

Notation "x <- m ;; k" := (bind m (fun x => k))
  (at level 61, m at next level, right associativity).
Notation "m ;; k" := (bind m (fun _ => k))
  (at level 61, right associativity).

Definition raise {A} (err : GoError) : M A := fun s => (Error err, s).

Definition lift {A} (r : Result A) : M A :=
  fun s => match r with Ok a => (Ok a, s) | Error err => (Error err, s) end.

Definition deref_opt {A} (o : option A) (what : string) : M A :=
  match o with
  | Some a => ret a
  | None => raise (ErrPanic ("nil pointer dereference: " ++ what))
  end.

(** [group.P = v] *)
Definition set (p : list string) (v : Value) : M unit :=
  fun s => (Ok tt, {| us_group := set_path p v (us_group s); us_cleared := us_cleared s;
                      us_changed := us_changed s; us_warnings := us_warnings s;
                      us_updates := us_updates s |}).

(** [changes.F = nil] *)
Definition clear (f : field) : M unit :=
  fun s => (Ok tt, {| us_group := us_group s; us_cleared := f :: us_cleared s;
                      us_changed := us_changed s; us_warnings := us_warnings s;
                      us_updates := us_updates s |}).

(** [changed = true] *)
Definition mark_changed : M unit :=
  fun s => (Ok tt, {| us_group := us_group s; us_cleared := us_cleared s;
                      us_changed := true; us_warnings := us_warnings s;
                      us_updates := us_updates s |}).

Definition get_state : M UpdState := fun s => (Ok s, s).

Definition warn (fs : list field) : M unit :=
  fun s => (Ok tt, {| us_group := us_group s; us_cleared := us_cleared s;
                      us_changed := us_changed s;
                      us_warnings := us_warnings s ++ [fs];
                      us_updates := us_updates s |}).

Definition record_update (g : Value) : M unit :=
  fun s => (Ok tt, {| us_group := us_group s; us_cleared := us_cleared s;
                      us_changed := us_changed s; us_warnings := us_warnings s;
                      us_updates := us_updates s ++ [g] |}).

Definition when (b : bool) (m : M unit) : M unit := if b then m else ret tt.

(** The fields still populated in [changes]: populated initially and not
    cleared since. *)
Definition residual (changes : Elastigroup) (cleared : list field) : list field :=
  filter (fun f => populated changes f && negb (existsb (field_eqb f) cleared)) all_fields.

(** [group.Compute.LaunchSpecification.K = v; changed = true; changes.F = nil] *)
Definition set_ls (f : field) (k : string) (v : Value) : M unit :=
  set (LS k) v ;; clear f ;; mark_changed.

(** The load balancer section of [update]: the classic load balancer is
    looked up first, the network one only when there is none. *)
Definition update_load_balancer (cloud : Cloud) (e : Elastigroup) : M unit :=
  eLB <- deref_opt (LoadBalancer e) "e.LoadBalancer" ;;
  let lbName := StringValue (lb_Name eLB) in
  elb <- lift (match cloud_FindELBByNameTag cloud lbName with
               | Error err => Error (ErrWrap "spotinst: error looking for aws/elb" err)
               | Ok r => Ok r end) ;;
  found <- (match elb with
            | Some l => ret (Some (lbd_LoadBalancerName l, "CLASSIC"))
            | None =>
                nlb <- lift (match cloud_FindELBV2ByNameTag cloud lbName with
                             | Error err => Error (ErrWrap "spotinst: error looking for aws/nlb" err)
                             | Ok r => Ok r end) ;;
                ret (option_map (fun n => (lbd_LoadBalancerName n, "NETWORK")) nlb)
            end) ;;
  match found with
  | Some (name, typ) => set_ls FLoadBalancer "LoadBalancersConfig" (lbConfig name typ)
  | None => ret tt
  end.

(** The auto scaler section of [update]; [opts] is [changes.AutoScalerOpts]. *)
Definition update_auto_scaler (ord : MapOrder) (a e : Elastigroup)
  (opts : AutoScalerOpts) : M unit :=
  when (is_set (as_Enabled opts))
    (eOpts <- deref_opt (AutoScalerOpts_ e) "e.AutoScalerOpts" ;;
     (* Headroom. *)
     headroom <- (match as_Headroom opts with
                  | Some _ =>
                      h <- deref_opt (as_Headroom eOpts) "e.AutoScalerOpts.Headroom" ;;
                      ret [("IsAutoConfig", Some (VBool false));
                           ("Headroom", Some (lit
                              [("CPUPerUnit", option_map VInt (hr_CPUPerUnit h));
                               ("GPUPerUnit", option_map VInt (hr_GPUPerUnit h));
                               ("MemoryPerUnit", option_map VInt (hr_MemPerUnit h));
                               ("NumOfUnits", option_map VInt (hr_NumOfUnits h))]))]
                  | None =>
                      match AutoScalerOpts_ a with
                      | Some aOpts =>
                          if is_set (as_Headroom aOpts)
                          then ret [("IsAutoConfig", Some (VBool true)); ("Headroom", Some VNull)]
                          else ret []
                      | None => ret []
                      end
                  end) ;;
     (* Scale down. *)
     down <- (match as_Down opts with
              | Some d =>
                  ret [("Down", Some (lit
                         [("MaxScaleDownPercentage", option_map VFloat (down_MaxPercentage d));
                          ("EvaluationPeriods", option_map VInt (down_EvaluationPeriods d))]))]
              | None =>
                  aOpts <- deref_opt (AutoScalerOpts_ a) "a.AutoScalerOpts" ;;
                  ret (if is_set (as_Down aOpts) then [("Down", Some VNull)] else [])
              end) ;;
     (* Labels. *)
     labels <- (match as_Labels opts with
                | Some _ =>
                    ret [("Labels", Some (VList (map kvValue
                                     (buildAutoScaleLabels ord (as_Labels eOpts)))))]
                | None =>
                    aOpts <- deref_opt (AutoScalerOpts_ a) "a.AutoScalerOpts" ;;
                    ret (if is_set (as_Labels aOpts) then [("Labels", Some VNull)] else [])
                end) ;;
     let autoScaler := lit ([("IsEnabled", option_map VBool (as_Enabled eOpts));
                             ("Cooldown", option_map VInt (as_Cooldown eOpts))]
                            ++ headroom ++ down ++ labels) in
     set ["Integration"] (VObj [("Kubernetes", VObj [("AutoScale", autoScaler)])]) ;;
     mark_changed).

(** The blocks of [update], in the order of the code. *)
Definition update_region (e changes : Elastigroup) : M unit :=
  when (is_set (Region changes))
    (set ["Region"] (vstr (Region e)) ;; clear FRegion ;; mark_changed).

Definition update_strategy (e changes : Elastigroup) : M unit :=
  when (is_set (SpotPercentage changes))
    (set ["Strategy"; "Risk"] (vfloat (SpotPercentage e)) ;;
     clear FSpotPercentage ;; mark_changed) ;;
  when (is_set (Orientation changes))
    (set ["Strategy"; "AvailabilityVsCost"] (VStr (normalizeOrientation (Orientation e))) ;;
     clear FOrientation ;; mark_changed) ;;
  when (is_set (FallbackToOnDemand changes))
    (set ["Strategy"; "FallbackToOnDemand"] (vbool (FallbackToOnDemand e)) ;;
     clear FFallbackToOnDemand ;; mark_changed) ;;
  when (is_set (UtilizeReservedInstances changes))
    (set ["Strategy"; "UtilizeReservedInstances"] (vbool (UtilizeReservedInstances e)) ;;
     clear FUtilizeReservedInstances ;; mark_changed) ;;
  when (is_set (DrainingTimeout changes))
    (d <- deref_opt (DrainingTimeout e) "e.DrainingTimeout" ;;
     set ["Strategy"; "DrainingTimeout"] (VInt d) ;;
     clear FDrainingTimeout ;; mark_changed).

Definition update_compute (e changes : Elastigroup) : M unit :=
  when (is_set (Product changes))
    (set ["Compute"; "Product"] (vstr (Product e)) ;; clear FProduct ;; mark_changed) ;;
  when (is_set (OnDemandInstanceType changes))
    (set ["Compute"; "InstanceTypes"; "OnDemand"] (vstr (OnDemandInstanceType e)) ;;
     clear FOnDemandInstanceType ;; mark_changed) ;;
  when (is_set (SpotInstanceTypes changes))
    (set ["Compute"; "InstanceTypes"; "Spot"]
         (VList (map VStr (match SpotInstanceTypes e with Some l => l | None => [] end))) ;;
     clear FSpotInstanceTypes ;; mark_changed) ;;
  when (is_set (Subnets changes))
    (set ["Compute"; "SubnetIDs"] (subnet_ids (Subnets e)) ;;
     clear FSubnets ;; mark_changed).

Definition update_launch_spec (rt : GoRuntime) (cloud : Cloud) (e changes : Elastigroup)
  (actual : Value) : M unit :=
  when (is_set (SecurityGroups changes))
    (ids <- lift (sg_ids (match SecurityGroups e with Some l => l | None => [] end)) ;;
     set_ls FSecurityGroups "SecurityGroupIDs" (VList ids)) ;;
  when (is_set (UserData changes))
    (r <- deref_opt (UserData e) "e.UserData" ;;
     userData <- lift (ResourceAsString r) ;;
     when (0 <? String.length userData)%nat
       (set (LS "UserData") (VStr (rt_base64Encode rt userData)) ;; mark_changed) ;;
     clear FUserData) ;;
  when (is_set (AssociatePublicIP changes))
    (set_ls FAssociatePublicIP "NetworkInterfaces"
            (VList [eth0 (AssociatePublicIP changes)])) ;;
  (match RootVolumeOpts_ changes with
   | None => ret tt
   | Some opts =>
       (* Block device mappings. *)
       when (is_set (rv_Type opts) || is_set (rv_Size opts) || is_set (rv_IOPS opts))
         (mappings <- lift (block_device_mappings cloud (Some opts) e) ;;
          set (LS "BlockDeviceMappings") mappings ;; mark_changed) ;;
       (* EBS optimization. *)
       when (is_set (rv_Optimization opts))
         (eOpts <- deref_opt (RootVolumeOpts_ e) "e.RootVolumeOpts" ;;
          set (LS "EBSOptimized") (vbool (rv_Optimization eOpts)) ;; mark_changed) ;;
       clear FRootVolumeOpts
   end) ;;
  when (is_set (ImageID changes))
    (image <- lift (resolveImage cloud (StringValue (ImageID e))) ;;
     lsImage <- lift (l <-? deref actual "Compute" ;;
                      ls <-? deref l "LaunchSpecification" ;;
                      match as_str (fld ls "ImageID") with
                      | Some i => Ok i
                      | None => Error (ErrPanic "nil pointer dereference: ImageID")
                      end) ;;
     imageId <- deref_opt (img_ImageId image) "image.ImageId" ;;
     when (negb (String.eqb lsImage imageId))
       (set (LS "ImageID") (vstr (img_ImageId image)) ;; mark_changed) ;;
     clear FImageID) ;;
  when (is_set (Tags changes))
    (set_ls FTags "Tags" (VList (map kvValue (buildTags (rt_order rt) e)))) ;;
  when (is_set (IAMInstanceProfile_ changes))
    (p <- deref_opt (IAMInstanceProfile_ e) "e.IAMInstanceProfile" ;;
     set_ls FIAMInstanceProfile "IAMInstanceProfile" (VObj [("Name", vstr (iam_Name p))])) ;;
  when (is_set (Monitoring changes))
    (set_ls FMonitoring "Monitoring" (vbool (Monitoring e))) ;;
  when (is_set (SSHKey_ changes))
    (k <- deref_opt (SSHKey_ e) "e.SSHKey" ;;
     set_ls FSSHKey "KeyPair" (vstr (key_Name k))) ;;
  when (is_set (LoadBalancer changes)) (update_load_balancer cloud e) ;;
  when (is_set (Tenancy changes))
    (set_ls FTenancy "Tenancy" (vstr (Tenancy e))) ;;
  when (is_set (HealthCheckType changes))
    (set_ls FHealthCheckType "HealthCheckType" (vstr (HealthCheckType e))).

Definition update_capacity (e changes : Elastigroup) (actual : Value) : M unit :=
  when (is_set (MinSize changes))
    (m <- deref_opt (MinSize e) "e.MinSize" ;;
     set ["Capacity"; "Minimum"] (VInt m) ;;
     clear FMinSize ;; mark_changed ;;
     (* Scale up the target capacity, if needed. *)
     target <- lift (c <-? deref actual "Capacity" ;;
                     match as_int (fld c "Target") with
                     | Some t => Ok t
                     | None => Error (ErrPanic "nil pointer dereference: Capacity.Target")
                     end) ;;
     when (target <? m)%Z (set ["Capacity"; "Target"] (VInt m))) ;;
  when (is_set (MaxSize changes))
    (m <- deref_opt (MaxSize e) "e.MaxSize" ;;
     set ["Capacity"; "Maximum"] (VInt m) ;;
     clear FMaxSize ;; mark_changed).

Definition update_auto_scaler_block (rt : GoRuntime) (a e changes : Elastigroup) : M unit :=
  match AutoScalerOpts_ changes with
  | None => ret tt
  | Some opts => update_auto_scaler (rt_order rt) a e opts ;; clear FAutoScalerOpts
  end.

(** [update]: the body, up to the coverage warning and the [Update] call. *)
Definition update_body (rt : GoRuntime) (cloud : Cloud) (a e changes : Elastigroup)
  (actual : Value) : M unit :=
  (* Region. *)
  update_region e changes ;;
  (* Strategy. *)
  update_strategy e changes ;;
  (* Compute. *)
  update_compute e changes ;;
  (* Launch specification. *)
  update_launch_spec rt cloud e changes actual ;;
  (* Capacity. *)
  update_capacity e changes actual ;;
  (* Auto Scaler. *)
  update_auto_scaler_block rt a e changes.

(** The end of [update]: the coverage warning, then the [Update] call when
    something changed. *)
Definition update_finish (cloud : Cloud) (changes : Elastigroup)
  (groupID : option string) : M unit :=
  s <- get_state ;;
  let left := residual changes (us_cleared s) in
  (match left with
   | [] => ret tt
   | _ => _ <- deref_opt groupID "group.ID" ;; warn left
   end) ;;
  _ <- deref_opt groupID "group.ID" ;;
  if negb (us_changed s) then ret tt
  else
    eg <- lift (cloud_NewElastigroup cloud (us_group s)) ;;
    record_update eg ;;
    match cloud_Update cloud eg with
    | Some err => raise (ErrWrap "spotinst: failed to update elastigroup" (ErrProvider err))
    | None => ret tt
    end.

(** [update]: re-finds the group, renders [changes], warns about the fields
    left in [changes], and calls the provider's [Update] when something
    changed. *)
Definition update_m (rt : GoRuntime) (cloud : Cloud) (a e changes : Elastigroup) : M unit :=
  name <- deref_opt (Name e) "e.Name" ;;
  actual <- lift (find cloud name) ;;
  let groupID := as_str (fld actual "ID") in
  set ["ID"] (vstr groupID) ;;
  update_body rt cloud a e changes actual ;;
  update_finish cloud changes groupID.

Definition initUpdState : UpdState :=
  {| us_group := emptyObj; us_cleared := []; us_changed := false;
     us_warnings := []; us_updates := [] |}.

Definition update (rt : GoRuntime) (cloud : Cloud) (a e changes : Elastigroup)
  : Result unit * UpdState :=
  update_m rt cloud a e changes initUpdState.

(** [createOrUpdate]: no actual group means create. *)
Inductive RenderPath := PathCreate | PathUpdate.

Definition createOrUpdate_path (a : option Elastigroup) : RenderPath :=
  match a with None => PathCreate | Some _ => PathUpdate end.

(* ------------------------------------------------------------------ *)
(** ** Declarative emission: [RenderTerraform] *)

(** Modelled from the spec: the [TerraformLink] of a referenced task (in
    the aws tasks package, not among the sources), a deferred token
    [<resource-kind>.<task-name>.<attribute>]. *)
Definition LiteralProperty (kind name attr : string) : Value :=
  VStr (kind ++ "." ++ name ++ "." ++ attr).

Definition sgLink (sg : SecurityGroup) : Value :=
  LiteralProperty "aws_security_group" (StringValue (sg_Name sg)) "id".
Definition subnetLink (s : Subnet) : Value :=
  LiteralProperty "aws_subnet" (StringValue (subnet_Name s)) "id".
Definition iamLink (p : IAMInstanceProfile) : Value :=
  LiteralProperty "aws_iam_instance_profile" (StringValue (iam_Name p)) "id".
Definition keyLink (k : SSHKey) : Value :=
  LiteralProperty "aws_key_pair" (StringValue (key_Name k)) "id".
Definition lbLink (l : ClassicLoadBalancer) : Value :=
  LiteralProperty "aws_elb" (StringValue (lb_Name l)) "id".

(** Modelled from the spec: [t.AddFileResource] stores the user data as a
    file of the emitted configuration and returns a token referring to it. *)
Definition AddFileResource (kind name key : string) : Value :=
  VStr ("file(data/" ++ kind ++ "_" ++ name ++ "_" ++ key ++ ")").

(** [awstasks.CloudTagInstanceGroupRolePrefix] *)
Definition CloudTagInstanceGroupRolePrefix : string := "k8s.io/role/".

(** [strings.HasPrefix], [strings.TrimPrefix] *)
Definition HasPrefix (s prefix : string) : bool := String.prefix prefix s.
Definition TrimPrefix (s prefix : string) : string :=
  if HasPrefix s prefix then String.substring (String.length prefix)
                                              (String.length s - String.length prefix) s
  else s.

(** The role loop of [RenderTerraform], over the tags in iteration order. *)
Fixpoint role_of_tags (keys : list (string * string)) (role : string) : Result string :=
  match keys with
  | [] => Ok role
  | (key, _) :: rest =>
      if HasPrefix key CloudTagInstanceGroupRolePrefix then
        let suffix := TrimPrefix key CloudTagInstanceGroupRolePrefix in
        if negb (String.eqb role "") && negb (String.eqb role suffix)
        then Error (ErrMsg ("spotinst: found multiple role tags " ++ role ++ " vs " ++ suffix))
        else role_of_tags rest suffix
      else role_of_tags rest role
  end.

(** Output variables, as [t.AddOutputVariableArray] appends them. *)
Definition Outputs := list (string * Value).

Definition role_outputs (role suffix : string) (links : list Value) : Outputs :=
  if String.eqb role "" then [] else map (fun l => (role ++ suffix, l)) links.

Definition tfKV (kv : string * string) : Value :=
  VObj [("key", VStr (fst kv)); ("value", VStr (snd kv))].

(** A slice field tagged [omitempty]: dropped when empty. *)
Definition slice (l : list Value) : option Value :=
  match l with [] => None | _ => Some (VList l) end.

(** The [integration_kubernetes] block. *)
Definition tf_integration (ord : MapOrder) (opts : AutoScalerOpts) : Value :=
  let enabled := is_set (as_Enabled opts) in
  lit [("integration_mode", Some (VStr "pod"));
       ("cluster_identifier", option_map VStr (as_ClusterID opts));
       ("autoscale_is_enabled", if enabled then option_map VBool (as_Enabled opts) else None);
       ("autoscale_is_auto_config",
          if enabled then Some (VBool (negb (is_set (as_Headroom opts)))) else None);
       ("autoscale_cooldown", if enabled then option_map VInt (as_Cooldown opts) else None);
       ("autoscale_headroom",
          if enabled then
            option_map (fun h => lit
              [("cpu_per_unit", option_map VInt (hr_CPUPerUnit h));
               ("gpu_per_unit", option_map VInt (hr_GPUPerUnit h));
               ("memory_per_unit", option_map VInt (hr_MemPerUnit h));
               ("num_of_units", option_map VInt (hr_NumOfUnits h))]) (as_Headroom opts)
          else None);
       ("autoscale_down",
          if enabled then
            option_map (fun d => lit
              [("max_scale_down_percentage", option_map VFloat (down_MaxPercentage d));
               ("evaluation_periods", option_map VInt (down_EvaluationPeriods d))])
              (as_Down opts)
          else None);
       ("autoscale_labels",
          if enabled then
            match as_Labels opts with
            | Some _ => slice (map tfKV (range_map ord RangeTerraformLabels (as_Labels opts)))
            | None => None
            end
          else None)].

(** [RenderTerraform]: the [terraformElastigroup] value handed to
    [t.RenderResource], and the output variables added on the way. *)
Definition RenderTerraform (rt : GoRuntime) (cloud : Cloud) (e : Elastigroup)
  : Result (Value * Outputs) :=
  let ord := rt_order rt in
  let e := applyDefaults e in
  imageID <-? (match ImageID e with
               | Some i => image <-? resolveImage cloud i ;; Ok (img_ImageId image)
               | None => Ok None
               end) ;;
  role <-? role_of_tags (range_map ord RangeRoleTags (Tags e)) "" ;;
  let sgs := match SecurityGroups e with Some l => l | None => [] end in
  let subnets := match Subnets e with Some l => l | None => [] end in
  let eName := match Name e with
               | Some n => Ok n
               | None => Error (ErrPanic "nil pointer dereference: e.Name") end in
  userData <-? (match UserData e with
                | Some _ => name <-? eName ;;
                            Ok (Some (AddFileResource "spotinst_elastigroup_aws" name "user_data"))
                | None => Ok None
                end) ;;
  rootDevices <-?
    (match RootVolumeOpts_ e with
     | None => Ok (None, [])
     | Some opts =>
         rootDevice <-? buildRootDevice cloud (RootVolumeOpts_ e) (ImageID e) ;;
         ephemeralDevices <-? buildEphemeralDevices cloud (OnDemandInstanceType e) ;;
         Ok (Some (lit [("device_name", option_map VStr (bdm_DeviceName rootDevice));
                        ("volume_type", option_map VStr (bdm_EbsVolumeType rootDevice));
                        ("volume_size", option_map VInt (bdm_EbsVolumeSize rootDevice));
                        ("iops", option_map VInt (bdm_EbsVolumeIops rootDevice));
                        ("throughput", option_map VInt (bdm_EbsVolumeThroughput rootDevice));
                        ("delete_on_termination", Some (VBool true))]),
             map (fun b => lit [("device_name", option_map VStr (bdm_DeviceName b));
                                ("virtual_name", option_map VStr (bdm_VirtualName b))])
                 ephemeralDevices)
     end) ;;
  let '(rootBlockDevice, ephemeral) := rootDevices in
  let tf := lit
    [("name", option_map VStr (Name e));
     ("description", option_map VStr (Name e));
     ("product", option_map VStr (Product e));
     ("region", option_map VStr (Region e));
     ("subnet_ids", slice (map subnetLink subnets));
     ("elastic_load_balancers", option_map (fun l => VList [lbLink l]) (LoadBalancer e));
     ("network_interface", option_map (fun _ => VList [lit
         [("description", Some (VStr "eth0")); ("device_index", Some (VInt 0));
          ("associate_public_ip_address", option_map VBool (AssociatePublicIP e));
          ("delete_on_termination", Some (VBool true))]]) (AssociatePublicIP e));
     ("ebs_block_device", rootBlockDevice);
     ("ephemeral_block_device", slice ephemeral);
     ("integration_kubernetes", option_map (tf_integration ord) (AutoScalerOpts_ e));
     ("tags", match Tags e with
              | Some _ => slice (map tfKV (buildTags ord e))
              | None => None end);
     ("min_size", option_map VInt (MinSize e));
     ("max_size", option_map VInt (MaxSize e));
     ("desired_capacity", option_map VInt (MinSize e));
     ("capacity_unit", Some (VStr "instance"));
     ("spot_percentage", option_map VFloat (SpotPercentage e));
     ("orientation", Some (VStr (normalizeOrientation (Orientation e))));
     ("fallback_to_ondemand", option_map VBool (FallbackToOnDemand e));
     ("utilize_reserved_instances", option_map VBool (UtilizeReservedInstances e));
     ("draining_timeout", option_map VInt (DrainingTimeout e));
     ("instance_types_ondemand", option_map VStr (OnDemandInstanceType e));
     ("instance_types_spot",
        match SpotInstanceTypes e with Some l => slice (map VStr l) | None => None end);
     ("enable_monitoring", option_map VBool (Monitoring e));
     ("ebs_optimized", match RootVolumeOpts_ e with
                       | Some o => option_map VBool (rv_Optimization o)
                       | None => None end);
     ("image_id", option_map VStr imageID);
     ("health_check_type", option_map VStr (HealthCheckType e));
     ("security_groups", slice (map sgLink sgs));
     ("user_data", userData);
     ("iam_instance_profile", option_map iamLink (IAMInstanceProfile_ e));
     ("key_name", option_map keyLink (SSHKey_ e))] in
  let outputs := app (role_outputs role "_security_groups" (map sgLink sgs))
                     (role_outputs role "_subnet_ids" (map subnetLink subnets)) in
  _ <-? eName ;;
  Ok (tf, outputs).

(** Decimal digits of an integer. *)
Fixpoint digits (fuel : nat) (n : Z) (acc : string) : string :=
  match fuel with
  | O => acc
  | S f =>
      let acc := String (ascii_of_nat (48 + Z.to_nat (n mod 10))) acc in
      if (n / 10 =? 0)%Z then acc else digits f (n / 10) acc
  end.

Definition Z_to_string (z : Z) : string :=
  if (z <? 0)%Z then "-" ++ digits 64 (- z) "" else digits 64 z "".

(** Modelled from the spec: the terraform writer ([t.RenderResource] and
    the output variables; the terraform packages are not among the
    sources, and the spec leaves the exact syntax out).  Fields and list
    elements are written in the order of the value handed to it. *)
Fixpoint emit (v : Value) : string :=
  match v with
  | VNull => "null"
  | VStr s => dq ++ s ++ dq
  | VInt z => Z_to_string z
  | VBool b => if b then "true" else "false"
  | VFloat q => Z_to_string (Qnum q) ++ "/" ++ Z_to_string (Zpos (Qden q))
  | VList l => "[" ++ String.concat ", " (map emit l) ++ "]"
  | VObj fs => "{" ++ String.concat "; " (map (fun '(k, x) => k ++ " = " ++ emit x) fs) ++ "}"
  end.

(** The emitted document of one Elastigroup: its resource block and the
    output variables it adds. *)
Definition terraform_document (rt : GoRuntime) (cloud : Cloud) (e : Elastigroup)
  : Result string :=
  r <-? RenderTerraform rt cloud e ;;
  let '(tf, outputs) := r in
  Ok (emit (VObj [("resource", VObj [("spotinst_elastigroup_aws",
                                      VObj [(StringValue (Name e), tf)])]);
                  ("output", VObj outputs)])).

(* ------------------------------------------------------------------ *)
(** ** Sample environments *)

(** Map iteration in the order the entries are stored, and reversed. *)
Definition storedOrder : MapOrder := fun _ m => m.
Definition reversedOrder : MapOrder := fun _ m => rev m.

Definition sampleRuntime (ord : MapOrder) : GoRuntime :=
  {| rt_order := ord; rt_base64Decode := fun s => Some s; rt_base64Encode := fun s => s |}.

Definition sampleImage : Image :=
  {| img_ImageId := Some "ami-0001"; img_RootDeviceName := Some "/dev/xvda" |}.

(** A live group: capacity {Min, Max, Target}, image [ami-0001], and
    optionally a load balancer attached. *)
Definition liveGroup (name : string) (mn mx target : Z) (lbName : option string) : Value :=
  VObj [("ID", VStr "sig-0001"); ("Name", VStr name); ("Region", VStr "us-east-1");
        ("Capacity", VObj [("Minimum", VInt mn); ("Maximum", VInt mx); ("Target", VInt target)]);
        ("Strategy", VObj [("AvailabilityVsCost", VStr "balanced")]);
        ("Compute", VObj [("Product", VStr "Linux/UNIX");
                          ("InstanceTypes", VObj [("OnDemand", VStr "m5.large")]);
                          ("LaunchSpecification",
                             VObj ([("ImageID", VStr "ami-0001")] ++
                                   match lbName with
                                   | Some n => [("LoadBalancersConfig",
                                                 VObj [("LoadBalancers",
                                                        VList [VObj [("Name", VStr n)]])])]
                                   | None => []
                                   end))])].

(** A cloud listing [groups], resolving every image to [sampleImage], the
    load balancer names to [elb] / [nlb], answering [Create] with
    [createAnswer] and accepting every [Update]. *)
Definition sampleCloud (groups : Result (list Value)) (elb nlb : option LoadBalancerDesc)
  (createAnswer : nat -> CreateResponse) : Cloud :=
  {| cloud_List := groups;
     cloud_ResolveImage := fun _ => Ok (Some sampleImage);
     cloud_FindELBByNameTag := fun _ => Ok elb;
     cloud_FindELBV2ByNameTag := fun _ => Ok nlb;
     cloud_GetMachineTypeInfo := fun _ => Ok [];
     cloud_NewElastigroup := fun g => Ok g;
     cloud_Create := createAnswer;
     cloud_Update := fun _ => None |}.

(** A desired group with the fields [create] needs. *)
Definition desiredGroup (name : string) (mn mx : Z) : Elastigroup :=
  {| Name := Some name; Lifecycle_ := Some "Sync"; ID := None;
     Region := Some "us-east-1"; MinSize := Some mn; MaxSize := Some mx;
     SpotPercentage := None; UtilizeReservedInstances := None;
     FallbackToOnDemand := None; DrainingTimeout := None; HealthCheckType := None;
     Product := None; Orientation := None; Tags := None; UserData := None;
     ImageID := Some "ami-0001"; OnDemandInstanceType := Some "m5.large";
     SpotInstanceTypes := None;
     IAMInstanceProfile_ := Some {| iam_Name := Some "nodes.example.com" |};
     LoadBalancer := None; SSHKey_ := Some {| key_Name := Some "kops-key" |};
     Subnets := None; SecurityGroups := None; Monitoring := None;
     AssociatePublicIP := None; Tenancy := None;
     RootVolumeOpts_ := Some {| rv_Type := Some "gp3"; rv_Size := Some 64%Z;
                                rv_IOPS := None; rv_Throughput := None;
                                rv_Optimization := None |};
     AutoScalerOpts_ := None |}.

(** A [changes] value with only the capacity fields given. *)
Definition capacityChanges (mn mx : option Z) : Elastigroup :=
  {| Name := None; Lifecycle_ := None; ID := None; Region := None;
     MinSize := mn; MaxSize := mx; SpotPercentage := None;
     UtilizeReservedInstances := None; FallbackToOnDemand := None;
     DrainingTimeout := None; HealthCheckType := None; Product := None;
     Orientation := None; Tags := None; UserData := None; ImageID := None;
     OnDemandInstanceType := None; SpotInstanceTypes := None;
     IAMInstanceProfile_ := None; LoadBalancer := None; SSHKey_ := None;
     Subnets := None; SecurityGroups := None; Monitoring := None;
     AssociatePublicIP := None; Tenancy := None; RootVolumeOpts_ := None;
     AutoScalerOpts_ := None |}.

Definition alwaysOk : nat -> CreateResponse := fun _ => CreateOk "sig-0001".

(** Two paths that part at some position: writing one leaves the other. *)
Fixpoint diverge (p q : list string) : bool :=
  match p, q with
  | k :: p', k' :: q' => if String.eqb k k' then diverge p' q' else true
  | _, _ => false
  end.

(** The live group of the capacity scenarios: {Min 2, Max 4, Target 4}. *)
Definition capacityCloud : Cloud :=
  sampleCloud (Ok [liveGroup "nodes" 2 4 4 None]) None None alwaysOk.

(** The actual state [Find] reports for it. *)
Definition capacityActual : Elastigroup :=
  match Find (sampleRuntime storedOrder) capacityCloud (desiredGroup "nodes" 2 4) with
  | Ok a => a
  | Error _ => emptyElastigroup
  end.

(** A desired group with a name but no capacity bounds. *)
Definition unsizedGroup (name : string) : Elastigroup :=
  {| Name := Some name; Lifecycle_ := Some "Sync"; ID := None;
     Region := Some "us-east-1"; MinSize := None; MaxSize := None;
     SpotPercentage := None; UtilizeReservedInstances := None;
     FallbackToOnDemand := None; DrainingTimeout := None; HealthCheckType := None;
     Product := None; Orientation := None; Tags := None; UserData := None;
     ImageID := Some "ami-0001"; OnDemandInstanceType := Some "m5.large";
     SpotInstanceTypes := None; IAMInstanceProfile_ := None; LoadBalancer := None;
     SSHKey_ := None; Subnets := None; SecurityGroups := None; Monitoring := None;
     AssociatePublicIP := None; Tenancy := None; RootVolumeOpts_ := None;
     AutoScalerOpts_ := None |}.

(** The volume-type rule of a provider block device mapping: no IOPS on a
    gp2 volume, a throughput on gp3 volumes only. *)
Definition ebs_kind_legal (v : Value) : Prop :=
  (get_path ["EBS"; "VolumeType"] v = Some (VStr "gp2") -> get_path ["EBS"; "IOPS"] v = None) /\
  (get_path ["EBS"; "Throughput"] v <> None -> get_path ["EBS"; "VolumeType"] v = Some (VStr "gp3")).

(** [e] with its tags replaced by [v]. *)
Definition withTags (v : StringMap) (e : Elastigroup) : Elastigroup :=
  {| Name := Name e; Lifecycle_ := Lifecycle_ e; ID := ID e; Region := Region e;
     MinSize := MinSize e; MaxSize := MaxSize e; SpotPercentage := SpotPercentage e;
     UtilizeReservedInstances := UtilizeReservedInstances e;
     FallbackToOnDemand := FallbackToOnDemand e; DrainingTimeout := DrainingTimeout e;
     HealthCheckType := HealthCheckType e; Product := Product e;
     Orientation := Orientation e; Tags := v; UserData := UserData e;
     ImageID := ImageID e; OnDemandInstanceType := OnDemandInstanceType e;
     SpotInstanceTypes := SpotInstanceTypes e;
     IAMInstanceProfile_ := IAMInstanceProfile_ e; LoadBalancer := LoadBalancer e;
     SSHKey_ := SSHKey_ e; Subnets := Subnets e; SecurityGroups := SecurityGroups e;
     Monitoring := Monitoring e; AssociatePublicIP := AssociatePublicIP e;
     Tenancy := Tenancy e; RootVolumeOpts_ := RootVolumeOpts_ e;
     AutoScalerOpts_ := AutoScalerOpts_ e |}.

(** [e] with its orientation replaced by [v]. *)
Definition withOrientation (v : option string) (e : Elastigroup) : Elastigroup :=
  {| Name := Name e; Lifecycle_ := Lifecycle_ e; ID := ID e; Region := Region e;
     MinSize := MinSize e; MaxSize := MaxSize e; SpotPercentage := SpotPercentage e;
     UtilizeReservedInstances := UtilizeReservedInstances e;
     FallbackToOnDemand := FallbackToOnDemand e; DrainingTimeout := DrainingTimeout e;
     HealthCheckType := HealthCheckType e; Product := Product e; Orientation := v;
     Tags := Tags e; UserData := UserData e; ImageID := ImageID e;
     OnDemandInstanceType := OnDemandInstanceType e;
     SpotInstanceTypes := SpotInstanceTypes e;
     IAMInstanceProfile_ := IAMInstanceProfile_ e; LoadBalancer := LoadBalancer e;
     SSHKey_ := SSHKey_ e; Subnets := Subnets e; SecurityGroups := SecurityGroups e;
     Monitoring := Monitoring e; AssociatePublicIP := AssociatePublicIP e;
     Tenancy := Tenancy e; RootVolumeOpts_ := RootVolumeOpts_ e;
     AutoScalerOpts_ := AutoScalerOpts_ e |}.

(** [e] with its load balancer replaced by [v]. *)
Definition withLoadBalancer (v : option ClassicLoadBalancer) (e : Elastigroup) : Elastigroup :=
  {| Name := Name e; Lifecycle_ := Lifecycle_ e; ID := ID e; Region := Region e;
     MinSize := MinSize e; MaxSize := MaxSize e; SpotPercentage := SpotPercentage e;
     UtilizeReservedInstances := UtilizeReservedInstances e;
     FallbackToOnDemand := FallbackToOnDemand e; DrainingTimeout := DrainingTimeout e;
     HealthCheckType := HealthCheckType e; Product := Product e;
     Orientation := Orientation e; Tags := Tags e; UserData := UserData e;
     ImageID := ImageID e; OnDemandInstanceType := OnDemandInstanceType e;
     SpotInstanceTypes := SpotInstanceTypes e;
     IAMInstanceProfile_ := IAMInstanceProfile_ e; LoadBalancer := v;
     SSHKey_ := SSHKey_ e; Subnets := Subnets e; SecurityGroups := SecurityGroups e;
     Monitoring := Monitoring e; AssociatePublicIP := AssociatePublicIP e;
     Tenancy := Tenancy e; RootVolumeOpts_ := RootVolumeOpts_ e;
     AutoScalerOpts_ := AutoScalerOpts_ e |}.

(** Providers answering every [Create] alike: with the transient instance
    profile error, with a non-transient [client.Errors], and with an error
    that is not a [client.Errors] (a transport failure). *)
Definition transientMessage : string := "Invalid IAM Instance Profile name: nodes".

Definition transientCloud : Cloud :=
  sampleCloud (Ok []) None None (fun _ => CreateClientErrors [transientMessage]).

Definition rejectingCloud : Cloud :=
  sampleCloud (Ok []) None None (fun _ => CreateClientErrors ["Invalid subnet"]).

Definition transportCloud : Cloud :=
  sampleCloud (Ok []) None None (fun _ => CreateOtherError "connection reset by peer").

(** The events of [k] loop iterations from [attempt], each sleeping then
    calling [Create]. *)
Definition attemptEvents (attempt k : nat) : list Event :=
  flat_map (fun i => [Sleep 10; CreateCall i]) (seq attempt k).

(** A section of [create] that leaves the value at path [q] of the group
    as it was. *)
Definition keeps (q : list string) (f : Value -> Result Value) : Prop :=
  forall g, match f g with Ok g' => get_path q g' = get_path q g | Error _ => True end.

(** The path of the orientation in a provider group. *)
Definition orientationPath : list string := ["Strategy"; "AvailabilityVsCost"].

(** A load balancer named [lb] that resolves both as a classic and as a
    network load balancer, attached to the live group [nodes]. *)
Definition bothLB : LoadBalancerDesc := {| lbd_LoadBalancerName := Some "lb" |}.

Definition ambiguousCloud : Cloud :=
  sampleCloud (Ok [liveGroup "nodes" 2 4 4 (Some "lb")]) (Some bothLB) (Some bothLB) alwaysOk.

Definition lbGroup : Elastigroup :=
  withLoadBalancer (Some {| lb_Name := Some "lb" |}) (desiredGroup "nodes" 2 4).

Definition lbChanges : Elastigroup :=
  withLoadBalancer (Some {| lb_Name := Some "lb" |}) (capacityChanges None None).

(** A desired group asking for the "cost" orientation. *)
Definition costGroup : Elastigroup := withOrientation (Some "cost") (desiredGroup "nodes" 2 4).

(** The group a first pass creates for [costGroup], as the provider then
    lists it: the submitted group with the id it assigned. *)
Definition createdCostGroup : Value :=
  match create_group (sampleRuntime storedOrder) capacityCloud (applyDefaults costGroup) with
  | Ok g => set_path ["ID"] (VStr "sig-0001") g
  | Error _ => emptyObj
  end.

Definition secondPassCloud : Cloud :=
  sampleCloud (Ok [createdCostGroup]) None None alwaysOk.

(** Modelled from the spec: the executor's Delta (section 4.3: a field is
    recorded iff the desired value differs from the actual one), here for
    the orientation field alone. *)
Definition orientationDelta (a e : Elastigroup) : Elastigroup :=
  match Orientation a, Orientation e with
  | Some x, Some y => if String.eqb x y then emptyElastigroup
                      else withOrientation (Orientation e) emptyElastigroup
  | None, None => emptyElastigroup
  | _, _ => withOrientation (Orientation e) emptyElastigroup
  end.

(** A property of the [update] state kept by every step of [m], and one
    established by every successful run of [m]. *)
Definition stable (P : UpdState -> Prop) {A} (m : M A) : Prop :=
  forall s r s', m s = (r, s') -> P s -> P s'.

Definition post (P : UpdState -> Prop) {A} (m : M A) : Prop :=
  forall s a s', m s = (Ok a, s') -> P s'.

(** The state of [update] once [group.SetId(actual.ID)] has run. *)
Definition upd_start (actual : Value) : UpdState :=
  {| us_group := set_path ["ID"] (vstr (as_str (fld actual "ID"))) emptyObj;
     us_cleared := []; us_changed := false; us_warnings := []; us_updates := [] |}.

(* ------------------------------------------------------------------ *)
(** ** Further example data *)

(** The number of [Create] calls in a trace of the retry loop. *)
Definition create_calls (ev : list Event) : nat :=
  length (filter (fun x => match x with CreateCall _ => true | Sleep _ => false end) ev).

(** A task with its auto-scaler options replaced. *)
Definition withAutoScalerOpts (v : option AutoScalerOpts) (e : Elastigroup) : Elastigroup :=
  {| Name := Name e; Lifecycle_ := Lifecycle_ e; ID := ID e; Region := Region e;
     MinSize := MinSize e; MaxSize := MaxSize e; SpotPercentage := SpotPercentage e;
     UtilizeReservedInstances := UtilizeReservedInstances e;
     FallbackToOnDemand := FallbackToOnDemand e; DrainingTimeout := DrainingTimeout e;
     HealthCheckType := HealthCheckType e; Product := Product e;
     Orientation := Orientation e; Tags := Tags e; UserData := UserData e;
     ImageID := ImageID e; OnDemandInstanceType := OnDemandInstanceType e;
     SpotInstanceTypes := SpotInstanceTypes e;
     IAMInstanceProfile_ := IAMInstanceProfile_ e; LoadBalancer := LoadBalancer e;
     SSHKey_ := SSHKey_ e; Subnets := Subnets e; SecurityGroups := SecurityGroups e;
     Monitoring := Monitoring e; AssociatePublicIP := AssociatePublicIP e;
     Tenancy := Tenancy e; RootVolumeOpts_ := RootVolumeOpts_ e; AutoScalerOpts_ := v |}.

(** Tags with one role tag. *)
Definition roleTags : list (string * string) :=
  [("team", "infra"); ("k8s.io/role/node", "1")].

(** Tags naming two different roles. *)
Definition conflictingRoleTags : list (string * string) :=
  [("k8s.io/role/master", "1"); ("k8s.io/role/node", "1")].

(** A desired group with role tags and a security group. *)
Definition roleGroup : Elastigroup :=
  {| Name := Some "nodes"; Lifecycle_ := Some "Sync"; ID := None;
     Region := Some "us-east-1"; MinSize := Some 2%Z; MaxSize := Some 4%Z;
     SpotPercentage := None; UtilizeReservedInstances := None;
     FallbackToOnDemand := None; DrainingTimeout := None; HealthCheckType := None;
     Product := None; Orientation := None; Tags := Some roleTags; UserData := None;
     ImageID := Some "ami-0001"; OnDemandInstanceType := Some "m5.large";
     SpotInstanceTypes := None; IAMInstanceProfile_ := None;
     LoadBalancer := None; SSHKey_ := None;
     Subnets := Some [{| subnet_Name := Some "a"; subnet_ID := Some "subnet-1" |}];
     SecurityGroups := Some [{| sg_Name := Some "nodes"; sg_ID := Some "sg-1" |}];
     Monitoring := None; AssociatePublicIP := None; Tenancy := None;
     RootVolumeOpts_ := None; AutoScalerOpts_ := None |}.

(** Auto-scaler options with a cluster ID, cooldown and labels but no [Enabled]. *)
Definition clusterOnlyOpts : AutoScalerOpts :=
  {| as_Enabled := None; as_AutoConfig := None; as_AutoHeadroomPercentage := None;
     as_ClusterID := Some "prod"; as_Cooldown := Some 300%Z;
     as_Labels := Some [("pool", "spot")]; as_Taints := None; as_Headroom := None;
     as_Down := None; as_ResourceLimits := None |}.

(** The tags [create_group] writes. *)
Definition tagsPath : list string := LS "Tags".

(** A task with two tags, the group [create] builds from it, and a provider listing that group. *)
Definition tagGroup : Elastigroup :=
  withTags (Some [("team", "infra"); ("env", "prod")]) (desiredGroup "nodes" 2 4).

Definition createdTagGroup : Value :=
  match create_group (sampleRuntime reversedOrder) capacityCloud (applyDefaults tagGroup) with
  | Ok g => g | Error _ => emptyObj end.

Definition tagCloud : Cloud :=
  sampleCloud (Ok [set_path ["ID"] (VStr "sig-0001") createdTagGroup]) None None alwaysOk.

(** Every root volume type in [o] is in lower case. *)
Definition type_lower (o : option RootVolumeOpts) : Prop :=
  forall r t, o = Some r -> rv_Type r = Some t -> ToLower t = t.

(** A live group whose root volume the provider reports in upper case. *)
Definition upperCaseVolumeGroup : Value :=
  set_path (LS "BlockDeviceMappings")
    (VList [VObj [("EBS", VObj [("VolumeType", VStr "GP3"); ("VolumeSize", VInt 64)])]])
    (liveGroup "nodes" 2 4 4 None).

Definition upperCaseVolumeCloud : Cloud :=
  sampleCloud (Ok [upperCaseVolumeGroup]) None None alwaysOk.

(** A live group running the image the desired name resolves to. *)
Definition resolvedImageGroup : Value :=
  set_path (LS "ImageID") (VStr "ami-0001") (liveGroup "nodes" 2 4 4 None).

Definition resolvedImageCloud : Cloud :=
  sampleCloud (Ok [resolvedImageGroup]) None None alwaysOk.

Definition namedImageGroup : Elastigroup :=
  {| Name := Some "nodes"; Lifecycle_ := Some "Sync"; ID := None;
     Region := Some "us-east-1"; MinSize := Some 2%Z; MaxSize := Some 4%Z;
     SpotPercentage := None; UtilizeReservedInstances := None;
     FallbackToOnDemand := None; DrainingTimeout := None; HealthCheckType := None;
     Product := None; Orientation := None; Tags := None; UserData := None;
     ImageID := Some "kope.io/k8s-1.29-debian"; OnDemandInstanceType := Some "m5.large";
     SpotInstanceTypes := None; IAMInstanceProfile_ := None;
     LoadBalancer := None; SSHKey_ := None; Subnets := None; SecurityGroups := None;
     Monitoring := None; AssociatePublicIP := None; Tenancy := None;
     RootVolumeOpts_ := None; AutoScalerOpts_ := None |}.

(** What [Find] reports for [namedImageGroup]. *)
Definition foundImage : Elastigroup :=
  match Find (sampleRuntime storedOrder) resolvedImageCloud namedImageGroup with
  | Ok a => a | Error _ => emptyElastigroup end.

(** A task with a subnet without an ID and a security group. *)
Definition networkGroup : Elastigroup :=
  {| Name := Some "nodes"; Lifecycle_ := Some "Sync"; ID := None;
     Region := Some "us-east-1"; MinSize := Some 2%Z; MaxSize := Some 4%Z;
     SpotPercentage := None; UtilizeReservedInstances := None;
     FallbackToOnDemand := None; DrainingTimeout := None; HealthCheckType := None;
     Product := None; Orientation := None; Tags := None; UserData := None;
     ImageID := Some "ami-0001"; OnDemandInstanceType := Some "m5.large";
     SpotInstanceTypes := None;
     IAMInstanceProfile_ := Some {| iam_Name := Some "nodes.example.com" |};
     LoadBalancer := None; SSHKey_ := Some {| key_Name := Some "kops-key" |};
     Subnets := Some [{| subnet_Name := Some "us-east-1a"; subnet_ID := Some "subnet-1" |};
                      {| subnet_Name := Some "us-east-1b"; subnet_ID := None |}];
     SecurityGroups := Some [{| sg_Name := Some "nodes"; sg_ID := Some "sg-1" |}];
     Monitoring := None; AssociatePublicIP := None; Tenancy := None;
     RootVolumeOpts_ := Some {| rv_Type := Some "gp3"; rv_Size := Some 64%Z;
                                rv_IOPS := None; rv_Throughput := None;
                                rv_Optimization := None |};
     AutoScalerOpts_ := None |}.

Definition createdNetworkGroup : Value :=
  match create_group (sampleRuntime storedOrder) capacityCloud networkGroup with
  | Ok g => g | Error _ => emptyObj end.

(** A provider listing two groups. *)
Definition twoGroupCloud : Cloud :=
  sampleCloud (Ok [liveGroup "masters" 1 1 1 None; liveGroup "nodes" 2 4 4 None]) None None alwaysOk.

(** A live group without an ID. *)
Definition noIdGroup : Value :=
  VObj (List.filter (fun kv => negb (String.eqb (fst kv) "ID"))
                    (obj_fields (liveGroup "nodes" 2 4 4 None))).

Definition noIdCloud : Cloud := sampleCloud (Ok [noIdGroup]) None None alwaysOk.

(** The group [update] sends for a capacity change. *)
Definition sentGroup : Value :=
  match us_updates (snd (update (sampleRuntime storedOrder) capacityCloud capacityActual
                                (desiredGroup "nodes" 3 5) (capacityChanges (Some 3%Z) (Some 5%Z)))) with
  | g :: _ => g
  | [] => emptyObj
  end.

(** The headroom [Find] reads back: the non-positive units are dropped. *)
Definition headroom_read (h : AutoScalerHeadroomOpts) : AutoScalerHeadroomOpts :=
  {| hr_CPUPerUnit := positive_only (hr_CPUPerUnit h);
     hr_GPUPerUnit := positive_only (hr_GPUPerUnit h);
     hr_MemPerUnit := positive_only (hr_MemPerUnit h);
     hr_NumOfUnits := positive_only (hr_NumOfUnits h) |}.

(** Auto-scaler options with every field set. *)
Definition enabledOpts : AutoScalerOpts :=
  {| as_Enabled := Some true; as_AutoConfig := Some true; as_AutoHeadroomPercentage := Some 10%Z;
     as_ClusterID := Some "prod"; as_Cooldown := Some 300%Z;
     as_Labels := Some [("pool", "spot"); ("tier", "web")]; as_Taints := None;
     as_Headroom := Some {| hr_CPUPerUnit := Some 0%Z; hr_GPUPerUnit := None;
                            hr_MemPerUnit := Some 512%Z; hr_NumOfUnits := Some 2%Z |};
     as_Down := Some {| down_MaxPercentage := Some (1 # 2)%Q; down_EvaluationPeriods := Some 3%Z |};
     as_ResourceLimits := None |}.

(** A task with the given auto-scaler options, the group [create] builds from it, a provider listing it and what [Find] reports. *)
Definition scalerGroup (opts : AutoScalerOpts) : Elastigroup :=
  withAutoScalerOpts (Some opts) (desiredGroup "nodes" 2 4).

Definition createdScalerGroup (opts : AutoScalerOpts) : Value :=
  match create_group (sampleRuntime reversedOrder) capacityCloud (applyDefaults (scalerGroup opts)) with
  | Ok g => g | Error _ => emptyObj end.

Definition scalerCloud (opts : AutoScalerOpts) : Cloud :=
  sampleCloud (Ok [set_path ["ID"] (VStr "sig-0001") (createdScalerGroup opts)]) None None alwaysOk.

Definition foundScaler (opts : AutoScalerOpts) : Elastigroup :=
  match Find (sampleRuntime reversedOrder) (scalerCloud opts) (scalerGroup opts) with
  | Ok a => a | Error _ => emptyElastigroup end.

(* ------------------------------------------------------------------ *)
(** ** Lemmas on provider structures *)

Lemma assoc_assoc_set_same {A} (k : string) (v : A) l :
  assoc k (assoc_set k v l) = Some v.
Proof.
  induction l as [|[k' v'] l IH]; simpl.
  - rewrite String.eqb_refl; reflexivity.
  - destruct (String.eqb k k') eqn:E; simpl.
    + rewrite String.eqb_refl; reflexivity.
    + rewrite E; exact IH.
Qed.

Lemma assoc_assoc_set_other {A} (k k' : string) (v : A) l :
  String.eqb k' k = false -> assoc k' (assoc_set k v l) = assoc k' l.
Proof.
  intros Hk; induction l as [|[k'' v'] l IH]; simpl.
  - rewrite Hk; reflexivity.
  - destruct (String.eqb k k'') eqn:E; simpl.
    + apply String.eqb_eq in E; subst k''. rewrite Hk; reflexivity.
    + destruct (String.eqb k' k''); [reflexivity | exact IH].
Qed.

Lemma get_path_empty p : p <> [] -> get_path p (VObj []) = None.
Proof. destruct p; [congruence | reflexivity]. Qed.

Lemma get_set_path_same p v t : get_path p (set_path p v t) = Some v.
Proof.
  revert t; induction p as [|k p IH]; intros t; simpl; [reflexivity|].
  rewrite assoc_assoc_set_same; apply IH.
Qed.

Lemma get_set_path_diverge p q v t :
  diverge p q = true -> get_path q (set_path p v t) = get_path q t.
Proof.
  revert q t; induction p as [|k p IH]; intros q t Hd; [discriminate|].
  destruct q as [|k' q]; [discriminate|].
  simpl in Hd |- *.
  destruct (String.eqb k k') eqn:E.
  - apply String.eqb_eq in E; subst k'.
    rewrite assoc_assoc_set_same, IH by exact Hd.
    assert (Hq : q <> []) by (destruct q, p; simpl in Hd; congruence).
    destruct t as [| | | | | |fs]; simpl; try (apply get_path_empty; exact Hq).
    destruct (assoc k fs); [reflexivity|]. apply get_path_empty; exact Hq.
  - assert (E' : String.eqb k' k = false) by (rewrite String.eqb_sym; exact E).
    rewrite assoc_assoc_set_other by exact E'.
    destruct t; reflexivity.
Qed.

(** A struct literal: the field [k] is the first non-nil entry named [k]. *)
Lemma assoc_lit_cons k k' o fs :
  assoc k (obj_fields (lit ((k', o) :: fs))) =
  if String.eqb k k' then match o with Some v => Some v | None => assoc k (obj_fields (lit fs)) end
  else assoc k (obj_fields (lit fs)).
Proof.
  unfold lit; simpl. destruct o as [v|]; simpl; destruct (String.eqb k k'); reflexivity.
Qed.

Lemma assoc_lit_app k fs1 fs2 :
  assoc k (obj_fields (lit (fs1 ++ fs2))) =
  match assoc k (obj_fields (lit fs1)) with
  | Some v => Some v
  | None => assoc k (obj_fields (lit fs2))
  end.
Proof.
  induction fs1 as [|[k' o] fs1 IH]; [reflexivity|].
  simpl app. rewrite !assoc_lit_cons, IH.
  destruct (String.eqb k k'); [destruct o|]; reflexivity.
Qed.

(* ------------------------------------------------------------------ *)
(** ** Reasoning about [update]'s state *)

Lemma bind_ok_inv {A B} (m : M A) (k : A -> M B) s b s'' :
  bind m k s = (Ok b, s'') -> exists a s', m s = (Ok a, s') /\ k a s' = (Ok b, s'').
Proof.
  unfold bind. destruct (m s) as [[a|err] s'] eqn:E; intros H; [|discriminate].
  exists a, s'; split; [reflexivity | exact H].
Qed.

Lemma bind_error_inv {A B} (m : M A) (k : A -> M B) s err s'' :
  bind m k s = (Error err, s'') ->
  (exists s', m s = (Error err, s') /\ s'' = s') \/
  (exists a s', m s = (Ok a, s') /\ k a s' = (Error err, s'')).
Proof.
  unfold bind. destruct (m s) as [[a|err'] s'] eqn:E; intros H.
  - right; exists a, s'; split; [reflexivity | exact H].
  - left; inversion H; subst; exists s''; split; reflexivity.
Qed.

Lemma stable_bind {A B} P (m : M A) (k : A -> M B) :
  stable P m -> (forall a, stable P (k a)) -> stable P (bind m k).
Proof.
  intros Hm Hk s r s'' H HP. unfold bind in H.
  destruct (m s) as [[a|err] s'] eqn:E.
  - eapply Hk; [exact H|]. eapply Hm; [exact E | exact HP].
  - inversion H; subst. eapply Hm; [exact E | exact HP].
Qed.

Lemma stable_ret {A} P (a : A) : stable P (ret a).
Proof. intros s r s' H HP; inversion H; subst; exact HP. Qed.

Lemma stable_raise {A} P err : stable P (@raise A err).
Proof. intros s r s' H HP; inversion H; subst; exact HP. Qed.

Lemma stable_lift {A} P (r0 : Result A) : stable P (lift r0).
Proof. intros s r s' H HP; unfold lift in H; destruct r0; inversion H; subst; exact HP. Qed.

Lemma stable_deref_opt {A} P (o : option A) w : stable P (deref_opt o w).
Proof. destruct o; [apply stable_ret | apply stable_raise]. Qed.

Lemma stable_get_state P : stable P get_state.
Proof. intros s r s' H HP; inversion H; subst; exact HP. Qed.

Lemma stable_when P b (m : M unit) : stable P m -> stable P (when b m).
Proof. intros Hm; destruct b; [exact Hm | apply stable_ret]. Qed.

Lemma post_bind_l {A B} P (m : M A) (k : A -> M B) :
  post P m -> (forall a, stable P (k a)) -> post P (bind m k).
Proof.
  intros Hm Hk s b s'' H. apply bind_ok_inv in H as (a & s' & H1 & H2).
  eapply Hk; [exact H2|]. eapply Hm; exact H1.
Qed.

Lemma post_bind_r {A B} P (m : M A) (k : A -> M B) :
  (forall a, post P (k a)) -> post P (bind m k).
Proof.
  intros Hk s b s'' H. apply bind_ok_inv in H as (a & s' & H1 & H2).
  eapply Hk; exact H2.
Qed.

Lemma post_when P b (m : M unit) : b = true -> post P m -> post P (when b m).
Proof. intros -> Hm; exact Hm. Qed.

(** The fields cleared in [changes] stay cleared. *)
Lemma cleared_set f p v : stable (fun s => In f (us_cleared s)) (set p v).
Proof. intros s r s' H HP; inversion H; subst; exact HP. Qed.
Lemma cleared_clear f g : stable (fun s => In f (us_cleared s)) (clear g).
Proof. intros s r s' H HP; inversion H; subst; right; exact HP. Qed.
Lemma cleared_mark_changed f : stable (fun s => In f (us_cleared s)) mark_changed.
Proof. intros s r s' H HP; inversion H; subst; exact HP. Qed.
Lemma cleared_warn f l : stable (fun s => In f (us_cleared s)) (warn l).
Proof. intros s r s' H HP; inversion H; subst; exact HP. Qed.
Lemma cleared_record_update f g : stable (fun s => In f (us_cleared s)) (record_update g).
Proof. intros s r s' H HP; inversion H; subst; exact HP. Qed.

Lemma post_set p v : post (fun s => get_path p (us_group s) = Some v) (set p v).
Proof. intros s a s' H; injection H as <- <-; simpl; apply get_set_path_same. Qed.

Lemma post_mark_changed : post (fun s => us_changed s = true) mark_changed.
Proof. intros s a s' H; injection H as <- <-; reflexivity. Qed.

Lemma post_clear f : post (fun s => In f (us_cleared s)) (clear f).
Proof. intros s a s' H; inversion H; subst; left; reflexivity. Qed.

(** A field of the group that a step does not write keeps its value. *)
Lemma frame_set q x p v :
  diverge p q = true -> stable (fun s => get_path q (us_group s) = x) (set p v).
Proof.
  intros Hd s r s' H HP; injection H as <- <-; simpl.
  rewrite get_set_path_diverge by exact Hd; exact HP.
Qed.
Lemma frame_clear q x f : stable (fun s => get_path q (us_group s) = x) (clear f).
Proof. intros s r s' H HP; injection H as <- <-; exact HP. Qed.
Lemma frame_mark_changed q x : stable (fun s => get_path q (us_group s) = x) mark_changed.
Proof. intros s r s' H HP; injection H as <- <-; exact HP. Qed.

(** [changed] is never reset. *)
Lemma changed_set p v : stable (fun s => us_changed s = true) (set p v).
Proof. intros s r s' H HP; inversion H; subst; exact HP. Qed.
Lemma changed_clear f : stable (fun s => us_changed s = true) (clear f).
Proof. intros s r s' H HP; inversion H; subst; exact HP. Qed.
Lemma changed_mark_changed : stable (fun s => us_changed s = true) mark_changed.
Proof. intros s r s' H HP; inversion H; subst; reflexivity. Qed.

(** The body of [update] neither warns nor calls [Update]. *)
Lemma log_set w u p v :
  stable (fun s => us_warnings s = w /\ us_updates s = u) (set p v).
Proof. intros s r s' H HP; injection H as <- <-; exact HP. Qed.
Lemma log_clear w u f :
  stable (fun s => us_warnings s = w /\ us_updates s = u) (clear f).
Proof. intros s r s' H HP; injection H as <- <-; exact HP. Qed.
Lemma log_mark_changed w u :
  stable (fun s => us_warnings s = w /\ us_updates s = u) mark_changed.
Proof. intros s r s' H HP; injection H as <- <-; exact HP. Qed.

Lemma stable_or_const P (Q : Prop) {A} (m : M A) :
  stable P m -> stable (fun s => P s \/ Q) m.
Proof. intros Hm s r s' H [HP|HQ]; [left; exact (Hm s r s' H HP) | right; exact HQ]. Qed.

Create HintDb upd.
#[export] Hint Resolve cleared_set cleared_clear cleared_mark_changed cleared_warn
  cleared_record_update frame_clear frame_mark_changed changed_set changed_clear
  changed_mark_changed log_set log_clear log_mark_changed : upd.

Ltac unfold_update :=
  unfold update_body, update_region, update_strategy, update_compute,
    update_launch_spec, update_capacity, update_auto_scaler_block,
    update_load_balancer, update_auto_scaler, set_ls.

(** [stable P m] for a step built from the primitives. *)
Ltac stab :=
  repeat match goal with
  | |- forall _, _ => intro
  | |- stable (fun _ => _ \/ _) _ => apply stable_or_const
  | |- stable _ ((fun _ => _) _) => cbv beta
  | |- stable _ (bind _ _) => apply stable_bind
  | |- stable _ (when _ _) => apply stable_when
  | |- stable _ (ret _) => apply stable_ret
  | |- stable _ (raise _) => apply stable_raise
  | |- stable _ (lift _) => apply stable_lift
  | |- stable _ (deref_opt _ _) => apply stable_deref_opt
  | |- stable _ get_state => apply stable_get_state
  | |- stable _ (set_ls _ _ _) => unfold set_ls
  | |- stable _ (update_load_balancer _ _) => unfold update_load_balancer
  | |- stable _ (update_auto_scaler _ _ _ _) => unfold update_auto_scaler
  | |- stable (fun s => get_path _ (us_group s) = _) (set _ _) =>
      apply frame_set; reflexivity
  | |- stable _ (match ?x with _ => _ end) => destruct x
  | |- stable _ _ => solve [eauto with upd]
  end.

(** The load balancer block clears the field unless neither lookup finds
    the load balancer. *)
Lemma post_update_load_balancer cloud e :
  post (fun s => In FLoadBalancer (us_cleared s) \/
                 exists l, LoadBalancer e = Some l /\
                   cloud_FindELBByNameTag cloud (StringValue (lb_Name l)) = Ok None /\
                   cloud_FindELBV2ByNameTag cloud (StringValue (lb_Name l)) = Ok None)
       (update_load_balancer cloud e).
Proof.
  intros s u s' H. unfold update_load_balancer in H.
  destruct (LoadBalancer e) as [l|] eqn:EL; cbv [deref_opt raise ret bind lift] in H;
    [|discriminate].
  destruct (cloud_FindELBByNameTag cloud (StringValue (lb_Name l))) as [[d|]|err] eqn:E1;
    cbv beta iota in H; [| |discriminate].
  - left. cbv [set_ls set clear mark_changed bind] in H. injection H as _ <-. left; reflexivity.
  - destruct (cloud_FindELBV2ByNameTag cloud (StringValue (lb_Name l))) as [[d|]|err] eqn:E2;
      cbv beta iota in H; [| |discriminate].
    + left. cbv [option_map set_ls set clear mark_changed bind] in H.
      injection H as _ <-. left; reflexivity.
    + right. exists l. split; [reflexivity|]. split; assumption.
Qed.

(** [post (In f cleared) m]: find the [clear f] the run goes through. *)
Ltac post_find :=
  cbv beta;
  first
  [ apply post_clear
  | apply post_set
  | apply post_mark_changed
  | apply post_update_load_balancer
  | apply post_bind_l; [post_find | solve [stab]]
  | apply post_bind_r; intro; post_find
  | apply post_when; [assumption | post_find]
  | match goal with
    | |- post _ (match ?x with _ => _ end) =>
        let E := fresh "E" in
        destruct x eqn:E;
        [ post_find
        | match goal with H : is_set None = true |- _ => discriminate H end ]
    end ].

Lemma update_body_log rt cloud a e changes actual w u :
  stable (fun s => us_warnings s = w /\ us_updates s = u)
         (update_body rt cloud a e changes actual).
Proof. unfold_update; stab. Qed.

Lemma update_body_cleared rt cloud a e changes actual f :
  stable (fun s => In f (us_cleared s)) (update_body rt cloud a e changes actual).
Proof. unfold_update; stab. Qed.

Lemma update_body_changed rt cloud a e changes actual :
  stable (fun s => us_changed s = true) (update_body rt cloud a e changes actual).
Proof. unfold_update; stab. Qed.


(** [update_m] runs the body from [upd_start], then [update_finish]. *)
Lemma update_run rt cloud a e changes n live r s :
  Name e = Some n -> find cloud n = Ok live ->
  update rt cloud a e changes = (r, s) ->
  exists rb sb, update_body rt cloud a e changes live (upd_start live) = (rb, sb) /\
    match rb with
    | Ok _ => update_finish cloud changes (as_str (fld live "ID")) sb = (r, s)
    | Error err => r = Error err /\ s = sb
    end.
Proof.
  intros HN Hf H. unfold update, update_m in H. rewrite HN in H.
  cbv [deref_opt ret bind lift] in H. rewrite Hf in H.
  change (set ["ID"] (vstr (as_str (fld live "ID"))) initUpdState)
    with (Ok tt, upd_start live) in H. cbv beta iota in H.
  destruct (update_body rt cloud a e changes live (upd_start live)) as [[u|err] sb] eqn:E.
  - exists (Ok u), sb; split; [reflexivity|]. exact H.
  - exists (Error err), sb; split; [reflexivity|]. inversion H; split; reflexivity.
Qed.

(** The end of [update] on a group with an ID, a provider accepting the
    group and the update. *)
Lemma update_finish_ok cloud changes id sb :
  (forall g, cloud_NewElastigroup cloud g = Ok g) ->
  (forall g, cloud_Update cloud g = None) ->
  update_finish cloud changes (Some id) sb =
  (Ok tt, {| us_group := us_group sb; us_cleared := us_cleared sb;
             us_changed := us_changed sb;
             us_warnings := us_warnings sb ++
                            match residual changes (us_cleared sb) with
                            | [] => [] | l => [l] end;
             us_updates := us_updates sb ++ (if us_changed sb then [us_group sb] else []) |}).
Proof.
  intros HNew HUpd. destruct sb as [g cl ch w u]. unfold update_finish.
  cbv [bind get_state deref_opt ret]; simpl.
  destruct (residual changes cl) as [|f l] eqn:Er; simpl;
  destruct ch; simpl; cbv [lift bind ret record_update warn]; simpl;
  rewrite ?HNew; simpl; rewrite ?HUpd; rewrite ?app_nil_r; reflexivity.
Qed.

Lemma run_stable P {A} (m : M A) s r s' : m s = (r, s') -> stable P m -> P s -> P s'.
Proof. intros H Hm HP; exact (Hm s r s' H HP). Qed.

Lemma run_post P {A} (m : M A) s a s' : m s = (Ok a, s') -> post P m -> P s'.
Proof. intros H Hm; exact (Hm s a s' H). Qed.

(** [x.K] dereferenced, then its field [K']: the path [K.K']. *)
Lemma deref_get_path v k k' c :
  deref v k = Ok c -> get_path [k; k'] v = fld c k'.
Proof.
  unfold deref, fld. destruct v as [| | | | | |fs]; try discriminate. simpl.
  destruct (assoc k fs) as [c'|]; [|discriminate].
  destruct c' as [| | | | | |fs']; intros H; try discriminate; injection H as <-;
    simpl; try reflexivity.
  destruct (assoc k' fs'); reflexivity.
Qed.

(** The capacity block: [Target] is written only when [MinSize] changed and
    the live [Target] is below the desired minimum. *)
Lemma update_capacity_target e changes actual s s' :
  update_capacity e changes actual s = (Ok tt, s') ->
  get_path ["Capacity"; "Target"] (us_group s') =
  if is_set (MinSize changes) then
    match MinSize e, as_int (get_path ["Capacity"; "Target"] actual) with
    | Some m, Some t =>
        if (t <? m)%Z then Some (VInt m) else get_path ["Capacity"; "Target"] (us_group s)
    | _, _ => get_path ["Capacity"; "Target"] (us_group s)
    end
  else get_path ["Capacity"; "Target"] (us_group s).
Proof.
  intros H. unfold update_capacity in H. apply bind_ok_inv in H as (u & s1 & H1 & H2).
  apply run_stable with
    (P := fun s0 => get_path ["Capacity"; "Target"] (us_group s0) =
                    get_path ["Capacity"; "Target"] (us_group s1)) in H2;
    [| stab | reflexivity].
  rewrite H2; clear H2.
  destruct (is_set (MinSize changes)); [| cbv [when ret] in H1; injection H1 as _ <-; reflexivity].
  destruct (MinSize e) as [m|]; [| cbv [when deref_opt raise bind] in H1; discriminate].
  cbv [when deref_opt ret bind set clear mark_changed lift] in H1.
  destruct (deref actual "Capacity") as [c|err] eqn:Ec; cbv beta iota delta [rbind] in H1;
    [|discriminate].
  rewrite (deref_get_path _ _ _ _ Ec).
  destruct (as_int (fld c "Target")) as [t|]; cbv beta iota in H1; [|discriminate].
  apply (f_equal (fun p => get_path ["Capacity"; "Target"] (us_group (snd p)))) in H1.
  destruct (t <? m)%Z; cbv beta iota delta [snd] in H1; rewrite <- H1.
  - apply get_set_path_same.
  - apply get_set_path_diverge; reflexivity.
Qed.

Lemma target_region e changes x :
  stable (fun s => get_path ["Capacity"; "Target"] (us_group s) = x) (update_region e changes).
Proof. unfold_update; stab. Qed.

Lemma target_strategy e changes x :
  stable (fun s => get_path ["Capacity"; "Target"] (us_group s) = x) (update_strategy e changes).
Proof. unfold_update; stab. Qed.

Lemma target_compute e changes x :
  stable (fun s => get_path ["Capacity"; "Target"] (us_group s) = x) (update_compute e changes).
Proof. unfold_update; stab. Qed.

Lemma target_launch_spec rt cloud e changes actual x :
  stable (fun s => get_path ["Capacity"; "Target"] (us_group s) = x)
         (update_launch_spec rt cloud e changes actual).
Proof. unfold_update; stab. Qed.

Lemma target_auto_scaler rt a e changes x :
  stable (fun s => get_path ["Capacity"; "Target"] (us_group s) = x)
         (update_auto_scaler_block rt a e changes).
Proof. unfold_update; stab. Qed.

Lemma orientation_region e changes x :
  stable (fun s => get_path ["Strategy"; "AvailabilityVsCost"] (us_group s) = x)
         (update_region e changes).
Proof. unfold_update; stab. Qed.

Lemma orientation_compute e changes x :
  stable (fun s => get_path ["Strategy"; "AvailabilityVsCost"] (us_group s) = x)
         (update_compute e changes).
Proof. unfold_update; stab. Qed.

Lemma orientation_launch_spec rt cloud e changes actual x :
  stable (fun s => get_path ["Strategy"; "AvailabilityVsCost"] (us_group s) = x)
         (update_launch_spec rt cloud e changes actual).
Proof. unfold_update; stab. Qed.

Lemma orientation_capacity e changes actual x :
  stable (fun s => get_path ["Strategy"; "AvailabilityVsCost"] (us_group s) = x)
         (update_capacity e changes actual).
Proof. unfold_update; stab. Qed.

Lemma orientation_auto_scaler rt a e changes x :
  stable (fun s => get_path ["Strategy"; "AvailabilityVsCost"] (us_group s) = x)
         (update_auto_scaler_block rt a e changes).
Proof. unfold_update; stab. Qed.

Lemma update_strategy_orientation e changes s s' :
  update_strategy e changes s = (Ok tt, s') -> is_set (Orientation changes) = true ->
  get_path ["Strategy"; "AvailabilityVsCost"] (us_group s') =
    Some (VStr (normalizeOrientation (Orientation e))) /\ us_changed s' = true.
Proof.
  intros H Ho. split.
  - apply (run_post (fun s0 => get_path ["Strategy"; "AvailabilityVsCost"] (us_group s0) =
                               Some (VStr (normalizeOrientation (Orientation e)))) _ _ _ _ H).
    unfold update_strategy; post_find.
  - apply (run_post (fun s0 => us_changed s0 = true) _ _ _ _ H).
    unfold update_strategy; post_find.
Qed.

(** A successful body run goes through the six blocks in turn. *)
Lemma update_body_blocks rt cloud a e changes actual s0 sb :
  update_body rt cloud a e changes actual s0 = (Ok tt, sb) ->
  exists s1 s2 s3 s4 s5,
    update_region e changes s0 = (Ok tt, s1) /\
    update_strategy e changes s1 = (Ok tt, s2) /\
    update_compute e changes s2 = (Ok tt, s3) /\
    update_launch_spec rt cloud e changes actual s3 = (Ok tt, s4) /\
    update_capacity e changes actual s4 = (Ok tt, s5) /\
    update_auto_scaler_block rt a e changes s5 = (Ok tt, sb).
Proof.
  unfold update_body; intros H.
  apply bind_ok_inv in H as ([] & s1 & H1 & H).
  apply bind_ok_inv in H as ([] & s2 & H2 & H).
  apply bind_ok_inv in H as ([] & s3 & H3 & H).
  apply bind_ok_inv in H as ([] & s4 & H4 & H).
  apply bind_ok_inv in H as ([] & s5 & H5 & H).
  exists s1, s2, s3, s4, s5; repeat split; assumption.
Qed.

(** What [update_finish] may send: the group built by the body. *)
Lemma update_finish_updates cloud changes gid sb r s :
  (forall g, cloud_NewElastigroup cloud g = Ok g) ->
  update_finish cloud changes gid sb = (r, s) ->
  forall g, In g (us_updates s) -> In g (us_updates sb) \/ g = us_group sb.
Proof.
  intros HNew. unfold update_finish.
  cbv [bind get_state deref_opt ret raise lift warn record_update]; cbn beta iota.
  destruct (residual changes (us_cleared sb)) as [|f l]; destruct gid as [id|];
    destruct (us_changed sb); cbn beta iota; rewrite ?HNew; cbn beta iota;
    try (destruct (cloud_Update cloud (us_group sb)));
    intros H; injection H as _ <-; intros g Hg; simpl in Hg;
    first [left; exact Hg | apply in_app_or in Hg as [Hg|[Hg|[]]]; auto].
Qed.


(** The target path is not written before the capacity block. *)
Lemma target_before_capacity rt cloud e changes live s1 s2 s3 s4 :
  update_region e changes (upd_start live) = (Ok tt, s1) ->
  update_strategy e changes s1 = (Ok tt, s2) ->
  update_compute e changes s2 = (Ok tt, s3) ->
  update_launch_spec rt cloud e changes live s3 = (Ok tt, s4) ->
  get_path ["Capacity"; "Target"] (us_group s4) = None.
Proof.
  intros H1 H2 H3 H4.
  apply (run_stable _ _ _ _ _ H4 (target_launch_spec rt cloud e changes live None)).
  apply (run_stable _ _ _ _ _ H3 (target_compute e changes None)).
  apply (run_stable _ _ _ _ _ H2 (target_strategy e changes None)).
  apply (run_stable _ _ _ _ _ H1 (target_region e changes None)).
  reflexivity.
Qed.

(** A successful [update] sends at most the group its body built. *)
Lemma update_sent_group rt cloud a e changes n live s g :
  Name e = Some n -> find cloud n = Ok live ->
  (forall g, cloud_NewElastigroup cloud g = Ok g) ->
  update rt cloud a e changes = (Ok tt, s) -> In g (us_updates s) ->
  exists sb, update_body rt cloud a e changes live (upd_start live) = (Ok tt, sb) /\
             g = us_group sb.
Proof.
  intros HN Hf HNew H Hg.
  destruct (update_run _ _ _ _ _ _ _ _ _ HN Hf H) as (rb & sb & Hb & Hr).
  destruct rb as [[]|err]; [| destruct Hr as [Hr _]; discriminate].
  exists sb; split; [exact Hb|].
  destruct (update_finish_updates _ _ _ _ _ _ HNew Hr g Hg) as [Hin|Heq]; [|exact Heq].
  assert (Hl : us_warnings sb = [] /\ us_updates sb = [])
    by (apply (run_stable _ _ _ _ _ Hb (update_body_log rt cloud a e changes live [] []));
        split; reflexivity).
  rewrite (proj2 Hl) in Hin; destruct Hin.
Qed.

(** C2: against the live group {Min 2, Max 4, Target 4}, an update whose
    changes hold only MaxSize (desired {Min 2, Max 5}) sends a group with
    only the capacity maximum set, leaving the target out; one whose
    changes hold MinSize and MaxSize (desired {Min 5, Max 5}) sends the
    minimum, the maximum and a target of 5.  In general the target sent is
    set if and only if MinSize is in the changes and the live target is
    strictly below the desired minimum, and it is then that minimum. *)
Theorem update_capacity_target_raise :
  (exists s,
     update (sampleRuntime storedOrder) capacityCloud capacityActual
            (desiredGroup "nodes" 2 5) (capacityChanges None (Some 5%Z)) = (Ok tt, s) /\
     us_updates s = [VObj [("ID", VStr "sig-0001");
                           ("Capacity", VObj [("Maximum", VInt 5)])]]) /\
  (exists s,
     update (sampleRuntime storedOrder) capacityCloud capacityActual
            (desiredGroup "nodes" 5 5) (capacityChanges (Some 5%Z) (Some 5%Z)) = (Ok tt, s) /\
     us_updates s = [VObj [("ID", VStr "sig-0001");
                           ("Capacity", VObj [("Minimum", VInt 5); ("Target", VInt 5);
                                              ("Maximum", VInt 5)])]]) /\
  (forall rt cloud a e changes n live s g,
     Name e = Some n -> find cloud n = Ok live ->
     (forall g, cloud_NewElastigroup cloud g = Ok g) ->
     update rt cloud a e changes = (Ok tt, s) -> In g (us_updates s) ->
     get_path ["Capacity"; "Target"] g =
       if is_set (MinSize changes) then
         match MinSize e, as_int (get_path ["Capacity"; "Target"] live) with
         | Some m, Some t => if (t <? m)%Z then Some (VInt m) else None
         | _, _ => None
         end
       else None).
Proof.
  split; [eexists; split; [vm_compute; reflexivity | reflexivity]|].
  split; [eexists; split; [vm_compute; reflexivity | reflexivity]|].
  intros rt cloud a e changes n live s g HN Hf HNew H Hg.
  destruct (update_sent_group _ _ _ _ _ _ _ _ _ HN Hf HNew H Hg) as (sb & Hb & ->).
  destruct (update_body_blocks _ _ _ _ _ _ _ _ Hb)
    as (s1 & s2 & s3 & s4 & s5 & H1 & H2 & H3 & H4 & H5 & H6).
  rewrite (run_stable _ _ _ _ _ H6 (target_auto_scaler rt a e changes _) eq_refl).
  rewrite (update_capacity_target _ _ _ _ _ H5).
  rewrite (target_before_capacity _ _ _ _ _ _ _ _ _ H1 H2 H3 H4).
  reflexivity.
Qed.

Lemma update_capacity_target_raise_witness :
  update (sampleRuntime storedOrder) capacityCloud capacityActual
         (desiredGroup "nodes" 5 5) (capacityChanges (Some 5%Z) (Some 5%Z)) =
    (Ok tt, snd (update (sampleRuntime storedOrder) capacityCloud capacityActual
                        (desiredGroup "nodes" 5 5) (capacityChanges (Some 5%Z) (Some 5%Z)))) /\
  get_path ["Capacity"; "Target"]
    (VObj [("ID", VStr "sig-0001");
           ("Capacity", VObj [("Minimum", VInt 5); ("Target", VInt 5); ("Maximum", VInt 5)])])
  = Some (VInt 5).
Proof.
  split; [vm_compute; reflexivity|].
  exact (proj2 (proj2 update_capacity_target_raise)
           (sampleRuntime storedOrder) capacityCloud capacityActual
           (desiredGroup "nodes" 5 5) (capacityChanges (Some 5%Z) (Some 5%Z))
           "nodes" (liveGroup "nodes" 2 4 4 None)
           (snd (update (sampleRuntime storedOrder) capacityCloud capacityActual
                        (desiredGroup "nodes" 5 5) (capacityChanges (Some 5%Z) (Some 5%Z))))
           (VObj [("ID", VStr "sig-0001");
                  ("Capacity", VObj [("Minimum", VInt 5); ("Target", VInt 5);
                                     ("Maximum", VInt 5)])])
           eq_refl eq_refl (fun g => eq_refl)
           ltac:(vm_compute; reflexivity) ltac:(vm_compute; left; reflexivity)).
Defined.

(** Every field [update] handles, other than the load balancer, is cleared
    by a successful body run when it is in the changes. *)
Lemma update_body_clears rt cloud a e changes actual f :
  ~ In f [FName; FLifecycle; FID; FLoadBalancer] -> populated changes f = true ->
  post (fun s => In f (us_cleared s)) (update_body rt cloud a e changes actual).
Proof.
  intros Hf Hp.
  destruct f; simpl in Hp; try (exfalso; apply Hf; simpl; tauto); unfold_update; post_find.
Qed.

Lemma update_body_load_balancer rt cloud a e changes actual :
  is_set (LoadBalancer changes) = true ->
  post (fun s => In FLoadBalancer (us_cleared s) \/
                 exists l, LoadBalancer e = Some l /\
                   cloud_FindELBByNameTag cloud (StringValue (lb_Name l)) = Ok None /\
                   cloud_FindELBV2ByNameTag cloud (StringValue (lb_Name l)) = Ok None)
       (update_body rt cloud a e changes actual).
Proof.
  intros Hp.
  unfold update_body, update_region, update_strategy, update_compute,
    update_launch_spec, update_capacity, update_auto_scaler_block.
  post_find.
Qed.

Lemma field_eqb_refl f : field_eqb f f = true.
Proof. destruct f; reflexivity. Qed.

Lemma field_eq_dec (f g : field) : {f = g} + {f <> g}.
Proof. decide equality. Qed.

(** [residual], unfolded (stated with the filter on the left, which keeps
    the kernel from expanding the field list when it checks the equation). *)
Lemma residual_eq changes cl :
  residual changes cl =
  filter (fun f => populated changes f && negb (existsb (field_eqb f) cl)) all_fields.
Proof.
  exact (eq_refl (filter (fun f => populated changes f && negb (existsb (field_eqb f) cl))
                         all_fields)).
Qed.

Lemma residual_inv changes cl f :
  In f (residual changes cl) -> populated changes f = true /\ ~ In f cl.
Proof.
  rewrite residual_eq. intros Hin. apply filter_In in Hin as [_ Hf].
  apply andb_prop in Hf as [Hp Hn]. split; [exact Hp|].
  intro Hc. assert (Hx : existsb (field_eqb f) cl = true)
    by (apply existsb_exists; exists f; split; [exact Hc | apply field_eqb_refl]).
  rewrite Hx in Hn; discriminate.
Qed.

(** A field left in [changes] after a successful body run is one the body
    never handles, or the load balancer when neither lookup found it. *)
Lemma update_body_residual rt cloud a e changes actual s0 sb f :
  update_body rt cloud a e changes actual s0 = (Ok tt, sb) ->
  In f (residual changes (us_cleared sb)) ->
  In f [FName; FLifecycle; FID] \/
  (f = FLoadBalancer /\
   exists l, LoadBalancer e = Some l /\
     cloud_FindELBByNameTag cloud (StringValue (lb_Name l)) = Ok None /\
     cloud_FindELBV2ByNameTag cloud (StringValue (lb_Name l)) = Ok None).
Proof.
  intros Hb Hin. apply residual_inv in Hin as [Hp Hc].
  destruct (in_dec field_eq_dec f [FName; FLifecycle; FID; FLoadBalancer]) as [H4|H4].
  - simpl in H4. destruct H4 as [<-|[<-|[<-|[<-|[]]]]]; [left; simpl; tauto..|].
    right; split; [reflexivity|].
    destruct (run_post _ _ _ _ _ Hb (update_body_load_balancer rt cloud a e changes actual Hp))
      as [Hl|Hl]; [contradiction|exact Hl].
  - exfalso; apply Hc.
    exact (run_post _ _ _ _ _ Hb (update_body_clears rt cloud a e changes actual f H4 Hp)).
Qed.

(** C4: on a group found with an ID, with a provider accepting the update,
    a successful render of [changes] makes [update] succeed; its only
    warning is the list of change fields still populated after rendering,
    emitted when that list is non-empty; and every field left populated is
    one the renderer does not handle (Name, Lifecycle, ID), or the load
    balancer when neither a classic nor a network load balancer of its name
    was found: every handled field was cleared. *)
Theorem update_residual_warning rt cloud a e changes n live id sb :
  Name e = Some n -> find cloud n = Ok live -> as_str (fld live "ID") = Some id ->
  (forall g, cloud_NewElastigroup cloud g = Ok g) ->
  (forall g, cloud_Update cloud g = None) ->
  update_body rt cloud a e changes live (upd_start live) = (Ok tt, sb) ->
  fst (update rt cloud a e changes) = Ok tt /\
  us_warnings (snd (update rt cloud a e changes)) =
    match residual changes (us_cleared sb) with [] => [] | l => [l] end /\
  (forall f, In f (residual changes (us_cleared sb)) ->
     In f [FName; FLifecycle; FID] \/
     (f = FLoadBalancer /\
      exists l, LoadBalancer e = Some l /\
        cloud_FindELBByNameTag cloud (StringValue (lb_Name l)) = Ok None /\
        cloud_FindELBV2ByNameTag cloud (StringValue (lb_Name l)) = Ok None)).
Proof.
  intros HN Hf HID HNew HUpd Hb.
  destruct (update rt cloud a e changes) as [r s] eqn:HU.
  destruct (update_run _ _ _ _ _ _ _ _ _ HN Hf HU) as (rb & sb' & Hb' & Hr).
  rewrite Hb in Hb'. injection Hb' as <- <-.
  rewrite HID, (update_finish_ok _ _ _ _ HNew HUpd) in Hr.
  injection Hr as <- <-. cbn [fst snd us_warnings].
  assert (Hl : us_warnings sb = [] /\ us_updates sb = [])
    by (apply (run_stable _ _ _ _ _ Hb (update_body_log rt cloud a e changes live [] []));
        split; reflexivity).
  rewrite (proj1 Hl). split; [reflexivity|]. split; [reflexivity|].
  intros f Hin. exact (update_body_residual _ _ _ _ _ _ _ _ _ Hb Hin).
Qed.

Lemma update_residual_warning_witness :
  fst (update (sampleRuntime storedOrder) capacityCloud capacityActual
              (desiredGroup "nodes" 2 5) (desiredGroup "nodes" 2 5)) = Ok tt /\
  us_warnings (snd (update (sampleRuntime storedOrder) capacityCloud capacityActual
                           (desiredGroup "nodes" 2 5) (desiredGroup "nodes" 2 5))) =
    [[FName; FLifecycle]].
Proof.
  destruct (update_residual_warning (sampleRuntime storedOrder) capacityCloud capacityActual
              (desiredGroup "nodes" 2 5) (desiredGroup "nodes" 2 5) "nodes"
              (liveGroup "nodes" 2 4 4 None) "sig-0001"
              (snd (update_body (sampleRuntime storedOrder) capacityCloud capacityActual
                      (desiredGroup "nodes" 2 5) (desiredGroup "nodes" 2 5)
                      (liveGroup "nodes" 2 4 4 None) (upd_start (liveGroup "nodes" 2 4 4 None))))
              eq_refl eq_refl eq_refl (fun g => eq_refl) (fun g => eq_refl)
              ltac:(vm_compute; reflexivity)) as [H1 [H2 _]].
  split; [exact H1|]. rewrite H2. vm_compute. reflexivity.
Defined.

(** C8: [CheckChanges] requires the name only, whatever the actual state
    and the changes; missing capacity bounds are not reported by it, and
    [create] then stops on a nil dereference of the missing bound before any
    provider call. *)
Theorem CheckChanges_required_fields :
  (forall a e changes,
     CheckChanges a e changes =
       if is_set (Name e) then Ok tt else Error (ErrRequiredField "Name")) /\
  (forall rt cloud fuel a e changes n,
     Name e = Some n -> MinSize e = None ->
     create rt cloud fuel a e changes =
       (applyDefaults e, Returned (Error (ErrPanic "nil pointer dereference: e.MinSize")), [])) /\
  (forall rt cloud fuel a e changes n m,
     Name e = Some n -> MinSize e = Some m -> MaxSize e = None ->
     create rt cloud fuel a e changes =
       (applyDefaults e, Returned (Error (ErrPanic "nil pointer dereference: e.MaxSize")), [])).
Proof.
  split; [intros a e changes; unfold CheckChanges; destruct (Name e); reflexivity|].
  split.
  - intros rt cloud fuel a e changes n HN Hm. unfold create. rewrite HN.
    cbv beta iota delta [create_group rbind create_general create_capacity].
    change (MinSize (applyDefaults e)) with (MinSize e). rewrite Hm. reflexivity.
  - intros rt cloud fuel a e changes n m HN Hm HM. unfold create. rewrite HN.
    cbv beta iota delta [create_group rbind create_general create_capacity].
    change (MinSize (applyDefaults e)) with (MinSize e).
    change (MaxSize (applyDefaults e)) with (MaxSize e). rewrite Hm, HM. reflexivity.
Qed.

Lemma CheckChanges_required_fields_witness :
  create (sampleRuntime storedOrder) capacityCloud 3%nat None (unsizedGroup "nodes") None =
    (applyDefaults (unsizedGroup "nodes"),
     Returned (Error (ErrPanic "nil pointer dereference: e.MinSize")), []).
Proof.
  exact (proj1 (proj2 CheckChanges_required_fields) (sampleRuntime storedOrder) capacityCloud 3%nat
           None (unsizedGroup "nodes") None "nodes" eq_refl eq_refl).
Defined.

(** C8, counterexample: a desired group with a name and no capacity bounds
    passes [CheckChanges]. *)
Lemma CheckChanges_unsized_ok :
  MinSize (unsizedGroup "nodes") = None /\ MaxSize (unsizedGroup "nodes") = None /\
  CheckChanges None (unsizedGroup "nodes") None = Ok tt.
Proof. split; [|split]; reflexivity. Qed.

Lemma convertBlockDeviceMapping_legal i : ebs_kind_legal (convertBlockDeviceMapping i).
Proof.
  destruct i as [dn vn del sz ty io th]; unfold ebs_kind_legal, convertBlockDeviceMapping.
  destruct ty as [t|]; cbn [bdm_DeviceName bdm_VirtualName bdm_EbsDeleteOnTermination
    bdm_EbsVolumeSize bdm_EbsVolumeType bdm_EbsVolumeIops bdm_EbsVolumeThroughput
    StringValue is_set].
  - destruct (String.eqb t "gp2") eqn:E2; destruct (String.eqb t "gp3") eqn:E3;
      [apply String.eqb_eq in E2, E3; subst; discriminate E3|..];
      destruct dn, vn, del, sz, io, th; simpl;
      rewrite ?E2, ?E3; simpl;
      try (split; intro H; first [reflexivity | congruence | exfalso; apply H; reflexivity]);
      try (apply String.eqb_eq in E3; subst t);
      try (apply String.eqb_eq in E2; subst t);
      split; intro H; first [reflexivity | discriminate H | exfalso; apply H; reflexivity
                             | injection H as H; subst t; discriminate].
  - destruct dn, vn, del, sz, io, th; simpl;
      split; intro H; first [reflexivity | discriminate H | exfalso; apply H; reflexivity].
Qed.

(** C6: the root device [buildRootDevice] builds carries no IOPS on a gp2
    volume and a throughput on a gp3 volume only; every converted mapping,
    hence every mapping the launch specification is given, has no IOPS on a
    gp2 volume and a throughput on a gp3 volume only. *)
Theorem root_device_kind_legal :
  (forall cloud vo imageID d,
     buildRootDevice cloud vo imageID = Ok d ->
     (bdm_EbsVolumeType d = Some "gp2" -> bdm_EbsVolumeIops d = None) /\
     (bdm_EbsVolumeThroughput d <> None -> bdm_EbsVolumeType d = Some "gp3")) /\
  (forall i, ebs_kind_legal (convertBlockDeviceMapping i)) /\
  (forall cloud opts e l,
     block_device_mappings cloud opts e = Ok (VList l) -> Forall ebs_kind_legal l).
Proof.
  split; [|split; [exact convertBlockDeviceMapping_legal|]].
  - intros cloud vo imageID d H. unfold buildRootDevice, rbind in H.
    destruct (resolveImage cloud (StringValue imageID)) as [img|err]; [|discriminate].
    destruct vo as [[ty sz io th op]|]; [|discriminate].
    injection H as <-. cbn [bdm_EbsVolumeType bdm_EbsVolumeIops bdm_EbsVolumeThroughput
                            rv_Type rv_IOPS rv_Throughput].
    destruct ty as [t|]; cbn [StringValue].
    + split.
      * intros Ht; injection Ht as ->. destruct (is_set io); reflexivity.
      * destruct (is_set th); [|intro Hn; exfalso; apply Hn; reflexivity].
        destruct (String.eqb t "gp3") eqn:E; [apply String.eqb_eq in E; subst; reflexivity|].
        intro Hn; exfalso; apply Hn; reflexivity.
    + split; [discriminate|].
      destruct (is_set th); intro Hn; exfalso; apply Hn; reflexivity.
  - intros cloud opts e l H. unfold block_device_mappings, rbind in H.
    destruct (buildRootDevice cloud opts (ImageID e)) as [r|err]; [|discriminate].
    destruct (buildEphemeralDevices cloud (OnDemandInstanceType e)) as [eds|err]; [|discriminate].
    injection H as <-. apply Forall_forall. intros v Hv.
    destruct Hv as [<-|Hv]; [apply convertBlockDeviceMapping_legal|].
    apply in_map_iff in Hv as (i & <- & _). apply convertBlockDeviceMapping_legal.
Qed.

Lemma root_device_kind_legal_witness :
  Forall ebs_kind_legal
    [convertBlockDeviceMapping
       {| bdm_DeviceName := Some "/dev/xvda"; bdm_VirtualName := None;
          bdm_EbsDeleteOnTermination := Some true; bdm_EbsVolumeSize := Some 64%Z;
          bdm_EbsVolumeType := Some "gp2"; bdm_EbsVolumeIops := None;
          bdm_EbsVolumeThroughput := None |}].
Proof.
  apply (proj2 (proj2 root_device_kind_legal) capacityCloud
           (Some {| rv_Type := Some "gp2"; rv_Size := Some 64%Z; rv_IOPS := Some 3000%Z;
                    rv_Throughput := Some 125%Z; rv_Optimization := None |})
           (desiredGroup "nodes" 2 4)).
  vm_compute. reflexivity.
Defined.

Lemma find_none {A} (f : A -> bool) l :
  (forall x, In x l -> f x = false) -> List.find f l = None.
Proof.
  induction l as [|x l IH]; intros H; [reflexivity|]. simpl.
  rewrite (H x (or_introl eq_refl)). apply IH. intros y Hy. apply H. right; exact Hy.
Qed.

(** C3: when the listing succeeds and no group has the desired name, [find]
    and [Find] fail with the not-found error; the absence is reported as no
    error by [CheckExisting] alone, which answers [false], and with no actual
    task [createOrUpdate] takes the create path. *)
Theorem find_absent_error rt cloud e n groups :
  Name e = Some n -> cloud_List cloud = Ok groups ->
  (forall g, In g groups -> group_name g <> n) ->
  find cloud n = Error (ErrMsg ("spotinst: failed to find elastigroup " ++ dq ++ n ++ dq)) /\
  Find rt cloud e = Error (ErrMsg ("spotinst: failed to find elastigroup " ++ dq ++ n ++ dq)) /\
  CheckExisting cloud e = Ok false /\
  createOrUpdate_path None = PathCreate.
Proof.
  intros HN HL Hg.
  assert (Hf : find cloud n =
               Error (ErrMsg ("spotinst: failed to find elastigroup " ++ dq ++ n ++ dq))).
  { unfold find. rewrite HL, find_none; [reflexivity|].
    intros g Hin. apply String.eqb_neq, Hg, Hin. }
  split; [exact Hf|]. split; [unfold Find; rewrite HN, Hf; reflexivity|].
  split; [unfold CheckExisting; rewrite HN, Hf; reflexivity | reflexivity].
Qed.

Lemma find_absent_error_witness :
  Find (sampleRuntime storedOrder) (sampleCloud (Ok [liveGroup "other" 1 1 1 None]) None None alwaysOk)
       (desiredGroup "nodes" 2 4) =
    Error (ErrMsg ("spotinst: failed to find elastigroup " ++ dq ++ "nodes" ++ dq)).
Proof.
  refine (proj1 (proj2 (find_absent_error (sampleRuntime storedOrder)
            (sampleCloud (Ok [liveGroup "other" 1 1 1 None]) None None alwaysOk)
            (desiredGroup "nodes" 2 4) "nodes" [liveGroup "other" 1 1 1 None]
            eq_refl eq_refl _))).
  intros g [<-|[]]. vm_compute. discriminate.
Defined.

(** C3, counterexample: with an empty listing, [Find] for the group
    [nodes] is an error, not an absent result. *)
Lemma Find_absent_is_error :
  Find (sampleRuntime storedOrder) (sampleCloud (Ok []) None None alwaysOk)
       (desiredGroup "nodes" 2 4) =
    Error (ErrMsg ("spotinst: failed to find elastigroup " ++ dq ++ "nodes" ++ dq)).
Proof. vm_compute. reflexivity. Qed.

(** C9: two legal map orders (the stored one and its reverse: both
    permutations of every map) give different Terraform documents for the
    same desired group with two tags, since [buildTags] lists the tags in
    the order the map is ranged over. *)
Theorem terraform_document_order_dependent :
  MapOrder_ok storedOrder /\ MapOrder_ok reversedOrder /\
  exists d1 d2,
    terraform_document (sampleRuntime storedOrder) capacityCloud
      (withTags (Some [("a", "1"); ("b", "2")]) (desiredGroup "nodes" 2 4)) = Ok d1 /\
    terraform_document (sampleRuntime reversedOrder) capacityCloud
      (withTags (Some [("a", "1"); ("b", "2")]) (desiredGroup "nodes" 2 4)) = Ok d2 /\
    d1 <> d2.
Proof.
  split; [intros n m; apply Permutation_refl|].
  split; [intros n m; apply Permutation_sym, Permutation_rev|].
  eexists; eexists; split; [vm_compute; reflexivity|]. split; [vm_compute; reflexivity|].
  vm_compute. discriminate.
Qed.

(** [readyLoop] against a provider answering every [Create] with an error
    that is not a [client.Errors]: every iteration sleeps, calls [Create]
    and goes round again. *)
Lemma readyLoop_other cloud e group mA msg fuel attempt :
  cloud_NewElastigroup cloud group = Ok group ->
  (forall i, cloud_Create cloud i = CreateOtherError msg) ->
  readyLoop cloud e group mA fuel attempt = (StillLooping, attemptEvents (S attempt) fuel).
Proof.
  intros HNew HC. revert attempt.
  induction fuel as [|fuel IH]; intros attempt; [reflexivity|].
  simpl. rewrite HNew, HC, IH. reflexivity.
Qed.

(** C1: when [Create] fails with an error that is not a [client.Errors], the
    loop never returns: after any number of iterations [create] is still
    looping, having slept and called [Create] once per iteration.  A
    [client.Errors] without the transient message fails after one call;
    the transient message on every call fails after 11 calls (the first and
    10 retries, 10 seconds apart) with the last provider message. *)
Theorem create_retry_unbounded :
  (forall rt cloud fuel a e changes n g msg,
     Name e = Some n -> create_group rt cloud (applyDefaults e) = Ok g ->
     cloud_NewElastigroup cloud g = Ok g ->
     (forall i, cloud_Create cloud i = CreateOtherError msg) ->
     create rt cloud fuel a e changes = (applyDefaults e, StillLooping, attemptEvents 1 fuel)) /\
  (let r := create (sampleRuntime storedOrder) rejectingCloud 20 None
                   (desiredGroup "nodes" 2 4) None in
   snd (fst r) = Returned (Error (ErrWrap "spotinst: failed to create elastigroup"
                                          (ErrProvider "Invalid subnet"))) /\
   snd r = attemptEvents 1 1%nat) /\
  (let r := create (sampleRuntime storedOrder) transientCloud 20 None
                   (desiredGroup "nodes" 2 4) None in
   snd (fst r) = Returned (Error (ErrWrap "IAM instance profile not yet created/propagated"
                                          (ErrProvider transientMessage))) /\
   snd r = attemptEvents 1 11%nat).
Proof.
  split; [|split; vm_compute; split; reflexivity].
  intros rt cloud fuel a e changes n g msg HN Hg HNew HC.
  unfold create. rewrite HN, Hg, (readyLoop_other _ _ _ _ _ _ _ HNew HC). reflexivity.
Qed.

Lemma create_retry_unbounded_witness :
  create (sampleRuntime storedOrder) transportCloud 50%nat None (desiredGroup "nodes" 2 4) None =
    (applyDefaults (desiredGroup "nodes" 2 4), StillLooping, attemptEvents 1 50%nat).
Proof.
  apply (proj1 create_retry_unbounded (sampleRuntime storedOrder) transportCloud 50%nat None
           (desiredGroup "nodes" 2 4) None "nodes"
           (match create_group (sampleRuntime storedOrder) transportCloud
                    (applyDefaults (desiredGroup "nodes" 2 4)) with
            | Ok g => g | Error _ => emptyObj end)
           "connection reset by peer"); reflexivity.
Defined.

Ltac keeps_tac :=
  intros g; cbv beta iota zeta delta [create_compute create_launch_spec create_block_devices
    create_image create_user_data create_iam create_security_groups create_public_ip
    create_load_balancer create_tags create_health_check create_auto_scaler rbind];
  repeat (match goal with
          | |- context [match ?x with _ => _ end] =>
              lazymatch x with context [match _ with _ => _ end] => fail | _ => destruct x end
          end; cbv beta iota);
  rewrite ?get_set_path_diverge by reflexivity; first [reflexivity | exact I].

Lemma keeps_compute e : keeps orientationPath (create_compute e).
Proof. keeps_tac. Qed.
Lemma keeps_launch_spec e : keeps orientationPath (create_launch_spec e).
Proof. keeps_tac. Qed.
Lemma keeps_block_devices cloud e : keeps orientationPath (create_block_devices cloud e).
Proof. keeps_tac. Qed.
Lemma keeps_image cloud e : keeps orientationPath (create_image cloud e).
Proof. keeps_tac. Qed.
Lemma keeps_user_data rt e : keeps orientationPath (create_user_data rt e).
Proof. keeps_tac. Qed.
Lemma keeps_iam e : keeps orientationPath (create_iam e).
Proof. keeps_tac. Qed.
Lemma keeps_security_groups e : keeps orientationPath (create_security_groups e).
Proof. keeps_tac. Qed.
Lemma keeps_public_ip e : keeps orientationPath (create_public_ip e).
Proof. keeps_tac. Qed.
Lemma keeps_load_balancer cloud e : keeps orientationPath (create_load_balancer cloud e).
Proof. keeps_tac. Qed.
Lemma keeps_tags rt e : keeps orientationPath (create_tags rt e).
Proof. keeps_tac. Qed.
Lemma keeps_health_check e : keeps orientationPath (create_health_check e).
Proof. keeps_tac. Qed.
Lemma keeps_auto_scaler rt e : keeps orientationPath (create_auto_scaler rt e).
Proof. keeps_tac. Qed.

Lemma keeps_step q f g g' : keeps q f -> f g = Ok g' -> get_path q g' = get_path q g.
Proof. intros K H. specialize (K g). rewrite H in K. exact K. Qed.

Lemma create_strategy_orientation e g g' :
  create_strategy e g = Ok g' ->
  get_path orientationPath g' = Some (VStr (normalizeOrientation (Orientation e))).
Proof.
  intros H.
  apply (f_equal (fun r => match r with Ok v => get_path orientationPath v | Error _ => None end))
    in H.
  unfold create_strategy in H. cbv beta iota zeta in H. rewrite <- H.
  destruct (DrainingTimeout e); rewrite ?get_set_path_diverge by reflexivity;
    apply get_set_path_same.
Qed.

Lemma normalizeOrientation_applyDefaults e :
  normalizeOrientation (Orientation (applyDefaults e)) = normalizeOrientation (Orientation e).
Proof.
  unfold applyDefaults; cbn [Orientation]. destruct (Orientation e) as [o|]; [|reflexivity].
  destruct (String.eqb o "") eqn:E; [|reflexivity].
  apply String.eqb_eq in E; subst o. reflexivity.
Qed.

Ltac peel H :=
  match type of H with
  | rbind ?r _ = _ =>
      let E := fresh "E" in
      destruct r eqn:E; cbn [rbind] in H; [|discriminate H]
  end.

(** The group [create_group] builds carries the normalized orientation. *)
Lemma create_group_orientation rt cloud e g :
  create_group rt cloud e = Ok g ->
  get_path orientationPath g = Some (VStr (normalizeOrientation (Orientation e))).
Proof.
  intros H. unfold create_group in H. repeat peel H.
  repeat match goal with
  | E : ?f ?x = Ok ?y |- get_path orientationPath ?y = _ =>
      first [ rewrite (keeps_step _ _ _ _ (keeps_auto_scaler _ _) E)
            | rewrite (keeps_step _ _ _ _ (keeps_health_check _) E)
            | rewrite (keeps_step _ _ _ _ (keeps_tags _ _) E)
            | rewrite (keeps_step _ _ _ _ (keeps_load_balancer _ _) E)
            | rewrite (keeps_step _ _ _ _ (keeps_public_ip _) E)
            | rewrite (keeps_step _ _ _ _ (keeps_security_groups _) E)
            | rewrite (keeps_step _ _ _ _ (keeps_iam _) E)
            | rewrite (keeps_step _ _ _ _ (keeps_user_data _ _) E)
            | rewrite (keeps_step _ _ _ _ (keeps_image _ _) E)
            | rewrite (keeps_step _ _ _ _ (keeps_block_devices _ _) E)
            | rewrite (keeps_step _ _ _ _ (keeps_launch_spec _) E)
            | rewrite (keeps_step _ _ _ _ (keeps_compute _) E) ]; clear E
  end.
  match goal with E : create_strategy _ _ = Ok _ |- _ => exact (create_strategy_orientation _ _ _ E) end.
Qed.

(** A group [update] sends with the orientation in its changes carries the
    normalized orientation. *)
Lemma update_orientation_sent rt cloud a e changes n live s g :
  Name e = Some n -> find cloud n = Ok live ->
  (forall g, cloud_NewElastigroup cloud g = Ok g) ->
  update rt cloud a e changes = (Ok tt, s) -> In g (us_updates s) ->
  is_set (Orientation changes) = true ->
  get_path orientationPath g = Some (VStr (normalizeOrientation (Orientation e))).
Proof.
  intros HN Hf HNew H Hg Ho.
  destruct (update_sent_group _ _ _ _ _ _ _ _ _ HN Hf HNew H Hg) as (sb & Hb & ->).
  destruct (update_body_blocks _ _ _ _ _ _ _ _ Hb)
    as (s1 & s2 & s3 & s4 & s5 & H1 & H2 & H3 & H4 & H5 & H6).
  destruct (update_strategy_orientation _ _ _ _ H2 Ho) as [Hs2 _].
  apply (run_stable _ _ _ _ _ H6 (orientation_auto_scaler rt a e changes _)).
  apply (run_stable _ _ _ _ _ H5 (orientation_capacity e changes live _)).
  apply (run_stable _ _ _ _ _ H4 (orientation_launch_spec rt cloud e changes live _)).
  apply (run_stable _ _ _ _ _ H3 (orientation_compute e changes _)).
  exact Hs2.
Qed.

(** The Terraform resource carries the normalized orientation. *)
Lemma RenderTerraform_orientation rt cloud e tf outs :
  RenderTerraform rt cloud e = Ok (tf, outs) ->
  assoc "orientation" (obj_fields tf) = Some (VStr (normalizeOrientation (Orientation e))).
Proof.
  intros H. unfold RenderTerraform in H. cbv beta zeta delta [rbind] in H.
  repeat match type of H with
  | (match ?x with _ => _ end) = _ => destruct x; try discriminate H
  end.
  apply (f_equal (fun r => match r with
                           | Ok (t, _) => assoc "orientation" (obj_fields t)
                           | Error _ => None end)) in H.
  cbv beta iota in H. rewrite <- H.
  repeat (rewrite assoc_lit_cons; cbv beta iota delta [String.eqb Ascii.eqb Bool.eqb]).
  rewrite normalizeOrientation_applyDefaults. reflexivity.
Qed.

(** C10: [normalizeOrientation] maps "cost", "availability" and
    "equal-distribution" to the provider's orientations and everything else
    (nil, the empty string, any other string) to "balanced"; the group
    [create] submits, every group [update] sends with the orientation in its
    changes, and the Terraform resource all carry [normalizeOrientation] of
    the task's orientation ([applyDefaults], run by [create] and
    [RenderTerraform], does not change that value). *)
Theorem orientation_normalized_everywhere :
  (normalizeOrientation (Some "cost") = "costOriented" /\
   normalizeOrientation (Some "availability") = "availabilityOriented" /\
   normalizeOrientation (Some "equal-distribution") = "equalAzDistribution" /\
   forall o, o <> Some "cost" -> o <> Some "availability" -> o <> Some "equal-distribution" ->
     normalizeOrientation o = "balanced") /\
  (forall rt cloud e g,
     create_group rt cloud (applyDefaults e) = Ok g ->
     get_path orientationPath g = Some (VStr (normalizeOrientation (Orientation e)))) /\
  (forall rt cloud a e changes n live s g,
     Name e = Some n -> find cloud n = Ok live ->
     (forall g, cloud_NewElastigroup cloud g = Ok g) ->
     update rt cloud a e changes = (Ok tt, s) -> In g (us_updates s) ->
     is_set (Orientation changes) = true ->
     get_path orientationPath g = Some (VStr (normalizeOrientation (Orientation e)))) /\
  (forall rt cloud e tf outs,
     RenderTerraform rt cloud e = Ok (tf, outs) ->
     assoc "orientation" (obj_fields tf) = Some (VStr (normalizeOrientation (Orientation e)))).
Proof.
  split; [|split; [|split]].
  - split; [reflexivity|]. split; [reflexivity|]. split; [reflexivity|].
    intros [o|] H1 H2 H3; [|reflexivity]. simpl.
    destruct (String.eqb o "cost") eqn:E1; [apply String.eqb_eq in E1; subst; congruence|].
    destruct (String.eqb o "availability") eqn:E2; [apply String.eqb_eq in E2; subst; congruence|].
    destruct (String.eqb o "equal-distribution") eqn:E3;
      [apply String.eqb_eq in E3; subst; congruence|reflexivity].
  - intros rt cloud e g H. rewrite <- normalizeOrientation_applyDefaults.
    exact (create_group_orientation _ _ _ _ H).
  - exact update_orientation_sent.
  - exact RenderTerraform_orientation.
Qed.

Lemma orientation_normalized_everywhere_witness :
  get_path orientationPath
    (match create_group (sampleRuntime storedOrder) capacityCloud
             (applyDefaults (withOrientation (Some "cost") (desiredGroup "nodes" 2 4))) with
     | Ok g => g | Error _ => emptyObj end) = Some (VStr "costOriented").
Proof.
  exact (proj1 (proj2 orientation_normalized_everywhere) (sampleRuntime storedOrder) capacityCloud
           (withOrientation (Some "cost") (desiredGroup "nodes" 2 4)) _
           ltac:(vm_compute; reflexivity)).
Defined.

(** C7, failing input: with the load balancer [lb] resolving both ways,
    [Find] on a live group with [lb] attached succeeds, and [update] with the
    load balancer in its changes succeeds, sending the classic one, where
    [create] on the same task fails with the ambiguity error. *)
Lemma load_balancer_both_accepted :
  (exists act, Find (sampleRuntime storedOrder) ambiguousCloud lbGroup = Ok act) /\
  update (sampleRuntime storedOrder) ambiguousCloud emptyElastigroup lbGroup lbChanges =
    (Ok tt, snd (update (sampleRuntime storedOrder) ambiguousCloud emptyElastigroup
                        lbGroup lbChanges)) /\
  us_updates (snd (update (sampleRuntime storedOrder) ambiguousCloud emptyElastigroup
                          lbGroup lbChanges)) =
    [VObj [("ID", VStr "sig-0001");
           ("Compute", VObj [("LaunchSpecification",
                              VObj [("LoadBalancersConfig", lbConfig (Some "lb") "CLASSIC")])])]].
Proof.
  split; [eexists; vm_compute; reflexivity|]. split; vm_compute; reflexivity.
Qed.

(** C7: the ambiguity is fatal only in some paths. When the task's load
    balancer name resolves both as a classic and as a network load balancer,
    the load balancer section of [create] fails with the ambiguity error
    whatever the group, so [create] fails before any [Create] call; but
    [update] lacks that check and silently attaches the classic one; the
    load balancer section of [Find] fails only when the first load balancer
    attached to the live group has another name than the task's, and
    otherwise reports that live load balancer. *)
Theorem load_balancer_ambiguity cloud e l x y :
  LoadBalancer e = Some l ->
  cloud_FindELBByNameTag cloud (StringValue (lb_Name l)) = Ok (Some x) ->
  cloud_FindELBV2ByNameTag cloud (StringValue (lb_Name l)) = Ok (Some y) ->
  (forall g, create_load_balancer cloud e g = Error (ErrMsg "found both elb and nlb:")) /\
  (forall rt fuel a changes, exists err,
     snd (fst (create rt cloud fuel a e changes)) = Returned (Error err) /\
     snd (create rt cloud fuel a e changes) = []) /\
  (forall s, update_load_balancer cloud e s =
     set_ls FLoadBalancer "LoadBalancersConfig" (lbConfig (lbd_LoadBalancerName x) "CLASSIC") s) /\
  (forall lc cfg lb0 rest,
     fld lc "LoadBalancersConfig" = Some cfg -> cfg <> VNull ->
     list_fld cfg "LoadBalancers" = lb0 :: rest ->
     (String.eqb (StringValue (as_str (fld lb0 "Name"))) (StringValue (lb_Name l)) = false ->
      exists msg, find_load_balancer cloud e lc = Error (ErrMsg msg)) /\
     (String.eqb (StringValue (as_str (fld lb0 "Name"))) (StringValue (lb_Name l)) = true ->
      find_load_balancer cloud e lc = Ok (Some {| lb_Name := as_str (fld lb0 "Name") |}))).
Proof.
  intros Hl Hx Hy.
  assert (Hc : forall g, create_load_balancer cloud e g = Error (ErrMsg "found both elb and nlb:")).
  { intros g. unfold create_load_balancer. rewrite Hl. cbv beta iota delta [rbind].
    rewrite Hx, Hy. reflexivity. }
  split; [exact Hc|]. split; [|split].
  - intros rt fuel a changes. unfold create.
    destruct (Name e); [|eexists; split; reflexivity].
    destruct (create_group rt cloud (applyDefaults e)) as [g|err] eqn:Hg;
      [|eexists; split; reflexivity].
    exfalso. unfold create_group in Hg. repeat peel Hg.
    match goal with
    | E : create_load_balancer _ _ _ = Ok _ |- _ =>
        change (LoadBalancer e) with (LoadBalancer (applyDefaults e)) in Hc;
        unfold create_load_balancer in E, Hc
    end.
    match goal with
    | E : (match LoadBalancer (applyDefaults e) with _ => _ end) = Ok _ |- _ =>
        rewrite Hc in E; discriminate E
    end.
  - intros s. unfold update_load_balancer. rewrite Hl.
    cbv beta iota delta [deref_opt bind ret lift]. rewrite Hx. reflexivity.
  - intros lc cfg lb0 rest Hcfg Hnn Hlbs. unfold find_load_balancer. rewrite Hcfg.
    destruct cfg; try (exfalso; apply Hnn; reflexivity); rewrite Hlbs, Hl;
      cbv beta iota delta [rbind]; (split; intros Heq; [rewrite Heq|rewrite Heq]);
      cbv beta iota; rewrite ?Hy, ?Hx; cbv beta iota;
      first [eexists; reflexivity | reflexivity].
Qed.

Lemma load_balancer_ambiguity_witness :
  create_load_balancer ambiguousCloud lbGroup emptyObj = Error (ErrMsg "found both elb and nlb:") /\
  (forall s, update_load_balancer ambiguousCloud lbGroup s =
     set_ls FLoadBalancer "LoadBalancersConfig" (lbConfig (Some "lb") "CLASSIC") s).
Proof.
  destruct (load_balancer_ambiguity ambiguousCloud lbGroup {| lb_Name := Some "lb" |}
              bothLB bothLB eq_refl eq_refl eq_refl) as (Hc & _ & Hu & _).
  split; [exact (Hc emptyObj)|exact Hu].
Defined.

(** A task value with no populated field is the empty one. *)
Lemma unpopulated_empty changes :
  (forall f, populated changes f = false) -> changes = emptyElastigroup.
Proof.
  intros H. destruct changes.
  pose proof (H FName); pose proof (H FLifecycle); pose proof (H FID); pose proof (H FRegion);
  pose proof (H FMinSize); pose proof (H FMaxSize); pose proof (H FSpotPercentage);
  pose proof (H FUtilizeReservedInstances); pose proof (H FFallbackToOnDemand);
  pose proof (H FDrainingTimeout); pose proof (H FHealthCheckType); pose proof (H FProduct);
  pose proof (H FOrientation); pose proof (H FTags); pose proof (H FUserData);
  pose proof (H FImageID); pose proof (H FOnDemandInstanceType);
  pose proof (H FSpotInstanceTypes); pose proof (H FIAMInstanceProfile);
  pose proof (H FLoadBalancer); pose proof (H FSSHKey); pose proof (H FSubnets);
  pose proof (H FSecurityGroups); pose proof (H FMonitoring); pose proof (H FAssociatePublicIP);
  pose proof (H FTenancy); pose proof (H FRootVolumeOpts); pose proof (H FAutoScalerOpts).
  clear H. simpl in *.
  repeat match goal with
  | Hx : is_set ?x = false |- _ =>
      destruct x; [discriminate Hx | clear Hx]
  end.
  reflexivity.
Qed.

Lemma update_body_empty rt cloud a e actual s0 :
  update_body rt cloud a e emptyElastigroup actual s0 = (Ok tt, s0).
Proof. destruct s0; reflexivity. Qed.

(** C5: with no change field populated, [update] on a group found with an
    ID makes no provider call, emits no warning and returns [nil] (its state
    is the one it starts its body from).  But a second pass over the same
    desired group is not empty: a group created for the orientation "cost"
    is stored with "costOriented", which [Find] reports back unnormalized,
    so the desired and actual orientations differ, the Delta holds the
    orientation, and [update] sends the group again. *)
Theorem update_empty_noop_not_idempotent :
  (forall rt cloud a e changes n live id,
     (forall f, populated changes f = false) ->
     Name e = Some n -> find cloud n = Ok live -> as_str (fld live "ID") = Some id ->
     update rt cloud a e changes = (Ok tt, upd_start live)) /\
  snd (fst (create (sampleRuntime storedOrder) capacityCloud 1%nat None costGroup None)) =
    Returned (Ok "sig-0001") /\
  exists act,
    Find (sampleRuntime storedOrder) secondPassCloud costGroup = Ok act /\
    Orientation costGroup = Some "cost" /\ Orientation act = Some "costOriented" /\
    populated (orientationDelta act costGroup) FOrientation = true /\
    fst (update (sampleRuntime storedOrder) secondPassCloud act costGroup
                (orientationDelta act costGroup)) = Ok tt /\
    length (us_updates (snd (update (sampleRuntime storedOrder) secondPassCloud act costGroup
                                    (orientationDelta act costGroup)))) = 1%nat.
Proof.
  split.
  - intros rt cloud a e changes n live id Hp HN Hf HID.
    rewrite (unpopulated_empty _ Hp).
    destruct (update rt cloud a e emptyElastigroup) as [r s] eqn:HU.
    destruct (update_run _ _ _ _ _ _ _ _ _ HN Hf HU) as (rb & sb & Hb & Hr).
    rewrite update_body_empty in Hb. injection Hb as <- <-.
    rewrite HID in Hr. rewrite <- Hr. destruct live; reflexivity.
  - split; [vm_compute; reflexivity|].
    eexists; split; [vm_compute; reflexivity|].
    split; [reflexivity|]. split; [vm_compute; reflexivity|].
    split; [vm_compute; reflexivity|]. split; vm_compute; reflexivity.
Qed.

Lemma update_empty_noop_not_idempotent_witness :
  update (sampleRuntime storedOrder) capacityCloud capacityActual (desiredGroup "nodes" 2 4)
         emptyElastigroup = (Ok tt, upd_start (liveGroup "nodes" 2 4 4 None)).
Proof.
  exact (proj1 update_empty_noop_not_idempotent (sampleRuntime storedOrder) capacityCloud
           capacityActual (desiredGroup "nodes" 2 4) emptyElastigroup "nodes"
           (liveGroup "nodes" 2 4 4 None) "sig-0001"
           (fun f => ltac:(destruct f; reflexivity)) eq_refl eq_refl eq_refl).
Defined.

(* ------------------------------------------------------------------ *)
(** ** Further properties of the task *)

(** X1: normalizing an already normalized orientation always gives the balanced orientation: the provider values it returns are not among the values it accepts, so normalizeOrientation is not idempotent. *)
Theorem normalizeOrientation_not_idempotent o :
  normalizeOrientation (Some (normalizeOrientation o)) = OrientationBalanced.
Proof.
  destruct o as [o|]; [|reflexivity]. simpl.
  destruct (String.eqb o "cost"); [reflexivity|].
  destruct (String.eqb o "availability"); [reflexivity|].
  destruct (String.eqb o "equal-distribution"); reflexivity.
Qed.

(** X2: applyDefaults is idempotent, and after it FallbackToOnDemand, UtilizeReservedInstances, Monitoring and HealthCheckType are set and Product and Orientation are set to non-empty strings. *)
Theorem applyDefaults_idempotent e :
  applyDefaults (applyDefaults e) = applyDefaults e /\
  is_set (FallbackToOnDemand (applyDefaults e)) = true /\
  is_set (UtilizeReservedInstances (applyDefaults e)) = true /\
  is_set (Monitoring (applyDefaults e)) = true /\
  is_set (HealthCheckType (applyDefaults e)) = true /\
  (exists p, Product (applyDefaults e) = Some p /\ p <> "") /\
  (exists o, Orientation (applyDefaults e) = Some o /\ o <> "").
Proof.
  destruct e as [nm lc id rg mn mx sp ur fb dt hc pr ori tg ud im od st iam lb ssh sn sg mo ap tn rv au].
  unfold applyDefaults; cbn.
  destruct pr as [p|]; [destruct (String.eqb p "") eqn:Ep|];
  (destruct ori as [o|]; [destruct (String.eqb o "") eqn:Eo|]);
  destruct ur, fb, hc, mo; cbn; rewrite ?Ep, ?Eo;
  (split; [reflexivity|]);
  repeat split;
  try (eexists; split; [reflexivity|]);
  try (intro Hx; subst; discriminate);
  try (intro Hx; subst; rewrite String.eqb_refl in *; discriminate).
Qed.

Lemma list_find_split {A} (f : A -> bool) l x :
  List.find f l = Some x <->
  exists pre post, l = (pre ++ x :: post)%list /\ f x = true /\ Forall (fun y => f y = false) pre.
Proof.
  split.
  - induction l as [|y l IH]; simpl; [discriminate|].
    destruct (f y) eqn:Ey.
    + intros H; injection H as <-. exists [], l. repeat split; auto.
    + intros H. destruct (IH H) as (pre & post & -> & Hx & Hp).
      exists (y :: pre), post. repeat split; auto.
  - intros (pre & post & -> & Hx & Hp). induction Hp as [|y pre Hy Hp IH]; simpl.
    + rewrite Hx; reflexivity.
    + rewrite Hy; exact IH.
Qed.

(** X3: When the group listing succeeds, find returns exactly the first listed group whose name is the requested name. *)
Theorem find_first_match cloud n groups g :
  cloud_List cloud = Ok groups ->
  find cloud n = Ok g <->
  exists pre post, groups = (pre ++ g :: post)%list /\ group_name g = n /\
                   Forall (fun h => group_name h <> n) pre.
Proof.
  intros HL. unfold find. rewrite HL.
  split.
  - destruct (List.find (fun g0 => String.eqb (group_name g0) n) groups) as [h|] eqn:E;
      intros H; [|discriminate]. injection H as <-.
    apply list_find_split in E as (pre & post & -> & Hx & Hp).
    exists pre, post. split; [reflexivity|]. split; [apply String.eqb_eq; exact Hx|].
    eapply Forall_impl; [|exact Hp]. intros y Hy. apply String.eqb_neq; exact Hy.
  - intros (pre & post & Hg & Hx & Hp).
    assert (E : List.find (fun g0 => String.eqb (group_name g0) n) groups = Some g).
    { apply list_find_split. exists pre, post. split; [exact Hg|].
      split; [apply String.eqb_eq; exact Hx|].
      eapply Forall_impl; [|exact Hp]. intros y Hy. apply String.eqb_neq; exact Hy. }
    rewrite E; reflexivity.
Qed.

(** X4: For a named task, CheckExisting never fails: it is true exactly when the listing succeeds and contains a group with that name, and false whenever the listing fails. *)
Theorem CheckExisting_listing cloud e n :
  Name e = Some n ->
  (CheckExisting cloud e = Ok true <->
   exists groups g, cloud_List cloud = Ok groups /\ In g groups /\ group_name g = n) /\
  (forall err, cloud_List cloud = Error err -> CheckExisting cloud e = Ok false) /\
  (exists b, CheckExisting cloud e = Ok b).
Proof.
  intros HN. unfold CheckExisting. rewrite HN. unfold find.
  split; [|split].
  - destruct (cloud_List cloud) as [groups|err].
    + destruct (List.find (fun g => String.eqb (group_name g) n) groups) as [h|] eqn:E.
      * split; [|reflexivity]. intros _. apply List.find_some in E as [Hin Hx].
        exists groups, h. split; [reflexivity|]. split; [exact Hin|]. apply String.eqb_eq; exact Hx.
      * split; [discriminate|]. intros (gs & g & Hgs & Hin & Hx). injection Hgs as <-.
        pose proof (List.find_none _ _ E g Hin) as Hf. cbv beta in Hf.
        rewrite Hx, String.eqb_refl in Hf. discriminate.
    + split; [discriminate|]. intros (gs & g & Hgs & _). discriminate.
  - intros err ->. reflexivity.
  - destruct (cloud_List cloud) as [groups|err];
      [destruct (List.find (fun g => String.eqb (group_name g) n) groups)|];
      eexists; reflexivity.
Qed.

Lemma update_finish_updates_shape cloud changes gid sb r s :
  update_finish cloud changes gid sb = (r, s) ->
  us_changed s = us_changed sb /\
  (us_updates s = us_updates sb \/
   (exists g, us_updates s = (us_updates sb ++ [g])%list) /\ us_changed sb = true).
Proof.
  unfold update_finish.
  cbv [bind get_state deref_opt ret raise lift warn record_update]; cbn beta iota.
  destruct (residual changes (us_cleared sb)) as [|f l]; destruct gid as [id|];
    destruct (us_changed sb) eqn:Ec; cbn beta iota;
    try (destruct (cloud_NewElastigroup cloud (us_group sb)) as [eg|err]); cbn beta iota;
    try (destruct (cloud_Update cloud eg));
    intros H; injection H as _ <-; cbn; (split; [first [reflexivity | exact Ec | symmetry; exact Ec]|]);
    first [left; reflexivity | right; split; [eexists; reflexivity | first [reflexivity | exact Ec]]].
Qed.

(** X16: update sends at most one Update call, and only when it recorded a change. *)
Theorem update_at_most_one_call rt cloud a e changes :
  (length (us_updates (snd (update rt cloud a e changes))) <= 1)%nat /\
  (us_updates (snd (update rt cloud a e changes)) <> [] ->
   us_changed (snd (update rt cloud a e changes)) = true).
Proof.
  destruct (update rt cloud a e changes) as [r s] eqn:HU. cbn [snd].
  unfold update, update_m in HU.
  destruct (Name e) as [n|]; cbv [deref_opt raise ret bind lift] in HU;
    [|injection HU as _ <-; split; [simpl; lia | intros H; exfalso; apply H; reflexivity]].
  destruct (find cloud n) as [live|err];
    [|injection HU as _ <-; split; [simpl; lia | intros H; exfalso; apply H; reflexivity]].
  change (set ["ID"] (vstr (as_str (fld live "ID"))) initUpdState)
    with (Ok tt, upd_start live) in HU. cbv beta iota in HU.
  destruct (update_body rt cloud a e changes live (upd_start live)) as [[u|err] sb] eqn:Hb;
    assert (Hl : us_warnings sb = [] /\ us_updates sb = [])
      by (apply (run_stable _ _ _ _ _ Hb (update_body_log rt cloud a e changes live [] []));
          split; reflexivity).
  - destruct (update_finish_updates_shape _ _ _ _ _ _ HU) as [Hc [Hu|[[g Hu] Hch]]];
      rewrite Hu, (proj2 Hl); simpl.
    + split; [lia|]. intros H; exfalso; apply H; reflexivity.
    + split; [lia|]. intros _. rewrite Hc; exact Hch.
  - injection HU as _ <-. rewrite (proj2 Hl). split; [simpl; lia|].
    intros H; exfalso; apply H; reflexivity.
Qed.

Lemma update_finish_no_id cloud changes s :
  update_finish cloud changes None s =
    (Error (ErrPanic "nil pointer dereference: group.ID"), s).
Proof.
  unfold update_finish, bind, get_state, deref_opt, ret, raise.
  destruct (residual changes (us_cleared s)); reflexivity.
Qed.

(** X17: When the live group has no ID and the update sections succeed, update ends in a nil-pointer panic on group.ID, whether or not anything changed, and sends no Update. *)
Theorem update_missing_id_panics rt cloud a e changes n live :
  Name e = Some n -> find cloud n = Ok live -> as_str (fld live "ID") = None ->
  fst (update_body rt cloud a e changes live (upd_start live)) = Ok tt ->
  update rt cloud a e changes =
    (Error (ErrPanic "nil pointer dereference: group.ID"),
     snd (update_body rt cloud a e changes live (upd_start live))).
Proof.
  intros HN Hf HID Hb.
  destruct (update rt cloud a e changes) as [r s] eqn:HU.
  destruct (update_run _ _ _ _ _ _ _ _ _ HN Hf HU) as (rb & sb & Hb' & Hr).
  rewrite Hb' in Hb |- *. simpl in Hb. subst rb. simpl snd.
  rewrite HID, update_finish_no_id in Hr. exact (eq_sym Hr).
Qed.

Lemma update_body_keeps_id rt cloud a e changes actual x :
  stable (fun s => get_path ["ID"] (us_group s) = x) (update_body rt cloud a e changes actual).
Proof. unfold_update; stab. Qed.

(** X18: Every group update sends to the provider carries the live group's ID, unchanged by the update sections. *)
Theorem update_sends_live_id rt cloud a e changes n live s g :
  Name e = Some n -> find cloud n = Ok live ->
  (forall g, cloud_NewElastigroup cloud g = Ok g) ->
  update rt cloud a e changes = (Ok tt, s) -> In g (us_updates s) ->
  get_path ["ID"] g = Some (vstr (as_str (fld live "ID"))).
Proof.
  intros HN Hf HNew H Hg.
  destruct (update_sent_group _ _ _ _ _ _ _ _ _ HN Hf HNew H Hg) as (sb & Hb & ->).
  apply (run_stable _ _ _ _ _ Hb (update_body_keeps_id rt cloud a e changes live _)).
  apply get_set_path_same.
Qed.

Lemma create_calls_app l1 l2 : create_calls (l1 ++ l2)%list = (create_calls l1 + create_calls l2)%nat.
Proof. unfold create_calls. rewrite filter_app, length_app. reflexivity. Qed.

Lemma readyLoop_bounded cloud e group mA fuel fuel' attempt :
  (forall i msg, cloud_Create cloud i <> CreateOtherError msg) ->
  (mA - attempt < fuel)%nat -> (mA - attempt < fuel')%nat ->
  readyLoop cloud e group mA fuel attempt = readyLoop cloud e group mA fuel' attempt /\
  (exists r, fst (readyLoop cloud e group mA fuel attempt) = Returned r) /\
  (create_calls (snd (readyLoop cloud e group mA fuel attempt)) <= S (mA - attempt))%nat.
Proof.
  intros HC. revert fuel' attempt.
  induction fuel as [|fuel IH]; intros fuel' attempt H1 H2; [lia|].
  destruct fuel' as [|fuel']; [lia|].
  simpl. destruct (cloud_NewElastigroup cloud group) as [eg|err].
  2:{ split; [reflexivity|]. split; [eexists; reflexivity|]. cbv; lia. }
  destruct (cloud_Create cloud (S attempt)) as [id|msgs|msg] eqn:EC.
  - split; [reflexivity|]. split; [eexists; reflexivity|]. cbv; lia.
  - destruct (List.find _ msgs) as [m|].
    2:{ split; [reflexivity|]. split; [eexists; reflexivity|]. cbv; lia. }
    destruct (mA <? S attempt)%nat eqn:Elt.
    { split; [reflexivity|]. split; [eexists; reflexivity|]. cbv; lia. }
    destruct (IAMInstanceProfile_ e) as [p|].
    2:{ split; [reflexivity|]. split; [eexists; reflexivity|]. cbv; lia. }
    apply Nat.ltb_ge in Elt.
    destruct (IH fuel' (S attempt)) as (Heq & [r Hr] & Hc); [lia|lia|].
    rewrite <- Heq.
    destruct (readyLoop cloud e group mA fuel (S attempt)) as [out ev'] eqn:EL.
    simpl in Hr, Hc |- *. split; [reflexivity|]. split; [eexists; exact Hr|].
    unfold create_calls in *. simpl. lia.
  - exfalso. exact (HC _ _ EC).
Qed.

(** X5: When the provider never answers Create with an unexpected error, create's retry loop terminates within its budget: it makes at most 11 Create calls (maxAttempts + 1), and its result does not depend on the fuel beyond that bound. *)
Theorem create_retry_budget rt cloud a e changes fuel fuel' :
  (forall i msg, cloud_Create cloud i <> CreateOtherError msg) ->
  (11 <= fuel)%nat -> (11 <= fuel')%nat ->
  create rt cloud fuel a e changes = create rt cloud fuel' a e changes /\
  (exists r, snd (fst (create rt cloud fuel a e changes)) = Returned r) /\
  (create_calls (snd (create rt cloud fuel a e changes)) <= 11)%nat.
Proof.
  intros HC H1 H2. unfold create.
  destruct (Name e) as [n|]; [|split; [reflexivity|split; [eexists; reflexivity|cbv; lia]]].
  destruct (create_group rt cloud (applyDefaults e)) as [g|err];
    [|split; [reflexivity|split; [eexists; reflexivity|cbv; lia]]].
  destruct (readyLoop_bounded cloud (applyDefaults e) g maxAttempts fuel fuel' 0 HC)
    as (Heq & [r Hr] & Hc); [unfold maxAttempts; lia|unfold maxAttempts; lia|].
  rewrite <- Heq.
  destruct (readyLoop cloud (applyDefaults e) g maxAttempts fuel 0) as [out ev].
  simpl in Hr, Hc |- *. subst out. split; [reflexivity|]. split; [eexists; reflexivity|].
  exact Hc.
Qed.

Lemma create_retry_budget_witness :
  (forall i msg, cloud_Create transientCloud i <> CreateOtherError msg) /\
  create (sampleRuntime storedOrder) transientCloud 11%nat None (desiredGroup "nodes" 2 4) None =
    create (sampleRuntime storedOrder) transientCloud 40%nat None (desiredGroup "nodes" 2 4) None /\
  (exists r, snd (fst (create (sampleRuntime storedOrder) transientCloud 11%nat None
                               (desiredGroup "nodes" 2 4) None)) = Returned r) /\
  (create_calls (snd (create (sampleRuntime storedOrder) transientCloud 11%nat None
                              (desiredGroup "nodes" 2 4) None)) <= 11)%nat.
Proof.
  assert (HC : forall i msg, cloud_Create transientCloud i <> CreateOtherError msg)
    by (intros i msg; discriminate).
  split; [exact HC|].
  apply (create_retry_budget (sampleRuntime storedOrder) transientCloud None
           (desiredGroup "nodes" 2 4) None 11%nat 40%nat HC); lia.
Defined.

Lemma substring_whole s : String.substring 0 (String.length s) s = s.
Proof. induction s as [|c s IH]; [reflexivity|]. simpl. rewrite IH. reflexivity. Qed.

Lemma prefix_split p s :
  String.prefix p s = true ->
  s = (p ++ String.substring (String.length p) (String.length s - String.length p) s)%string.
Proof.
  revert s. induction p as [|c p IH]; intros s H.
  - simpl. rewrite Nat.sub_0_r, substring_whole. reflexivity.
  - destruct s as [|c' s]; [discriminate|]. simpl in H.
    destruct (ascii_dec c c') as [<-|]; [|discriminate].
    simpl. f_equal. exact (IH s H).
Qed.

Lemma TrimPrefix_split k :
  HasPrefix k CloudTagInstanceGroupRolePrefix = true -> k = (CloudTagInstanceGroupRolePrefix ++ TrimPrefix k CloudTagInstanceGroupRolePrefix)%string.
Proof.
  intros H. unfold TrimPrefix. rewrite H. exact (prefix_split _ _ H).
Qed.

Lemma TrimPrefix_empty k : HasPrefix k CloudTagInstanceGroupRolePrefix = true -> TrimPrefix k CloudTagInstanceGroupRolePrefix = "" -> k = CloudTagInstanceGroupRolePrefix.
Proof.
  intros H He. rewrite (TrimPrefix_split k H), He. reflexivity.
Qed.

Lemma role_conflict_from l r k v :
  r <> "" -> In (k, v) l -> HasPrefix k CloudTagInstanceGroupRolePrefix = true -> TrimPrefix k CloudTagInstanceGroupRolePrefix <> r ->
  exists err, role_of_tags l r = Error err.
Proof.
  revert r. induction l as [|[k0 v0] l IH]; intros r Hr Hin Hp Hs; [destruct Hin|].
  simpl. destruct (HasPrefix k0 CloudTagInstanceGroupRolePrefix) eqn:Hp0.
  - destruct (negb (String.eqb r "") && negb (String.eqb r (TrimPrefix k0 CloudTagInstanceGroupRolePrefix))) eqn:Ec;
      [eexists; reflexivity|].
    apply andb_false_iff in Ec. rewrite !negb_false_iff, !String.eqb_eq in Ec.
    destruct Ec as [Ec|Ec]; [contradiction|]. rewrite <- Ec.
    destruct Hin as [Hin|Hin]; [injection Hin as -> ->; congruence|].
    exact (IH r Hr Hin Hp Hs).
  - destruct Hin as [Hin|Hin]; [injection Hin as -> ->; congruence|].
    exact (IH r Hr Hin Hp Hs).
Qed.

Lemma role_two_distinct l r k1 v1 k2 v2 :
  In (k1, v1) l -> In (k2, v2) l ->
  HasPrefix k1 CloudTagInstanceGroupRolePrefix = true -> HasPrefix k2 CloudTagInstanceGroupRolePrefix = true ->
  TrimPrefix k1 CloudTagInstanceGroupRolePrefix <> "" -> TrimPrefix k2 CloudTagInstanceGroupRolePrefix <> "" -> TrimPrefix k1 CloudTagInstanceGroupRolePrefix <> TrimPrefix k2 CloudTagInstanceGroupRolePrefix ->
  exists err, role_of_tags l r = Error err.
Proof.
  revert r. induction l as [|[k0 v0] l IH]; intros r H1 H2 Hp1 Hp2 He1 He2 Hd; [destruct H1|].
  simpl. destruct (HasPrefix k0 CloudTagInstanceGroupRolePrefix) eqn:Hp0.
  - destruct (negb (String.eqb r "") && negb (String.eqb r (TrimPrefix k0 CloudTagInstanceGroupRolePrefix)));
      [eexists; reflexivity|].
    destruct H1 as [H1|H1]; [injection H1 as -> ->|];
      (destruct H2 as [H2|H2]; [injection H2 as -> ->|]).
    + contradiction.
    + exact (role_conflict_from l _ k2 v2 He1 H2 Hp2 (not_eq_sym Hd)).
    + exact (role_conflict_from l _ k1 v1 He2 H1 Hp1 Hd).
    + exact (IH _ H1 H2 Hp1 Hp2 He1 He2 Hd).
  - destruct H1 as [H1|H1]; [injection H1 as -> ->; congruence|].
    destruct H2 as [H2|H2]; [injection H2 as -> ->; congruence|].
    exact (IH r H1 H2 Hp1 Hp2 He1 He2 Hd).
Qed.

Lemma role_ok_inv l r0 r :
  (forall k v, In (k, v) l -> HasPrefix k CloudTagInstanceGroupRolePrefix = true ->
               TrimPrefix k CloudTagInstanceGroupRolePrefix <> "") ->
  role_of_tags l r0 = Ok r ->
  (forall k v, In (k, v) l -> HasPrefix k CloudTagInstanceGroupRolePrefix = true ->
               TrimPrefix k CloudTagInstanceGroupRolePrefix = r) /\
  ((forall k v, In (k, v) l -> HasPrefix k CloudTagInstanceGroupRolePrefix = false) -> r = r0) /\
  (r0 <> "" -> r = r0).
Proof.
  revert r0. induction l as [|[k0 v0] l IH]; intros r0 Hne H.
  - simpl in H. injection H as <-. split; [intros k v []|split; reflexivity].
  - simpl in H. destruct (HasPrefix k0 CloudTagInstanceGroupRolePrefix) eqn:Hp0.
    + destruct (negb (String.eqb r0 "") &&
                negb (String.eqb r0 (TrimPrefix k0 CloudTagInstanceGroupRolePrefix))) eqn:Ec;
        [discriminate|].
      destruct (IH _ (fun k v Hi => Hne k v (or_intror Hi)) H) as (Ha & Hb & Hc).
      assert (Hs : r = TrimPrefix k0 CloudTagInstanceGroupRolePrefix)
        by exact (Hc (Hne k0 v0 (or_introl eq_refl) Hp0)).
      split; [|split].
      * intros k v [Hi|Hi] Hk; [injection Hi as -> ->; symmetry; exact Hs|exact (Ha k v Hi Hk)].
      * intros Hn. specialize (Hn k0 v0 (or_introl eq_refl)). congruence.
      * intros Hr0. apply andb_false_iff in Ec. rewrite !negb_false_iff, !String.eqb_eq in Ec.
        destruct Ec as [Ec|Ec]; [contradiction|]. congruence.
    + destruct (IH r0 (fun k v Hi => Hne k v (or_intror Hi)) H) as (Ha & Hb & Hc).
      split; [|split; [|exact Hc]].
      * intros k v [Hi|Hi] Hk; [injection Hi as -> ->; congruence|exact (Ha k v Hi Hk)].
      * intros Hn. apply Hb. intros k v Hi. exact (Hn k v (or_intror Hi)).
Qed.

Lemma applyDefaults_Tags e : Tags (applyDefaults e) = Tags e.
Proof. reflexivity. Qed.

Lemma applyDefaults_SecurityGroups e : SecurityGroups (applyDefaults e) = SecurityGroups e.
Proof. reflexivity. Qed.

Lemma applyDefaults_Subnets e : Subnets (applyDefaults e) = Subnets e.
Proof. reflexivity. Qed.

Lemma RenderTerraform_outputs rt cloud e tf outs :
  RenderTerraform rt cloud e = Ok (tf, outs) ->
  exists role,
    role_of_tags (range_map (rt_order rt) RangeRoleTags (Tags e)) "" = Ok role /\
    outs = (role_outputs role "_security_groups"
              (map sgLink (match SecurityGroups e with Some l => l | None => [] end)) ++
            role_outputs role "_subnet_ids"
              (map subnetLink (match Subnets e with Some l => l | None => [] end)))%list.
Proof.
  intros H. unfold RenderTerraform in H. cbv beta zeta delta [rbind] in H.
  rewrite applyDefaults_Tags, applyDefaults_SecurityGroups, applyDefaults_Subnets in H.
  repeat match type of H with
  | (match ?x with _ => _ end) = _ => let E := fresh "E" in destruct x eqn:E; try discriminate H
  end.
  injection H as _ <-. eexists; split; reflexivity.
Qed.

Lemma role_of_tags_error_render rt cloud e err :
  role_of_tags (range_map (rt_order rt) RangeRoleTags (Tags e)) "" = Error err ->
  exists err', RenderTerraform rt cloud e = Error err'.
Proof.
  intros Hr. destruct (RenderTerraform rt cloud e) as [[tf outs]|err'] eqn:H; [|eexists; reflexivity].
  destruct (RenderTerraform_outputs _ _ _ _ _ H) as (role & Hr' & _). congruence.
Qed.

(** X20: RenderTerraform fails, for every map iteration order, when the tags hold two role tags with different non-empty roles. *)
Theorem RenderTerraform_conflicting_roles rt cloud e m k1 v1 k2 v2 :
  MapOrder_ok (rt_order rt) -> Tags e = Some m ->
  In (k1, v1) m -> In (k2, v2) m ->
  HasPrefix k1 CloudTagInstanceGroupRolePrefix = true ->
  HasPrefix k2 CloudTagInstanceGroupRolePrefix = true ->
  TrimPrefix k1 CloudTagInstanceGroupRolePrefix <> "" ->
  TrimPrefix k2 CloudTagInstanceGroupRolePrefix <> "" ->
  TrimPrefix k1 CloudTagInstanceGroupRolePrefix <> TrimPrefix k2 CloudTagInstanceGroupRolePrefix ->
  exists err, RenderTerraform rt cloud e = Error err.
Proof.
  intros Hord Ht H1 H2 Hp1 Hp2 He1 He2 Hd.
  assert (Hperm := Hord RangeRoleTags m).
  destruct (role_two_distinct (range_map (rt_order rt) RangeRoleTags (Tags e)) "" k1 v1 k2 v2)
    as [err Herr]; try assumption;
    [rewrite Ht; exact (Permutation_in _ (Permutation_sym Hperm) H1)
    |rewrite Ht; exact (Permutation_in _ (Permutation_sym Hperm) H2)|].
  exact (role_of_tags_error_render _ _ _ _ Herr).
Qed.

(** X21: When no tag key is the bare role prefix, the output variables of RenderTerraform do not depend on the map iteration order. *)
Theorem RenderTerraform_outputs_order_independent rt1 rt2 cloud e tf1 outs1 tf2 outs2 :
  MapOrder_ok (rt_order rt1) -> MapOrder_ok (rt_order rt2) ->
  (forall m k v, Tags e = Some m -> In (k, v) m -> k <> CloudTagInstanceGroupRolePrefix) ->
  RenderTerraform rt1 cloud e = Ok (tf1, outs1) ->
  RenderTerraform rt2 cloud e = Ok (tf2, outs2) ->
  outs1 = outs2.
Proof.
  intros Ho1 Ho2 Hbare H1 H2.
  destruct (RenderTerraform_outputs _ _ _ _ _ H1) as (r1 & Hr1 & ->).
  destruct (RenderTerraform_outputs _ _ _ _ _ H2) as (r2 & Hr2 & ->).
  enough (r1 = r2) by (subst; reflexivity).
  destruct (Tags e) as [m|] eqn:Ht; [|simpl in Hr1, Hr2; congruence].
  simpl in Hr1, Hr2.
  assert (P1 := Ho1 RangeRoleTags m). assert (P2 := Ho2 RangeRoleTags m).
  assert (Hne : forall l, Permutation l m -> forall k v, In (k, v) l ->
            HasPrefix k CloudTagInstanceGroupRolePrefix = true ->
            TrimPrefix k CloudTagInstanceGroupRolePrefix <> "").
  { intros l Hl k v Hi Hk He. apply (Hbare m k v eq_refl (Permutation_in _ Hl Hi)).
    exact (TrimPrefix_empty k Hk He). }
  destruct (role_ok_inv _ _ _ (Hne _ P1) Hr1) as (A1 & B1 & _).
  destruct (role_ok_inv _ _ _ (Hne _ P2) Hr2) as (A2 & B2 & _).
  destruct (existsb (fun kv => HasPrefix (fst kv) CloudTagInstanceGroupRolePrefix) m) eqn:Ex.
  - apply existsb_exists in Ex as [[k v] [Hi Hk]]. simpl in Hk.
    rewrite <- (A1 k v (Permutation_in _ (Permutation_sym P1) Hi) Hk).
    exact (A2 k v (Permutation_in _ (Permutation_sym P2) Hi) Hk).
  - assert (Hnone : forall l, Permutation l m -> forall k v, In (k, v) l ->
              HasPrefix k CloudTagInstanceGroupRolePrefix = false).
    { intros l Hl k v Hi. destruct (HasPrefix k CloudTagInstanceGroupRolePrefix) eqn:Hk;
        [|reflexivity].
      rewrite <- Ex. apply eq_sym, existsb_exists. exists (k, v).
      split; [exact (Permutation_in _ Hl Hi)|exact Hk]. }
    rewrite (B1 (Hnone _ P1)), (B2 (Hnone _ P2)). reflexivity.
Qed.

Lemma storedOrder_ok : MapOrder_ok storedOrder.
Proof. intros n m. apply Permutation_refl. Qed.

Lemma reversedOrder_ok : MapOrder_ok reversedOrder.
Proof. intros n m. apply Permutation_sym, Permutation_rev. Qed.

Lemma RenderTerraform_conflicting_roles_witness :
  exists err, RenderTerraform (sampleRuntime reversedOrder) capacityCloud
                (withTags (Some conflictingRoleTags) (desiredGroup "nodes" 2 4)) = Error err.
Proof.
  apply (RenderTerraform_conflicting_roles (sampleRuntime reversedOrder) capacityCloud
           (withTags (Some conflictingRoleTags) (desiredGroup "nodes" 2 4)) conflictingRoleTags
           "k8s.io/role/master" "1" "k8s.io/role/node" "1");
    first [exact reversedOrder_ok | reflexivity | simpl; tauto | vm_compute; discriminate].
Defined.

Lemma RenderTerraform_outputs_order_independent_witness :
  match RenderTerraform (sampleRuntime storedOrder) capacityCloud
          roleGroup with
  | Ok (_, o) => o | Error _ => [] end =
  match RenderTerraform (sampleRuntime reversedOrder) capacityCloud
          roleGroup with
  | Ok (_, o) => o | Error _ => [] end.
Proof.
  apply (RenderTerraform_outputs_order_independent (sampleRuntime storedOrder)
           (sampleRuntime reversedOrder) capacityCloud
           roleGroup
           (match RenderTerraform (sampleRuntime storedOrder) capacityCloud
                    roleGroup with
            | Ok (t, _) => t | Error _ => emptyObj end) _
           (match RenderTerraform (sampleRuntime reversedOrder) capacityCloud
                    roleGroup with
            | Ok (t, _) => t | Error _ => emptyObj end) _).
  - exact storedOrder_ok.
  - exact reversedOrder_ok.
  - intros m k v Ht Hi. injection Ht as <-. simpl in Hi.
    destruct Hi as [Hi|[Hi|[]]]; injection Hi as <- <-; discriminate.
  - vm_compute. reflexivity.
  - vm_compute. reflexivity.
Defined.

Lemma update_auto_scaler_block_disabled rt a e changes opts :
  AutoScalerOpts_ changes = Some opts -> as_Enabled opts = None ->
  update_auto_scaler_block rt a e changes = clear FAutoScalerOpts.
Proof.
  intros Hc He. unfold update_auto_scaler_block. rewrite Hc.
  unfold update_auto_scaler. rewrite He. reflexivity.
Qed.

(** X19: Auto-scaler changes without Enabled are consumed by update without effect: on their own they give no Update, no warning and no change. *)
Theorem update_auto_scaler_without_enabled rt cloud a e opts n live id :
  as_Enabled opts = None -> Name e = Some n -> find cloud n = Ok live ->
  as_str (fld live "ID") = Some id ->
  exists s, update rt cloud a e (withAutoScalerOpts (Some opts) emptyElastigroup) = (Ok tt, s) /\
    us_updates s = [] /\ us_warnings s = [] /\ us_changed s = false.
Proof.
  intros He HN Hf HID.
  unfold update, update_m. rewrite HN. cbv [deref_opt ret bind lift]. rewrite Hf.
  change (set ["ID"] (vstr (as_str (fld live "ID"))) initUpdState)
    with (Ok tt, upd_start live).
  cbv beta iota.
  unfold update_body.
  rewrite (update_auto_scaler_block_disabled rt a e
             (withAutoScalerOpts (Some opts) emptyElastigroup) opts eq_refl He).
  unfold update_finish. rewrite HID.
  cbv beta iota zeta delta [bind update_region update_strategy update_compute update_launch_spec
       update_capacity when ret withAutoScalerOpts emptyElastigroup is_set clear get_state
       deref_opt warn].
  eexists; split; [reflexivity|]. repeat split.
Qed.

Lemma update_auto_scaler_without_enabled_witness :
  exists s, update (sampleRuntime storedOrder) capacityCloud capacityActual
              (desiredGroup "nodes" 2 4)
              (withAutoScalerOpts (Some clusterOnlyOpts) emptyElastigroup) = (Ok tt, s) /\
    us_updates s = [] /\ us_warnings s = [] /\ us_changed s = false.
Proof.
  apply (update_auto_scaler_without_enabled (sampleRuntime storedOrder) capacityCloud
           capacityActual (desiredGroup "nodes" 2 4) clusterOnlyOpts "nodes"
           (liveGroup "nodes" 2 4 4 None) "sig-0001"); reflexivity.
Defined.

Lemma deref_get_path_cons v k p c :
  deref v k = Ok c -> get_path (k :: p) v = get_path p c.
Proof.
  unfold deref, fld. destruct v as [| | | | | |fs]; try discriminate. simpl.
  destruct (assoc k fs) as [c'|]; [|discriminate].
  destruct c'; intros H; try discriminate; injection H as <-; reflexivity.
Qed.

Lemma get_path_one k c : get_path [k] c = fld c k.
Proof.
  destruct c as [| | | | | |fs]; try reflexivity. simpl. destruct (assoc k fs); reflexivity.
Qed.

Lemma assoc_set_fresh {A} (k : string) (v : A) l :
  ~ In k (map fst l) -> assoc_set k v l = (l ++ [(k, v)])%list.
Proof.
  induction l as [|[k' v'] l IH]; intros Hn; [reflexivity|].
  simpl in Hn |- *. destruct (String.eqb k k') eqn:E.
  - apply String.eqb_eq in E. subst. exfalso. apply Hn. left. reflexivity.
  - rewrite IH; [reflexivity|]. intros Hi; apply Hn; right; exact Hi.
Qed.

Lemma map_of_kvs_acc l acc :
  NoDup (map fst (acc ++ l)) ->
  fold_left (fun m kv => assoc_set (StringValue (as_str (fld kv "Key")))
                                   (StringValue (as_str (fld kv "Value"))) m)
            (map kvValue l) acc = (acc ++ l)%list.
Proof.
  revert acc. induction l as [|[k v] l IH]; intros acc Hnd; simpl; [rewrite app_nil_r; reflexivity|].
  rewrite assoc_set_fresh.
  - rewrite IH; [rewrite <- app_assoc; reflexivity|]. rewrite <- app_assoc. exact Hnd.
  - rewrite map_app in Hnd. simpl in Hnd. apply NoDup_remove_2 in Hnd.
    intros Hi; apply Hnd, in_or_app; left; exact Hi.
Qed.

(** Reading back the key/value structs of a map with distinct keys gives the
    entries in the order they were written. *)
Lemma map_of_kvs_kvValue l : NoDup (map fst l) -> map_of_kvs (map kvValue l) = l.
Proof. intros H. unfold map_of_kvs. exact (map_of_kvs_acc l [] H). Qed.

Lemma map_pair_id (l : list (string * string)) : map (fun '(k, v) => (k, v)) l = l.
Proof. induction l as [|[k v] l IH]; simpl; [reflexivity|]. rewrite IH. reflexivity. Qed.

Lemma range_map_perm ord n m kvs :
  MapOrder_ok ord -> m = Some kvs -> Permutation (range_map ord n m) kvs.
Proof. intros Ho ->. exact (Ho n kvs). Qed.

Lemma keeps_tags_health_check e : keeps tagsPath (create_health_check e).
Proof. keeps_tac. Qed.

Lemma keeps_tags_auto_scaler rt e : keeps tagsPath (create_auto_scaler rt e).
Proof. keeps_tac. Qed.

Lemma create_group_tags rt cloud e g m :
  create_group rt cloud e = Ok g -> Tags e = Some m ->
  get_path tagsPath g = Some (VList (map kvValue (buildTags (rt_order rt) e))).
Proof.
  intros H Ht. unfold create_group in H. repeat peel H.
  rewrite (keeps_step _ _ _ _ (keeps_tags_auto_scaler _ _) H).
  match goal with E : create_health_check _ _ = Ok _ |- _ =>
    rewrite (keeps_step _ _ _ _ (keeps_tags_health_check _) E) end.
  match goal with E : create_tags _ _ ?g0 = Ok _ |- _ =>
    unfold create_tags in E; rewrite Ht in E; injection E as <-;
    exact (get_set_path_same tagsPath (VList (map kvValue (buildTags (rt_order rt) e))) g0) end.
Qed.

(** What a successful [Find] reads from the live group. *)
Lemma Find_ok_inv rt cloud e a :
  Find rt cloud e = Ok a ->
  exists n group capacity compute lc,
    Name e = Some n /\ find cloud n = Ok group /\
    deref group "Capacity" = Ok capacity /\ deref group "Compute" = Ok compute /\
    deref compute "LaunchSpecification" = Ok lc /\
    Lifecycle_ a = Lifecycle_ e /\
    MinSize a = Some (IntValue (as_int (fld capacity "Minimum"))) /\
    MaxSize a = Some (IntValue (as_int (fld capacity "Maximum"))) /\
    (exists u, UserData a = Some (ResourceString u)) /\
    AssociatePublicIP a =
      Some (existsb (fun i => BoolValue (as_bool (fld i "AssociatePublicIPAddress")))
                    (list_fld lc "NetworkInterfaces")) /\
    Tags a = match list_fld lc "Tags" with [] => None | ts => Some (map_of_kvs ts) end /\
    (match ImageID e, as_str (fld lc "ImageID") with
     | Some ei, Some ai =>
         if negb (String.eqb ai ei) then
           image <-? resolveImage cloud ei ;;
           Ok (if String.eqb (StringValue (img_ImageId image)) ai
               then ImageID e else as_str (fld lc "ImageID"))
         else Ok (as_str (fld lc "ImageID"))
     | _, _ => Ok (as_str (fld lc "ImageID"))
     end) = Ok (ImageID a) /\
    RootVolumeOpts_ a =
      (if BoolValue (as_bool (fld lc "EBSOptimized")) then
         let r := match root_opts_of_bdms (list_fld lc "BlockDeviceMappings") None with
                  | Some r => r | None => rootVolumeOptsEmpty end in
         Some {| rv_Type := rv_Type r; rv_Size := rv_Size r; rv_IOPS := rv_IOPS r;
                 rv_Throughput := rv_Throughput r;
                 rv_Optimization := as_bool (fld lc "EBSOptimized") |}
       else root_opts_of_bdms (list_fld lc "BlockDeviceMappings") None).
Proof.
  intros H. unfold Find in H. destruct (Name e) as [n|]; [|discriminate H].
  repeat peel H. injection H as <-.
  do 5 eexists. split; [reflexivity|].
  repeat (split; [eassumption|]).
  split; [reflexivity|]. split; [reflexivity|]. split; [reflexivity|].
  split; [eexists; reflexivity|]. split; [reflexivity|]. split; [reflexivity|].
  split; [simpl; eassumption|]. reflexivity.
Qed.

(** X10: Reading back with Find a group that create built from non-empty tags with distinct keys gives the same tags, up to the order of the entries, for any map iteration order. *)
Theorem create_Find_tags_roundtrip rt cloud cloud' e g id a n m :
  MapOrder_ok (rt_order rt) -> Tags e = Some m -> m <> [] -> NoDup (map fst m) ->
  create_group rt cloud (applyDefaults e) = Ok g -> Name e = Some n ->
  find cloud' n = Ok (set_path ["ID"] (VStr id) g) -> Find rt cloud' e = Ok a ->
  exists m', Tags a = Some m' /\ Permutation m' m.
Proof.
  intros Ho Ht Hne Hnd Hg HN Hf HF.
  destruct (Find_ok_inv _ _ _ _ HF)
    as (n' & group & capacity & compute & lc & HN' & Hf' & _ & Hc & Hl & _ & _ & _ & _ & _ & HT & _).
  rewrite HN in HN'. injection HN' as <-. rewrite Hf in Hf'. injection Hf' as <-.
  assert (Ht' : Tags (applyDefaults e) = Some m) by exact Ht.
  pose proof (create_group_tags _ _ _ _ _ Hg Ht') as Hg'.
  rewrite <- (get_set_path_diverge ["ID"] tagsPath (VStr id) g eq_refl) in Hg'.
  unfold tagsPath, LS in Hg'.
  rewrite (deref_get_path_cons _ _ _ _ Hc), (deref_get_path_cons _ _ _ _ Hl), get_path_one in Hg'.
  assert (Hperm : Permutation (rt_order rt RangeBuildTags m) m) by exact (Ho _ m).
  unfold list_fld in HT. rewrite Hg' in HT. simpl in HT.
  unfold buildTags in HT. rewrite Ht', map_pair_id in HT. simpl in HT.
  remember (rt_order rt RangeBuildTags m) as L eqn:EL.
  assert (HT2 : Tags a = Some (map_of_kvs (map kvValue L))).
  { rewrite HT. destruct L as [|kv l];
      [exfalso; apply Hne, Permutation_nil; exact Hperm|reflexivity]. }
  rewrite map_of_kvs_kvValue in HT2.
  - exists L. split; [exact HT2|exact Hperm].
  - apply (Permutation_NoDup (Permutation_map fst (Permutation_sym Hperm))). exact Hnd.
Qed.

Lemma create_Find_tags_roundtrip_witness :
  exists m', Tags (match Find (sampleRuntime reversedOrder) tagCloud tagGroup with
                   | Ok a => a | Error _ => emptyElastigroup end) = Some m' /\
             Permutation m' [("team", "infra"); ("env", "prod")].
Proof.
  apply (create_Find_tags_roundtrip (sampleRuntime reversedOrder) capacityCloud tagCloud tagGroup
           createdTagGroup "sig-0001" _ "nodes" [("team", "infra"); ("env", "prod")]).
  - exact reversedOrder_ok.
  - reflexivity.
  - discriminate.
  - constructor; [simpl; intros [Hx|[]]; discriminate|constructor; [intros []|constructor]].
  - vm_compute. reflexivity.
  - reflexivity.
  - vm_compute. reflexivity.
  - vm_compute. reflexivity.
Defined.

Lemma lower_ascii_idem c : lower_ascii (lower_ascii c) = lower_ascii c.
Proof. destruct c as [[] [] [] [] [] [] [] []]; reflexivity. Qed.

Lemma ToLower_idem s : ToLower (ToLower s) = ToLower s.
Proof. induction s as [|c s IH]; simpl; [reflexivity|]. rewrite lower_ascii_idem, IH. reflexivity. Qed.

Lemma root_opts_of_bdms_lower bdms acc :
  type_lower acc -> type_lower (root_opts_of_bdms bdms acc).
Proof.
  unfold root_opts_of_bdms. revert acc.
  induction bdms as [|b bdms IH]; intros acc Hacc; [exact Hacc|].
  cbn [fold_left]. apply IH. intros r t Hr Ht.
  destruct (fld b "EBS") as [ebs|]; [|exact (Hacc r t Hr Ht)].
  destruct ebs as [| | | | | |fs]; [exact (Hacc r t Hr Ht)| | | | | |];
    cbv beta iota in Hr;
    (match type of Hr with context [non_nil ?x "SnapshotID"] =>
       destruct (non_nil x "SnapshotID"); [exact (Hacc r t Hr Ht)|] end);
    injection Hr as <-; cbn [rv_Type] in Ht;
    (first [ match type of Ht with context [as_str ?x] =>
               destruct (as_str x) as [t'|]; [injection Ht as <-; apply ToLower_idem|] end
           | idtac ]);
    (destruct acc as [r0|]; [exact (Hacc r0 t eq_refl Ht)|discriminate Ht]).
Qed.

(** X15: The root volume type reported by a successful Find is always in lower case. *)
Theorem Find_root_volume_type_lower rt cloud e a r t :
  Find rt cloud e = Ok a -> RootVolumeOpts_ a = Some r -> rv_Type r = Some t ->
  ToLower t = t.
Proof.
  intros HF Hr Ht.
  destruct (Find_ok_inv _ _ _ _ HF)
    as (n & group & capacity & compute & lc & _ & _ & _ & _ & _ & _ & _ & _ & _ & _ & _ & _ & HR).
  assert (Hl := root_opts_of_bdms_lower (list_fld lc "BlockDeviceMappings") None
                  (fun r t H => ltac:(discriminate H))).
  rewrite HR in Hr.
  destruct (BoolValue (as_bool (fld lc "EBSOptimized"))).
  - injection Hr as <-. simpl in Ht.
    destruct (root_opts_of_bdms (list_fld lc "BlockDeviceMappings") None) as [r0|] eqn:E.
    + exact (Hl r0 t eq_refl Ht).
    + discriminate Ht.
  - exact (Hl r t Hr Ht).
Qed.

Lemma Find_root_volume_type_lower_witness :
  ToLower "gp3" = "gp3".
Proof.
  apply (Find_root_volume_type_lower (sampleRuntime storedOrder) upperCaseVolumeCloud
           (desiredGroup "nodes" 2 4)
           (match Find (sampleRuntime storedOrder) upperCaseVolumeCloud (desiredGroup "nodes" 2 4)
            with Ok a => a | Error _ => emptyElastigroup end)
           {| rv_Type := Some "gp3"; rv_Size := Some 64%Z; rv_IOPS := None;
              rv_Throughput := None; rv_Optimization := None |});
    vm_compute; reflexivity.
Defined.

(** X14: When both the task and the live group have an image, Find reports the task's image exactly when the live image equals it or is the image the task's name resolves to; otherwise it reports the live image. *)
Theorem Find_image_id rt cloud e a n group ei ai :
  Find rt cloud e = Ok a -> Name e = Some n -> find cloud n = Ok group ->
  ImageID e = Some ei ->
  get_path ["Compute"; "LaunchSpecification"; "ImageID"] group = Some (VStr ai) ->
  (ImageID a = Some ei <->
     ai = ei \/ exists img, resolveImage cloud ei = Ok img /\ StringValue (img_ImageId img) = ai) /\
  (ImageID a = Some ei \/ ImageID a = Some ai).
Proof.
  intros HF HN Hf He Hai.
  destruct (Find_ok_inv _ _ _ _ HF)
    as (n' & group' & capacity & compute & lc & HN' & Hf' & _ & Hc & Hl & _ & _ & _ & _ & _ & _
        & HI & _).
  rewrite HN in HN'. injection HN' as <-. rewrite Hf in Hf'. injection Hf' as <-.
  rewrite (deref_get_path_cons _ _ _ _ Hc), (deref_get_path_cons _ _ _ _ Hl), get_path_one in Hai.
  rewrite He, Hai in HI. simpl in HI.
  destruct (String.eqb ai ei) eqn:Eq; simpl in HI.
  - apply String.eqb_eq in Eq. subst ai. injection HI as <-.
    split; [split; [intros _; left; reflexivity|reflexivity]|left; reflexivity].
  - apply String.eqb_neq in Eq.
    destruct (resolveImage cloud ei) as [img|err] eqn:Er; simpl in HI; [|discriminate HI].
    destruct (String.eqb (StringValue (img_ImageId img)) ai) eqn:Ei; injection HI as <-.
    + apply String.eqb_eq in Ei.
      split; [split; [intros _; right; exists img; split; [reflexivity|exact Ei]|reflexivity]|left; reflexivity].
    + apply String.eqb_neq in Ei. split; [|right; reflexivity]. split.
      * intros Hx. injection Hx as Hx. contradiction.
      * intros [Hx|(img' & Hr & Hs)]; [contradiction|].
        injection Hr as <-. contradiction.
Qed.

Lemma Find_image_id_witness :
  (ImageID foundImage = Some "kope.io/k8s-1.29-debian" <->
     "ami-0001" = "kope.io/k8s-1.29-debian" \/
     exists img, resolveImage resolvedImageCloud "kope.io/k8s-1.29-debian" = Ok img /\
                 StringValue (img_ImageId img) = "ami-0001") /\
  (ImageID foundImage = Some "kope.io/k8s-1.29-debian" \/ ImageID foundImage = Some "ami-0001").
Proof.
  apply (Find_image_id (sampleRuntime storedOrder) resolvedImageCloud namedImageGroup _ "nodes"
           resolvedImageGroup); vm_compute; reflexivity.
Defined.

Ltac keeps_tac2 :=
  intros ?g; cbv beta iota zeta delta [create_strategy create_compute create_launch_spec
    create_block_devices create_image create_user_data create_iam create_security_groups
    create_public_ip create_load_balancer create_tags create_health_check create_auto_scaler rbind];
  repeat (match goal with
          | |- context [match ?x with _ => _ end] =>
              lazymatch x with context [match _ with _ => _ end] => fail | _ => destruct x end
          end; cbv beta iota);
  rewrite ?get_set_path_diverge by reflexivity; first [reflexivity | exact I].

Section Capacity.

Variable r : list string.

Lemma keeps_cap_strategy e : keeps ("Capacity" :: r) (create_strategy e).
Proof. keeps_tac2. Qed.

Lemma keeps_cap_compute e : keeps ("Capacity" :: r) (create_compute e).
Proof. keeps_tac2. Qed.

Lemma keeps_cap_launch_spec e : keeps ("Capacity" :: r) (create_launch_spec e).
Proof. keeps_tac2. Qed.

Lemma keeps_cap_block_devices cloud e : keeps ("Capacity" :: r) (create_block_devices cloud e).
Proof. keeps_tac2. Qed.

Lemma keeps_cap_image cloud e : keeps ("Capacity" :: r) (create_image cloud e).
Proof. keeps_tac2. Qed.

Lemma keeps_cap_user_data rt e : keeps ("Capacity" :: r) (create_user_data rt e).
Proof. keeps_tac2. Qed.

Lemma keeps_cap_iam e : keeps ("Capacity" :: r) (create_iam e).
Proof. keeps_tac2. Qed.

Lemma keeps_cap_security_groups e : keeps ("Capacity" :: r) (create_security_groups e).
Proof. keeps_tac2. Qed.

Lemma keeps_cap_public_ip e : keeps ("Capacity" :: r) (create_public_ip e).
Proof. keeps_tac2. Qed.

Lemma keeps_cap_load_balancer cloud e : keeps ("Capacity" :: r) (create_load_balancer cloud e).
Proof. keeps_tac2. Qed.

Lemma keeps_cap_tags rt e : keeps ("Capacity" :: r) (create_tags rt e).
Proof. keeps_tac2. Qed.

Lemma keeps_cap_health_check e : keeps ("Capacity" :: r) (create_health_check e).
Proof. keeps_tac2. Qed.

Lemma keeps_cap_auto_scaler rt e : keeps ("Capacity" :: r) (create_auto_scaler rt e).
Proof. keeps_tac2. Qed.

End Capacity.

Lemma create_capacity_sets e g g' :
  create_capacity e g = Ok g' ->
  exists mn mx, MinSize e = Some mn /\ MaxSize e = Some mx /\
    get_path ["Capacity"; "Target"] g' = Some (VInt mn) /\
    get_path ["Capacity"; "Minimum"] g' = Some (VInt mn) /\
    get_path ["Capacity"; "Maximum"] g' = Some (VInt mx).
Proof.
  unfold create_capacity. destruct (MinSize e) as [mn|]; [|discriminate]. cbn [rbind].
  destruct (MaxSize e) as [mx|]; [|discriminate]. cbn [rbind].
  intros H. apply (f_equal (fun r => match r with Ok v => v | Error _ => g end)) in H.
  cbv beta iota in H. subst g'. exists mn, mx.
  split; [reflexivity|]. split; [reflexivity|].
  split; [|split].
  - rewrite !get_set_path_diverge by reflexivity. apply get_set_path_same.
  - rewrite get_set_path_diverge by reflexivity. apply get_set_path_same.
  - apply get_set_path_same.
Qed.

Ltac keeps_cap_rw :=
  repeat match goal with
  | E : ?f ?x = Ok ?y |- context [get_path ("Capacity" :: ?r) ?y] =>
      first [ rewrite (keeps_step _ _ _ _ (keeps_cap_auto_scaler r _ _) E)
            | rewrite (keeps_step _ _ _ _ (keeps_cap_health_check r _) E)
            | rewrite (keeps_step _ _ _ _ (keeps_cap_tags r _ _) E)
            | rewrite (keeps_step _ _ _ _ (keeps_cap_load_balancer r _ _) E)
            | rewrite (keeps_step _ _ _ _ (keeps_cap_public_ip r _) E)
            | rewrite (keeps_step _ _ _ _ (keeps_cap_security_groups r _) E)
            | rewrite (keeps_step _ _ _ _ (keeps_cap_iam r _) E)
            | rewrite (keeps_step _ _ _ _ (keeps_cap_user_data r _ _) E)
            | rewrite (keeps_step _ _ _ _ (keeps_cap_image r _ _) E)
            | rewrite (keeps_step _ _ _ _ (keeps_cap_block_devices r _ _) E)
            | rewrite (keeps_step _ _ _ _ (keeps_cap_launch_spec r _) E)
            | rewrite (keeps_step _ _ _ _ (keeps_cap_compute r _) E)
            | rewrite (keeps_step _ _ _ _ (keeps_cap_strategy r _) E) ]
  end.

(** X6: A group create builds successfully has MinSize and MaxSize set, and its capacity has Target = Minimum = MinSize and Maximum = MaxSize; no later section of create changes the capacity. *)
Theorem create_group_capacity rt cloud e g :
  create_group rt cloud e = Ok g ->
  exists mn mx, MinSize e = Some mn /\ MaxSize e = Some mx /\
    get_path ["Capacity"; "Target"] g = Some (VInt mn) /\
    get_path ["Capacity"; "Minimum"] g = Some (VInt mn) /\
    get_path ["Capacity"; "Maximum"] g = Some (VInt mx).
Proof.
  intros H. unfold create_group in H. repeat peel H.
  match goal with E : create_capacity _ _ = Ok _ |- _ =>
    destruct (create_capacity_sets _ _ _ E) as (mn & mx & Hmn & Hmx & Ht & Hmi & Hma) end.
  exists mn, mx. split; [exact Hmn|]. split; [exact Hmx|].
  keeps_cap_rw. auto.
Qed.

Lemma MinSize_applyDefaults e : MinSize (applyDefaults e) = MinSize e.
Proof. reflexivity. Qed.

Lemma MaxSize_applyDefaults e : MaxSize (applyDefaults e) = MaxSize e.
Proof. reflexivity. Qed.

(** X9: Reading back with Find a group that create built (with its ID assigned) gives the task's MinSize and MaxSize. *)
Theorem create_Find_capacity_roundtrip rt cloud cloud' e g id a n :
  create_group rt cloud (applyDefaults e) = Ok g ->
  Name e = Some n -> find cloud' n = Ok (set_path ["ID"] (VStr id) g) ->
  Find rt cloud' e = Ok a ->
  MinSize a = MinSize e /\ MaxSize a = MaxSize e.
Proof.
  intros Hc HN Hf HF.
  destruct (create_group_capacity _ _ _ _ Hc) as (mn & mx & Hmn & Hmx & _ & Hmi & Hma).
  rewrite MinSize_applyDefaults in Hmn. rewrite MaxSize_applyDefaults in Hmx.
  destruct (Find_ok_inv _ _ _ _ HF)
    as (n' & group' & capacity & compute & lc & HN' & Hf' & Hcap & _ & _ & _ & Hmin & Hmax & _).
  rewrite HN in HN'. injection HN' as <-. rewrite Hf in Hf'.
  assert (Hg : group' = set_path ["ID"] (VStr id) g) by congruence. subst group'.
  rewrite Hmin, Hmax, Hmn, Hmx, <- !(deref_get_path _ _ _ _ Hcap).
  rewrite !get_set_path_diverge by reflexivity. rewrite Hmi, Hma. split; reflexivity.
Qed.

Lemma create_group_capacity_witness :
  exists mn mx, MinSize (applyDefaults tagGroup) = Some mn /\ MaxSize (applyDefaults tagGroup) = Some mx /\
    get_path ["Capacity"; "Target"] createdTagGroup = Some (VInt mn) /\
    get_path ["Capacity"; "Minimum"] createdTagGroup = Some (VInt mn) /\
    get_path ["Capacity"; "Maximum"] createdTagGroup = Some (VInt mx).
Proof.
  apply (create_group_capacity (sampleRuntime reversedOrder) capacityCloud (applyDefaults tagGroup)).
  vm_compute. reflexivity.
Defined.

Lemma create_Find_capacity_roundtrip_witness :
  MinSize (match Find (sampleRuntime reversedOrder) tagCloud tagGroup with
           | Ok a => a | Error _ => emptyElastigroup end) = MinSize tagGroup /\
  MaxSize (match Find (sampleRuntime reversedOrder) tagCloud tagGroup with
           | Ok a => a | Error _ => emptyElastigroup end) = MaxSize tagGroup.
Proof.
  apply (create_Find_capacity_roundtrip (sampleRuntime reversedOrder) capacityCloud tagCloud tagGroup
           createdTagGroup "sig-0001" _ "nodes").
  - vm_compute. reflexivity.
  - reflexivity.
  - vm_compute. reflexivity.
  - vm_compute. reflexivity.
Defined.

Ltac keeps_chain q :=
  repeat match goal with
  | E : ?f ?x = Ok ?y |- context [get_path q ?y] =>
      let K := fresh "K" in
      assert (K : keeps q f) by keeps_tac2;
      rewrite (keeps_step q f x y K E); clear K E
  end.

Lemma sg_ids_ok sgs ids :
  sg_ids sgs = Ok ids ->
  (forall sg, In sg sgs -> sg_ID sg <> None) /\
  ids = map (fun sg => VStr (StringValue (sg_ID sg))) sgs.
Proof.
  revert ids; induction sgs as [|sg sgs IH]; intros ids H; simpl in H.
  - injection H as <-. split; [intros _ []|reflexivity].
  - destruct (sg_ID sg) as [id|] eqn:Eid; [|discriminate H].
    destruct (sg_ids sgs) as [rest|] eqn:Er; cbn [rbind] in H; [|discriminate H].
    injection H as <-. destruct (IH rest eq_refl) as [Hin ->].
    split.
    + intros sg' [<-|Hi]; [rewrite Eid; discriminate|exact (Hin sg' Hi)].
    + simpl. rewrite Eid. reflexivity.
Qed.

(** X7: When create builds a group from a task with security groups, every security group has an ID, and the launch specification lists these IDs in the task's order. *)
Theorem create_group_security_group_ids rt cloud e g sgs :
  create_group rt cloud e = Ok g -> SecurityGroups e = Some sgs ->
  (forall sg, In sg sgs -> sg_ID sg <> None) /\
  get_path (LS "SecurityGroupIDs") g =
    Some (VList (map (fun sg => VStr (StringValue (sg_ID sg))) sgs)).
Proof.
  intros H Hs. unfold create_group in H. repeat peel H.
  keeps_chain (LS "SecurityGroupIDs").
  match goal with E : create_security_groups _ _ = Ok _ |- _ => rename E into Esg end.
  unfold create_security_groups in Esg. rewrite Hs in Esg.
  destruct (sg_ids sgs) as [ids|] eqn:Ei; cbn [rbind] in Esg; [|discriminate Esg].
  destruct (sg_ids_ok _ _ Ei) as [Hin ->]. split; [exact Hin|].
  match type of Esg with Ok (set_path ?p ?v ?g0) = Ok ?g1 =>
    replace g1 with (set_path p v g0) by congruence end.
  apply get_set_path_same.
Qed.

Lemma subnet_ids_entries subnets :
  exists l, subnet_ids subnets = VList l /\
    length l = length (match subnets with Some s => s | None => [] end) /\
    forall i s, nth_error (match subnets with Some s => s | None => [] end) i = Some s ->
      nth_error l i = Some (VStr (StringValue (subnet_ID s))).
Proof.
  eexists. split; [reflexivity|]. split; [apply length_map|].
  intros i s Hi. rewrite nth_error_map, Hi. reflexivity.
Qed.

(** X8: A group create builds has one subnet ID per subnet of the task, in the task's order; a subnet without an ID contributes the empty string rather than an error. *)
Theorem create_group_subnet_ids rt cloud e g subnets :
  create_group rt cloud e = Ok g -> Subnets e = Some subnets ->
  exists l, get_path ["Compute"; "SubnetIDs"] g = Some (VList l) /\
    length l = length subnets /\
    forall i s, nth_error subnets i = Some s ->
      nth_error l i = Some (VStr (match subnet_ID s with Some id => id | None => "" end)).
Proof.
  intros H Hs. unfold create_group in H. repeat peel H.
  keeps_chain ["Compute"; "SubnetIDs"].
  match goal with E : create_compute _ _ = Ok _ |- _ => rename E into Ec end.
  unfold create_compute in Ec.
  match type of Ec with Ok (set_path ?p ?v ?g0) = Ok ?g1 =>
    replace g1 with (set_path p v g0) by congruence end.
  rewrite get_set_path_same.
  destruct (subnet_ids_entries (Subnets e)) as (l & Hl & Hlen & Hnth).
  rewrite Hs in Hlen, Hnth. exists l. rewrite Hl. split; [reflexivity|]. split; [exact Hlen|].
  intros i s Hi. rewrite (Hnth i s Hi). reflexivity.
Qed.

Lemma create_group_security_group_ids_witness :
  (forall sg, In sg [{| sg_Name := Some "nodes"; sg_ID := Some "sg-1" |}] -> sg_ID sg <> None) /\
  get_path (LS "SecurityGroupIDs") createdNetworkGroup = Some (VList [VStr "sg-1"]).
Proof.
  apply (create_group_security_group_ids (sampleRuntime storedOrder) capacityCloud networkGroup).
  - vm_compute. reflexivity.
  - reflexivity.
Defined.

Lemma create_group_subnet_ids_witness :
  exists l, get_path ["Compute"; "SubnetIDs"] createdNetworkGroup = Some (VList l) /\
    length l = 2%nat /\
    nth_error l 1 = Some (VStr "").
Proof.
  destruct (create_group_subnet_ids (sampleRuntime storedOrder) capacityCloud networkGroup
              createdNetworkGroup
              [{| subnet_Name := Some "us-east-1a"; subnet_ID := Some "subnet-1" |};
               {| subnet_Name := Some "us-east-1b"; subnet_ID := None |}])
    as (l & Hg & Hlen & Hnth).
  - vm_compute. reflexivity.
  - reflexivity.
  - exists l. split; [exact Hg|]. split; [exact Hlen|].
    exact (Hnth 1%nat {| subnet_Name := Some "us-east-1b"; subnet_ID := None |} eq_refl).
Defined.

Lemma find_first_match_witness :
  find twoGroupCloud "nodes" = Ok (liveGroup "nodes" 2 4 4 None).
Proof.
  apply (proj2 (find_first_match twoGroupCloud "nodes"
                  [liveGroup "masters" 1 1 1 None; liveGroup "nodes" 2 4 4 None] _ eq_refl)).
  exists [liveGroup "masters" 1 1 1 None], []. split; [reflexivity|]. split; [reflexivity|].
  constructor; [vm_compute; discriminate|constructor].
Defined.

Lemma CheckExisting_listing_witness :
  (CheckExisting twoGroupCloud (desiredGroup "nodes" 2 4) = Ok true <->
   exists groups g, cloud_List twoGroupCloud = Ok groups /\ In g groups /\ group_name g = "nodes") /\
  (forall err, cloud_List twoGroupCloud = Error err ->
     CheckExisting twoGroupCloud (desiredGroup "nodes" 2 4) = Ok false) /\
  (exists b, CheckExisting twoGroupCloud (desiredGroup "nodes" 2 4) = Ok b).
Proof. apply (CheckExisting_listing twoGroupCloud (desiredGroup "nodes" 2 4) "nodes"). reflexivity. Defined.

Lemma update_missing_id_panics_witness :
  update (sampleRuntime storedOrder) noIdCloud capacityActual (desiredGroup "nodes" 3 5)
         (capacityChanges (Some 3%Z) (Some 5%Z)) =
    (Error (ErrPanic "nil pointer dereference: group.ID"),
     snd (update_body (sampleRuntime storedOrder) noIdCloud capacityActual (desiredGroup "nodes" 3 5)
            (capacityChanges (Some 3%Z) (Some 5%Z)) noIdGroup (upd_start noIdGroup))).
Proof.
  apply (update_missing_id_panics _ _ _ _ _ "nodes").
  - reflexivity.
  - vm_compute. reflexivity.
  - vm_compute. reflexivity.
  - vm_compute. reflexivity.
Defined.

Lemma update_sends_live_id_witness :
  get_path ["ID"] sentGroup = Some (vstr (as_str (fld (liveGroup "nodes" 2 4 4 None) "ID"))).
Proof.
  apply (update_sends_live_id (sampleRuntime storedOrder) capacityCloud capacityActual
           (desiredGroup "nodes" 3 5) (capacityChanges (Some 3%Z) (Some 5%Z)) "nodes"
           (liveGroup "nodes" 2 4 4 None)
           (snd (update (sampleRuntime storedOrder) capacityCloud capacityActual
                        (desiredGroup "nodes" 3 5) (capacityChanges (Some 3%Z) (Some 5%Z))))).
  - reflexivity.
  - vm_compute. reflexivity.
  - intros g. reflexivity.
  - vm_compute. reflexivity.
  - vm_compute. left. reflexivity.
Defined.

Lemma find_auto_scaler_disabled ord opts g :
  fld g "Integration" = Some (create_integration ord opts) -> as_Enabled opts = None ->
  find_auto_scaler g =
    Some {| as_Enabled := None; as_AutoConfig := None; as_AutoHeadroomPercentage := None;
            as_ClusterID := as_ClusterID opts; as_Cooldown := None; as_Labels := None;
            as_Taints := None; as_Headroom := None; as_Down := None;
            as_ResourceLimits := None |}.
Proof.
  intros Hg He. unfold find_auto_scaler. rewrite Hg.
  unfold create_integration. rewrite He.
  destruct (as_ClusterID opts); reflexivity.
Qed.

Lemma fld_lit_cons k k' o fs :
  fld (lit ((k', o) :: fs)) k =
    if String.eqb k k' then match o with Some v => Some v | None => fld (lit fs) k end
    else fld (lit fs) k.
Proof. destruct o as [v|]; [reflexivity|]. destruct (String.eqb k k'); reflexivity. Qed.

Lemma fld_obj_cons k k' v fs :
  fld (VObj ((k', v) :: fs)) k = if String.eqb k k' then Some v else fld (VObj fs) k.
Proof. reflexivity. Qed.

Lemma fld_lit_nil k : fld (lit []) k = None.
Proof. reflexivity. Qed.

Lemma find_auto_scaler_enabled ord opts g b :
  fld g "Integration" = Some (create_integration ord opts) -> as_Enabled opts = Some b ->
  find_auto_scaler g =
    Some {| as_Enabled := Some b; as_AutoConfig := None; as_AutoHeadroomPercentage := None;
            as_ClusterID := as_ClusterID opts; as_Cooldown := as_Cooldown opts;
            as_Labels := option_map (fun m => map_of_kvs (map kvValue (ord RangeBuildAutoScaleLabels m)))
                                    (as_Labels opts);
            as_Taints := None; as_Headroom := option_map headroom_read (as_Headroom opts);
            as_Down := as_Down opts; as_ResourceLimits := None |}.
Proof.
  intros Hg He. unfold find_auto_scaler. rewrite Hg.
  unfold create_integration. rewrite He.
  match goal with |- context [set_path ["AutoScale"] (lit ?L) _] =>
    remember (lit L) as au eqn:Hau;
    assert (Hf : forall k, fld au k = fld (lit L) k) by (intros; rewrite Hau; reflexivity)
  end.
  destruct au as [| | | | | |fs]; try (unfold lit in Hau; discriminate Hau).
  cbn -[fld].
  repeat (rewrite fld_obj_cons; cbn -[fld]).
  rewrite !Hf, !fld_lit_cons, !fld_lit_nil. cbn -[fld lit].
  clear Hau Hf Hg. f_equal. f_equal.
  - destruct (as_ClusterID opts); reflexivity.
  - destruct (as_Cooldown opts); reflexivity.
  - destruct (as_Labels opts) as [m|]; [|reflexivity].
    unfold buildAutoScaleLabels, range_map. rewrite map_pair_id. reflexivity.
  - destruct (as_Headroom opts) as [[[c|] [gp|] [m|] [nu|]]|]; reflexivity.
  - destruct (as_Down opts) as [[[q|] [ep|]]|]; reflexivity.
Qed.

Lemma Find_auto_scaler_inv rt cloud e a n group :
  Find rt cloud e = Ok a -> Name e = Some n -> find cloud n = Ok group ->
  AutoScalerOpts_ a = find_auto_scaler group.
Proof.
  intros H HN Hf. unfold Find in H. rewrite HN, Hf in H. cbn [rbind] in H.
  repeat peel H. injection H as <-. reflexivity.
Qed.

Lemma create_group_integration rt cloud e g opts :
  create_group rt cloud e = Ok g -> AutoScalerOpts_ e = Some opts ->
  fld g "Integration" = Some (create_integration (rt_order rt) opts).
Proof.
  intros H Ho. unfold create_group in H. repeat peel H.
  unfold create_auto_scaler in H. rewrite Ho in H.
  match type of H with Ok (set_path ?p ?v ?g0) = Ok ?g1 =>
    replace g1 with (set_path p v g0) by congruence end.
  rewrite <- get_path_one. apply get_set_path_same.
Qed.

Lemma fld_set_id g id : fld (set_path ["ID"] (VStr id) g) "Integration" = fld g "Integration".
Proof. rewrite <- !get_path_one. apply get_set_path_diverge. reflexivity. Qed.

(** X11: When the task's auto-scaler options leave Enabled unset, create writes only the cluster identifier, so Find reads back auto-scaler options with the same cluster ID and every other field unset: cooldown, labels, headroom and scale-down are lost. *)
Theorem create_Find_auto_scaler_disabled rt cloud cloud' e g id a n opts :
  create_group rt cloud (applyDefaults e) = Ok g -> AutoScalerOpts_ e = Some opts ->
  as_Enabled opts = None -> Name e = Some n ->
  find cloud' n = Ok (set_path ["ID"] (VStr id) g) -> Find rt cloud' e = Ok a ->
  AutoScalerOpts_ a =
    Some {| as_Enabled := None; as_AutoConfig := None; as_AutoHeadroomPercentage := None;
            as_ClusterID := as_ClusterID opts; as_Cooldown := None; as_Labels := None;
            as_Taints := None; as_Headroom := None; as_Down := None;
            as_ResourceLimits := None |}.
Proof.
  intros Hc Ho He HN Hf HF.
  rewrite (Find_auto_scaler_inv _ _ _ _ _ _ HF HN Hf).
  apply (find_auto_scaler_disabled (rt_order rt)); [|exact He].
  rewrite fld_set_id. exact (create_group_integration _ _ _ _ _ Hc Ho).
Qed.

(** X12: When Enabled is set, Find reads back from a group that create built the same Enabled, cluster ID, cooldown and scale-down options, the labels up to order (for distinct keys), and the headroom with its non-positive units dropped; AutoConfig, AutoHeadroomPercentage, Taints and ResourceLimits are never read back. *)
Theorem create_Find_auto_scaler_enabled rt cloud cloud' e g id a n opts b :
  MapOrder_ok (rt_order rt) ->
  create_group rt cloud (applyDefaults e) = Ok g -> AutoScalerOpts_ e = Some opts ->
  as_Enabled opts = Some b -> Name e = Some n ->
  find cloud' n = Ok (set_path ["ID"] (VStr id) g) -> Find rt cloud' e = Ok a ->
  exists opts', AutoScalerOpts_ a = Some opts' /\
    as_Enabled opts' = Some b /\ as_ClusterID opts' = as_ClusterID opts /\
    as_Cooldown opts' = as_Cooldown opts /\ as_Down opts' = as_Down opts /\
    as_Headroom opts' = option_map headroom_read (as_Headroom opts) /\
    (forall m, as_Labels opts = Some m -> NoDup (map fst m) ->
       exists m', as_Labels opts' = Some m' /\ Permutation m' m) /\
    as_AutoConfig opts' = None /\ as_AutoHeadroomPercentage opts' = None /\
    as_Taints opts' = None /\ as_ResourceLimits opts' = None.
Proof.
  intros Hord Hc Ho He HN Hf HF.
  rewrite (Find_auto_scaler_inv _ _ _ _ _ _ HF HN Hf).
  rewrite (find_auto_scaler_enabled (rt_order rt) opts _ b); [| |exact He].
  2: { rewrite fld_set_id. exact (create_group_integration _ _ _ _ _ Hc Ho). }
  eexists. split; [reflexivity|]. cbn.
  do 5 (split; [reflexivity|]).
  split; [|repeat split].
  intros m Hm Hnd. rewrite Hm. cbn.
  exists (rt_order rt RangeBuildAutoScaleLabels m). split.
  - rewrite map_of_kvs_kvValue; [reflexivity|].
    apply (Permutation_NoDup (Permutation_map fst (Permutation_sym (Hord _ m)))). exact Hnd.
  - apply Hord.
Qed.

Lemma create_Find_auto_scaler_disabled_witness :
  AutoScalerOpts_ (foundScaler clusterOnlyOpts) =
    Some {| as_Enabled := None; as_AutoConfig := None; as_AutoHeadroomPercentage := None;
            as_ClusterID := Some "prod"; as_Cooldown := None; as_Labels := None;
            as_Taints := None; as_Headroom := None; as_Down := None;
            as_ResourceLimits := None |}.
Proof.
  apply (create_Find_auto_scaler_disabled (sampleRuntime reversedOrder) capacityCloud
           (scalerCloud clusterOnlyOpts) (scalerGroup clusterOnlyOpts)
           (createdScalerGroup clusterOnlyOpts) "sig-0001" _ "nodes" clusterOnlyOpts).
  - vm_compute. reflexivity.
  - reflexivity.
  - reflexivity.
  - reflexivity.
  - vm_compute. reflexivity.
  - vm_compute. reflexivity.
Defined.

Lemma create_Find_auto_scaler_enabled_witness :
  exists opts', AutoScalerOpts_ (foundScaler enabledOpts) = Some opts' /\
    as_Enabled opts' = Some true /\ as_ClusterID opts' = Some "prod" /\
    as_Cooldown opts' = Some 300%Z /\ as_Down opts' = as_Down enabledOpts /\
    as_Headroom opts' = option_map headroom_read (as_Headroom enabledOpts) /\
    (forall m, as_Labels enabledOpts = Some m -> NoDup (map fst m) ->
       exists m', as_Labels opts' = Some m' /\ Permutation m' m) /\
    as_AutoConfig opts' = None /\ as_AutoHeadroomPercentage opts' = None /\
    as_Taints opts' = None /\ as_ResourceLimits opts' = None.
Proof.
  apply (create_Find_auto_scaler_enabled (sampleRuntime reversedOrder) capacityCloud
           (scalerCloud enabledOpts) (scalerGroup enabledOpts)
           (createdScalerGroup enabledOpts) "sig-0001" _ "nodes" enabledOpts true).
  - exact reversedOrder_ok.
  - vm_compute. reflexivity.
  - reflexivity.
  - reflexivity.
  - reflexivity.
  - vm_compute. reflexivity.
  - vm_compute. reflexivity.
Defined.
